(** * Highlight detection (backend/services/highlight_detector.py)

    A shallow embedding of the [HighlightDetector] class and the properties
    of its segment scoring, greedy selection, title generation and fallback
    generator.

    Modelling choices.
    - Time stamps, durations and scores are exact rationals ([Q]); the
      rounding of IEEE doubles is not modelled.  The one special double the
      code can produce, the NaN that [np.mean] returns on an empty slice, is
      modelled explicitly ([npfloat]).
    - A transcript segment is a Python dict; a key that is absent is [None]
      in the record and reading it raises [KeyError].
    - Exceptions are values of an error monad ([result]).
    - [numpy]'s square root is not rational: it is a parameter of the
      scoring section ([np_sqrt]).
    - Text is ASCII: bytes above 127 have no case, are not white space and
      count as word characters. *)

From Stdlib Require Import QArith Qround Qminmax Lqa ZArith Lia List String Ascii Bool Arith.
From Stdlib Require Import DecimalString Sorted.
Import ListNotations.

Local Open Scope Q_scope.

(** ** Exceptions and the error monad *)

Inductive exn : Type :=
| KeyError (key : string)
| IndexError
| ZeroDivisionError
| TypeError (msg : string)
| ServiceError (msg : string).

Inductive result (A : Type) : Type :=
| Ok (a : A)
| Raise (e : exn).

Arguments Ok {A} a.
Arguments Raise {A} e.

Definition bind {A B : Type} (c : result A) (k : A -> result B) : result B :=
  match c with
  | Ok a => k a
  | Raise e => Raise e
  end.

Notation "x <- c ;; k" := (bind c (fun x => k))
  (at level 61, c at next level, right associativity).

(** [try: body except Exception: handler] *)
Definition try_except {A : Type} (body : result A) (handler : exn -> result A)
  : result A :=
  match body with
  | Ok a => Ok a
  | Raise e => handler e
  end.

(** [d[key]] on a dict whose entry for [key] is [v]. *)
Definition getitem {A : Type} (key : string) (v : option A) : result A :=
  match v with
  | Some a => Ok a
  | None => Raise (KeyError key)
  end.

(** [d.get(key, default)] *)
Definition dict_get {A : Type} (v : option A) (default : A) : A :=
  match v with
  | Some a => a
  | None => default
  end.

Definition raises {A : Type} (c : result A) : Prop :=
  exists e, c = Raise e.

Definition returns {A : Type} (c : result A) : Prop :=
  exists a, c = Ok a.

(** ** Numbers *)

Definition Qltb (a b : Q) : bool := negb (Qle_bool b a).

(** The builtin [max(a, b)]: [b] replaces [a] only when [b > a]. *)
Definition py_max (a b : Q) : Q := if Qltb a b then b else a.

(** The builtin [min(a, b)]: [b] replaces [a] only when [b < a]. *)
Definition py_min (a b : Q) : Q := if Qltb b a then b else a.

(** [a / b] on Python numbers. *)
Definition py_div (a b : Q) : result Q :=
  if Qeq_bool b 0 then Raise ZeroDivisionError else Ok (a / b).

(** Doubles as the scorer sees them: a rational, or NaN. *)
Inductive npfloat : Type :=
| Fin (q : Q)
| NaN.

Definition fadd (a b : npfloat) : npfloat :=
  match a, b with
  | Fin x, Fin y => Fin (x + y)
  | _, _ => NaN
  end.

Definition fmul (a b : npfloat) : npfloat :=
  match a, b with
  | Fin x, Fin y => Fin (x * y)
  | _, _ => NaN
  end.

(** [a < b]; every comparison with NaN is false. *)
Definition fltb (a b : npfloat) : bool :=
  match a, b with
  | Fin x, Fin y => Qltb x y
  | _, _ => false
  end.

(** [min(a, b)] on doubles: [min(nan, 1.0)] is [nan]. *)
Definition np_min (a b : npfloat) : npfloat := if fltb b a then b else a.

(** Equality of doubles up to the representation of the rational. *)
Definition feq (a b : npfloat) : Prop :=
  match a, b with
  | Fin x, Fin y => x == y
  | NaN, NaN => True
  | _, _ => False
  end.

Definition is_nan (a : npfloat) : bool :=
  match a with
  | NaN => true
  | Fin _ => false
  end.

Definition Qsum (xs : list Q) : Q := fold_left Qplus xs 0.

Definition Qlen {A : Type} (xs : list A) : Q := inject_Z (Z.of_nat (List.length xs)).

(** The mean of a non-empty array. *)
Definition Qmean (xs : list Q) : Q := Qsum xs / Qlen xs.

(** [np.mean(xs)]: NaN (and a RuntimeWarning, not an exception) on an empty
    array. *)
Definition np_mean (xs : list Q) : npfloat :=
  match xs with
  | [] => NaN
  | _ :: _ => Fin (Qmean xs)
  end.

(** [np.searchsorted(a, v)] (side 'left') on an ascending array: the first
    index whose element is not below [v]. *)
Fixpoint searchsorted (a : list Q) (v : Q) : nat :=
  match a with
  | [] => O
  | x :: a' => if Qltb x v then S (searchsorted a' v) else O
  end.

(** [xs[i:j]] *)
Definition slice {A : Type} (xs : list A) (i j : nat) : list A :=
  skipn i (firstn j xs).

(** ** Strings *)

Local Open Scope string_scope.

Definition code (c : ascii) : nat := nat_of_ascii c.

Definition between (lo hi : nat) (c : ascii) : bool :=
  (lo <=? code c)%nat && (code c <=? hi)%nat.

Definition is_upper (c : ascii) : bool := between 65 90 c.
Definition is_lower (c : ascii) : bool := between 97 122 c.
Definition is_digit (c : ascii) : bool := between 48 57 c.

(** [str.isspace] on one character: TAB, LF, VT, FF, CR, FS, GS, RS, US and
    the space. *)
Definition is_space (c : ascii) : bool :=
  between 9 13 c || between 28 32 c.

(** The class [\w] on ASCII text: letters, digits and the underscore; a
    byte above 127 (a part of a letter in UTF-8) counts as a word
    character. *)
Definition is_word_char (c : ascii) : bool :=
  is_upper c || is_lower c || is_digit c || (code c =? 95)%nat
  || (128 <=? code c)%nat.

Definition is_hyphen (c : ascii) : bool := (code c =? 45)%nat.

Definition to_lower (c : ascii) : ascii :=
  if is_upper c then ascii_of_nat (code c + 32) else c.

Definition to_upper (c : ascii) : ascii :=
  if is_lower c then ascii_of_nat (code c - 32) else c.

(** [s.lower()] *)
Fixpoint lower (s : string) : string :=
  match s with
  | EmptyString => EmptyString
  | String c s' => String (to_lower c) (lower s')
  end.

(** [s.startswith(p)] *)
Fixpoint startswith (p s : string) : bool :=
  match p, s with
  | EmptyString, _ => true
  | String _ _, EmptyString => false
  | String a p', String b s' => Ascii.eqb a b && startswith p' s'
  end.

(** [p in s] *)
Fixpoint contains (p s : string) : bool :=
  startswith p s ||
  match s with
  | EmptyString => false
  | String _ s' => contains p s'
  end.

(** [s.count(c)] for a one-character [c]. *)
Fixpoint count_char (c : ascii) (s : string) : nat :=
  match s with
  | EmptyString => O
  | String a s' => (if Ascii.eqb a c then 1 else 0) + count_char c s'
  end.

(** [s.lstrip()] *)
Fixpoint lstrip (s : string) : string :=
  match s with
  | EmptyString => EmptyString
  | String c s' => if is_space c then lstrip s' else s
  end.

(** [s.rstrip()] *)
Fixpoint rstrip (s : string) : string :=
  match s with
  | EmptyString => EmptyString
  | String c s' =>
      match rstrip s' with
      | EmptyString => if is_space c then EmptyString else String c EmptyString
      | String _ _ as r => String c r
      end
  end.

(** [s.strip()] *)
Definition strip (s : string) : string := rstrip (lstrip s).

(** [s.split()]: the scanner keeps the word being read ([cur], reversed)
    and emits it at each white-space character and at the end. *)
Fixpoint split_scan (s : string) (cur : list ascii) : list string :=
  match s with
  | EmptyString =>
      match cur with
      | [] => []
      | _ :: _ => [string_of_list_ascii (rev cur)]
      end
  | String c s' =>
      if is_space c then
        match cur with
        | [] => split_scan s' []
        | _ :: _ => string_of_list_ascii (rev cur) :: split_scan s' []
        end
      else split_scan s' (c :: cur)
  end.

Definition split (s : string) : list string := split_scan s [].

(** [sep.join(words)] *)
Fixpoint join (sep : string) (words : list string) : string :=
  match words with
  | [] => ""
  | [w] => w
  | w :: ws => w ++ sep ++ join sep ws
  end.

(** [re.sub(r'[^\w\s-]', '', s)] *)
Fixpoint re_sub_punct (s : string) : string :=
  match s with
  | EmptyString => EmptyString
  | String c s' =>
      if is_word_char c || is_space c || is_hyphen c
      then String c (re_sub_punct s')
      else re_sub_punct s'
  end.

(** [s.title()]: a cased character is upper-cased when the previous
    character is not cased and lower-cased when it is. *)
Fixpoint title_scan (s : string) (previous_is_cased : bool) : string :=
  match s with
  | EmptyString => EmptyString
  | String c s' =>
      if is_lower c then
        String (if previous_is_cased then c else to_upper c) (title_scan s' true)
      else if is_upper c then
        String (if previous_is_cased then to_lower c else c) (title_scan s' true)
      else String c (title_scan s' false)
  end.

Definition title_case (s : string) : string := title_scan s false.

(** [str(n)] for a non-negative integer. *)
Definition str_of_nat (n : nat) : string :=
  NilEmpty.string_of_uint (Nat.to_uint n).

(** Truth value of a string: non-empty. *)
Definition truthy (s : string) : bool :=
  match s with
  | EmptyString => false
  | String _ _ => true
  end.

(** ** Data model *)

Local Open Scope Q_scope.

(** One transcript segment, a dict with the keys "text", "start", "end" and
    "confidence"; [None] is an absent key. *)
Record segment : Type := {
  seg_text : option string;
  seg_start : option Q;
  seg_end : option Q;
  seg_confidence : option Q
}.

(** The dict returned by [_extract_text_features]. *)
Record text_features : Type := {
  engagement_scores : list nat;
  emotion_scores : list nat;
  question_scores : list nat;
  exclamation_scores : list nat;
  word_counts : list nat;
  speaking_rates : list Q
}.

(** The dict of audio features; of its keys the detector reads "rms_energy"
    and "time_axis" only, "duration" stands for the others. *)
Record audio_features : Type := {
  rms_energy : option (list Q);
  time_axis : option (list Q);
  audio_duration : option Q
}.

Definition empty_audio : audio_features :=
  {| rms_energy := None; time_axis := None; audio_duration := None |}.

Definition is_some {A : Type} (v : option A) : bool :=
  match v with
  | Some _ => true
  | None => false
  end.

(** Truth value of a dict: it has a key. *)
Definition dict_truthy (af : audio_features) : bool :=
  is_some (rms_energy af) || is_some (time_axis af) || is_some (audio_duration af).

(** The dict appended by [_score_segments]. *)
Record scored_segment : Type := {
  sc_start_time : Q;
  sc_end_time : Q;
  sc_text : string;
  sc_score : npfloat;
  sc_confidence : Q
}.

(** The dict of one highlight. *)
Record highlight : Type := {
  start_time : Q;
  end_time : Q;
  text : string;
  score : npfloat;
  title : string
}.

(** ** HighlightDetector.__init__ *)

Definition engagement_keywords : list string :=
  [ "amazing"; "incredible"; "wow"; "unbelievable"; "shocking"; "surprising";
    "important"; "crucial"; "key"; "essential"; "must"; "never"; "always";
    "secret"; "hidden"; "revealed"; "discovery"; "breakthrough"; "game-changer";
    "mistake"; "error"; "wrong"; "right"; "correct"; "truth"; "fact";
    "question"; "answer"; "solution"; "problem"; "issue"; "challenge";
    "tip"; "trick"; "hack"; "method"; "technique"; "strategy"; "way";
    "best"; "worst"; "top"; "bottom"; "first"; "last"; "only"; "unique" ]%string.

Definition emotion_keywords : list string :=
  [ "love"; "hate"; "excited"; "angry"; "sad"; "happy"; "frustrated";
    "confused"; "surprised"; "shocked"; "amazed"; "disappointed" ]%string.

(** ** _extract_text_features *)

(** [sum(1 for keyword in keywords if keyword in text)] *)
Definition keyword_score (keywords : list string) (text : string) : nat :=
  fold_left (fun total keyword => if contains keyword text then (total + 1)%nat else total)
            keywords O.

Definition Qnat (n : nat) : Q := inject_Z (Z.of_nat n).

Definition empty_features : text_features :=
  {| engagement_scores := []; emotion_scores := []; question_scores := [];
     exclamation_scores := []; word_counts := []; speaking_rates := [] |}.

(** The body of the loop over the transcription. *)
Definition text_features_step (features : text_features) (segment : segment)
  : result text_features :=
  raw <- getitem "text" (seg_text segment) ;;
  let text := lower raw in
  seg_e <- getitem "end" (seg_end segment) ;;
  seg_s <- getitem "start" (seg_start segment) ;;
  let duration := seg_e - seg_s in
  let word_count := List.length (split text) in
  let engagement_score := keyword_score engagement_keywords text in
  let emotion_score := keyword_score emotion_keywords text in
  let question_score := count_char "?"%char text in
  let exclamation_score := count_char "!"%char text in
  speaking_rate <- py_div (Qnat word_count) (py_max duration 1) ;;
  Ok {| engagement_scores := engagement_scores features ++ [engagement_score];
        emotion_scores := emotion_scores features ++ [emotion_score];
        question_scores := question_scores features ++ [question_score];
        exclamation_scores := exclamation_scores features ++ [exclamation_score];
        word_counts := word_counts features ++ [word_count];
        speaking_rates := speaking_rates features ++ [speaking_rate] |}.

(** [for x in xs: st = step(st, x)], stopping at the first exception. *)
Fixpoint for_each {S A : Type} (step : S -> A -> result S) (xs : list A) (st : S)
  : result S :=
  match xs with
  | [] => Ok st
  | x :: xs' => st' <- step st x ;; for_each step xs' st'
  end.

Definition _extract_text_features (transcription : list segment)
  : result text_features :=
  for_each text_features_step transcription empty_features.

(** ** _extract_audio_features

    [service] is the outcome of building the [TranscriptionService] and
    awaiting its [extract_audio_features(video_path)]. *)
Definition _extract_audio_features (service : result audio_features)
  : result audio_features :=
  try_except service (fun _ => Ok empty_audio).

(** ** _score_segments *)

(** [xs[i]] on an array *)
Definition array_get (xs : list Q) (i : nat) : result Q :=
  match nth_error xs i with
  | Some x => Ok x
  | None => Raise IndexError
  end.

(** [np.array] of a list of ints *)
Definition np_array (xs : list nat) : list Q := map Qnat xs.

Section Scoring.

(** The square root of [numpy]. *)
Variable np_sqrt : Q -> Q.

(** [xs.std()]: the root of the mean squared deviation. *)
Definition np_std (xs : list Q) : Q :=
  np_sqrt (Qmean (map (fun x => (x - Qmean xs) * (x - Qmean xs)) xs)).

(** [(xs - xs.mean()) / max(xs.std(), 1)] *)
Definition normalize (xs : list Q) : list Q :=
  map (fun x => (x - Qmean xs) / py_max (np_std xs) 1) xs.

(** The statements inside the [try] of the audio-based scoring. *)
Definition audio_scoring (audio : audio_features) (segment : segment)
                         (score : npfloat) : result npfloat :=
  seg_s <- getitem "start" (seg_start segment) ;;
  seg_e <- getitem "end" (seg_end segment) ;;
  let time_axis := dict_get (time_axis audio) [] in
  let rms_energy := dict_get (rms_energy audio) [] in
  if (0 <? List.length time_axis)%nat && (0 <? List.length rms_energy)%nat then
    let start_idx := searchsorted time_axis seg_s in
    let end_idx := searchsorted time_axis seg_e in
    if (start_idx <? List.length rms_energy)%nat
       && (end_idx <=? List.length rms_energy)%nat then
      let segment_energy := np_mean (slice rms_energy start_idx end_idx) in
      let energy_score := np_min (fmul segment_energy (Fin 10)) (Fin 1) in
      Ok (fadd score (fmul energy_score (Fin 0.2)))
    else Ok score
  else Ok score.

(** The score of segment [i] from the (possibly normalized) arrays. *)
Definition segment_score (engagement emotion question exclamation rates : list Q)
                         (audio : audio_features) (i : nat) (segment : segment)
  : result npfloat :=
  let score := Fin 0 in
  x <- array_get engagement i ;;
  let score := fadd score (Fin (x * 0.3)) in
  x <- array_get emotion i ;;
  let score := fadd score (Fin (x * 0.2)) in
  x <- array_get question i ;;
  let score := fadd score (Fin (x * 0.1)) in
  x <- array_get exclamation i ;;
  let score := fadd score (Fin (x * 0.1)) in
  x <- array_get rates i ;;
  let score := fadd score (Fin (py_min x 2 * 0.1)) in
  if dict_truthy audio && is_some (rms_energy audio) then
    try_except (audio_scoring audio segment score) (fun _ => Ok score)
  else Ok score.

(** The loop [for i, segment in enumerate(transcription)]. *)
Fixpoint score_loop (engagement emotion question exclamation rates : list Q)
                    (audio : audio_features) (segments : list segment) (i : nat)
                    (scored_segments : list scored_segment)
  : result (list scored_segment) :=
  match segments with
  | [] => Ok scored_segments
  | segment :: rest =>
      score <- segment_score engagement emotion question exclamation rates
                             audio i segment ;;
      seg_s <- getitem "start" (seg_start segment) ;;
      seg_e <- getitem "end" (seg_end segment) ;;
      raw <- getitem "text" (seg_text segment) ;;
      score_loop engagement emotion question exclamation rates audio rest (S i)
        (scored_segments ++
           [{| sc_start_time := seg_s; sc_end_time := seg_e; sc_text := raw;
               sc_score := score;
               sc_confidence := dict_get (seg_confidence segment) 0 |}])
  end.

Definition _score_segments (transcription : list segment)
                           (features : text_features) (audio : audio_features)
  : result (list scored_segment) :=
  let engagement := np_array (engagement_scores features) in
  let emotion := np_array (emotion_scores features) in
  let question := np_array (question_scores features) in
  let exclamation := np_array (exclamation_scores features) in
  let rates := speaking_rates features in
  if (1 <? List.length engagement)%nat then
    score_loop (normalize engagement) (normalize emotion) question exclamation
               (normalize rates) audio transcription O []
  else
    score_loop engagement emotion question exclamation rates audio transcription O [].

End Scoring.

(** ** _generate_title *)

Definition _generate_title (text : string) : string :=
  let words := firstn 6 (split (strip text)) in
  let title := join " " words in
  let title := re_sub_punct title in
  let title := strip title in
  if truthy title then title_case title else "Highlight"%string.

(** ** _select_highlights *)

(** [sorted(scored_segments, key=score, reverse=True)]: a stable sort, the
    segments of equal score keep their order.  This is the order of Python
    for scores that are not NaN; with a NaN score, which compares false
    with every number, Python's order can be another one, and what is
    stated about the order assumes that no score is NaN. *)
Fixpoint insert_by_score (x : scored_segment) (sorted : list scored_segment)
  : list scored_segment :=
  match sorted with
  | [] => [x]
  | y :: ys =>
      if fltb (sc_score x) (sc_score y) then y :: insert_by_score x ys
      else x :: sorted
  end.

Definition sorted_by_score (scored_segments : list scored_segment)
  : list scored_segment :=
  fold_right insert_by_score [] scored_segments.

(** The duration check: extend a short segment on both sides, trim a long
    one at its end.  The differences and sums are exact here and rounded in
    the code: what is stated about the length of the result is stated to
    within a millisecond. *)
Definition repair_duration (seg_s seg_e : Q) (min_duration max_duration : Z)
  : Q * Q :=
  let duration := seg_e - seg_s in
  if Qltb duration (inject_Z min_duration) || Qltb (inject_Z max_duration) duration then
    if Qltb duration (inject_Z min_duration) then
      let extension := (inject_Z min_duration - duration) / 2 in
      (py_max 0 (seg_s - extension), seg_e + extension)
    else if Qltb (inject_Z max_duration) duration then
      (seg_s, seg_s + inject_Z max_duration)
    else (seg_s, seg_e)
  else (seg_s, seg_e).

(** The loop over [used_time_ranges]. *)
Fixpoint overlaps_used (used_time_ranges : list (Q * Q)) (s e : Q) : bool :=
  match used_time_ranges with
  | [] => false
  | (used_start, used_end) :: rest =>
      if Qltb s used_end && Qltb used_start e then true
      else overlaps_used rest s e
  end.

(** The loop over the sorted segments. *)
Fixpoint select_loop (sorted_segments : list scored_segment) (max_clips : Z)
                     (min_duration max_duration : Z)
                     (highlights : list highlight)
                     (used_time_ranges : list (Q * Q)) : list highlight :=
  match sorted_segments with
  | [] => highlights
  | segment :: rest =>
      if (max_clips <=? Z.of_nat (List.length highlights))%Z then highlights
      else
        let '(s, e) := repair_duration (sc_start_time segment) (sc_end_time segment)
                                       min_duration max_duration in
        if overlaps_used used_time_ranges s e then
          select_loop rest max_clips min_duration max_duration
                      highlights used_time_ranges
        else
          select_loop rest max_clips min_duration max_duration
            (highlights ++
               [{| start_time := s; end_time := e; text := sc_text segment;
                   score := sc_score segment;
                   title := _generate_title (sc_text segment) |}])
            (used_time_ranges ++ [(s, e)])
  end.

Definition _select_highlights (scored_segments : list scored_segment)
                              (max_clips min_duration max_duration : Z)
  : list highlight :=
  select_loop (sorted_by_score scored_segments) max_clips min_duration
              max_duration [] [].

(** ** _fallback_highlights *)

(** [xs[0]] and [xs[-1]] *)
Definition item_first {A : Type} (xs : list A) : result A :=
  match xs with
  | [] => Raise IndexError
  | x :: _ => Ok x
  end.

Fixpoint item_last {A : Type} (xs : list A) : result A :=
  match xs with
  | [] => Raise IndexError
  | [x] => Ok x
  | _ :: xs' => item_last xs'
  end.

(** [transcription[-1]["end"]] and [transcription[0]["start"]] *)
Definition last_end (transcription : list segment) : result Q :=
  segment <- item_last transcription ;; getitem "end" (seg_end segment).

Definition first_start (transcription : list segment) : result Q :=
  segment <- item_first transcription ;; getitem "start" (seg_start segment).

(** The inner loop: the text of the segments that lie inside the window;
    [and] does not read "end" when the first test fails. *)
Fixpoint window_text (segments : list segment) (start_time end_time : Q)
                     (segment_text : string) : result string :=
  match segments with
  | [] => Ok segment_text
  | segment :: rest =>
      seg_s <- getitem "start" (seg_start segment) ;;
      if Qle_bool start_time seg_s then
        seg_e <- getitem "end" (seg_end segment) ;;
        if Qle_bool seg_e end_time then
          raw <- getitem "text" (seg_text segment) ;;
          window_text rest start_time end_time (segment_text ++ raw ++ " ")%string
        else window_text rest start_time end_time segment_text
      else window_text rest start_time end_time segment_text
  end.

(** The loop [for i in range(max_clips)]; [remaining] counts the values of
    [i] that are left.  The sums [start_time + segment_duration] and
    [end_time + 10] are exact here and rounded in the code. *)
Fixpoint fallback_loop (transcription : list segment) (segment_duration : Q)
                       (remaining i : nat) (current_time : Q)
                       (highlights : list highlight) : result (list highlight) :=
  match remaining with
  | O => Ok highlights
  | S remaining' =>
      let start_time := current_time in
      transcript_end <- last_end transcription ;;
      let end_time := py_min (start_time + segment_duration) transcript_end in
      segment_text <- window_text transcription start_time end_time ""%string ;;
      let highlights :=
        if truthy (strip segment_text) then
          (highlights ++
            [{| start_time := start_time; end_time := end_time;
                text := strip segment_text; score := Fin 0.5;
                title := ("Highlight " ++ str_of_nat (i + 1))%string |}])%list
        else highlights in
      let current_time := end_time + 10 in
      transcript_end <- last_end transcription ;;
      if Qle_bool transcript_end current_time then Ok highlights
      else fallback_loop transcription segment_duration remaining' (S i)
                         current_time highlights
  end.

Definition _fallback_highlights (transcription : list segment)
                                (max_clips min_duration max_duration : Z)
  : result (list highlight) :=
  match transcription with
  | [] => Ok []
  | _ :: _ =>
      transcript_end <- last_end transcription ;;
      transcript_start <- first_start transcription ;;
      let total_duration := transcript_end - transcript_start in
      share <- py_div total_duration (inject_Z max_clips) ;;
      let segment_duration :=
        py_min (inject_Z max_duration) (py_max (inject_Z min_duration) share) in
      current_time <- first_start transcription ;;
      fallback_loop transcription segment_duration (Z.to_nat max_clips) O
                    current_time []
  end.

(** ** detect_highlights *)

Section Detection.

Variable np_sqrt : Q -> Q.

(** The body of the [try]. *)
Definition scored_path (service : result audio_features)
                       (transcription : list segment)
                       (max_clips min_duration max_duration : Z)
  : result (list highlight) :=
  features <- _extract_text_features transcription ;;
  audio <- _extract_audio_features service ;;
  scored_segments <- _score_segments np_sqrt transcription features audio ;;
  Ok (_select_highlights scored_segments max_clips min_duration max_duration).

Definition detect_highlights (service : result audio_features)
                             (transcription : list segment)
                             (max_clips min_duration max_duration : Z)
  : result (list highlight) :=
  try_except
    (scored_path service transcription max_clips min_duration max_duration)
    (fun _ => _fallback_highlights transcription max_clips min_duration
                                   max_duration).

End Detection.

(** ** Sample data *)

Definition seg (t : string) (s e : Q) : segment :=
  {| seg_text := Some t; seg_start := Some s; seg_end := Some e;
     seg_confidence := None |}.

(** A square root for the examples: exact on squares of integers, the
    integer root of the floor otherwise. *)
Definition floor_sqrt (q : Q) : Q := inject_Z (Z.sqrt (Qfloor q)).


Definition missing_text (s e : Q) : segment :=
  {| seg_text := None; seg_start := Some s; seg_end := Some e;
     seg_confidence := None |}.

Definition clamped_transcript : list segment :=
  [seg "wow this is it" 5 15; seg "second one here" 100 130].

Definition gap_transcript : list segment :=
  [seg "hello" 0 5; seg "long" 25 70; seg "tail" 70 80].

Definition coarse_audio : audio_features :=
  {| rms_energy := Some [0.1; 0.1; 0.1; 0.1];
     time_axis := Some [0; 0.032; 0.064; 0.096];
     audio_duration := Some 0.128 |}.



Definition gap_first : highlight :=
  {| start_time := 0; end_time := 20; text := "hello"; score := Fin 0.5;
     title := "Highlight 1" |}.

Definition gap_third : highlight :=
  {| start_time := 60; end_time := 80; text := "tail"; score := Fin 0.5;
     title := "Highlight 3" |}.

(** The text features of [clamped_transcript]. *)
Definition clamped_features : text_features :=
  {| engagement_scores := [1%nat; 0%nat]; emotion_scores := [0%nat; 0%nat];
     question_scores := [0%nat; 0%nat]; exclamation_scores := [0%nat; 0%nat];
     word_counts := [4%nat; 3%nat]; speaking_rates := [0.4; 3 # 30] |}.

(** A segment of 20 ms that lies between two frames of [coarse_audio]. *)
Definition between_frames : list segment := [seg "wow" 0.04 0.06].



(** One scored segment and the highlight that the selector makes of it. *)
Definition amazing_scored : scored_segment :=
  {| sc_start_time := 0; sc_end_time := 40;
     sc_text := "this is AMAZING!!! you won't believe it";
     sc_score := Fin 1; sc_confidence := 0 |}.

Definition long_scored : scored_segment :=
  {| sc_start_time := 401 # 100; sc_end_time := 10401 # 100;
     sc_text := "a long talk"; sc_score := Fin 1; sc_confidence := 0 |}.

Definition long_highlight : highlight :=
  Eval vm_compute in
    match _select_highlights [long_scored] 3 30 60 with
    | h :: _ => h
    | [] => {| start_time := 0; end_time := 0; text := ""; score := NaN;
               title := "" |}
    end.

Definition amazing_highlight : highlight :=
  {| start_time := 0; end_time := 40;
     text := "this is AMAZING!!! you won't believe it";
     score := Fin 1; title := "This Is Amazing You Wont Believe" |}.

(** ** The properties in the words of the specification *)

Definition duration (h : highlight) : Q := end_time h - start_time h.

(** The model computes with exact rationals and the code with doubles: each
    sum of the code is rounded, by far less than a millisecond for the time
    stamps of a video.  The statements about lengths of time leave a
    millisecond for that. *)
Definition millisecond : Q := 1 # 1000.

(** [x] is [y], to within a millisecond. *)
Definition about (x y : Q) : Prop :=
  y - millisecond <= x /\ x <= y + millisecond.

(** [start_a >= end_b or start_b >= end_a] *)
Definition disjoint (a b : highlight) : Prop :=
  end_time b <= start_time a \/ end_time a <= start_time b.

Definition no_overlap (hs : list highlight) : Prop :=
  forall i j a b, i <> j ->
    nth_error hs i = Some a -> nth_error hs j = Some b -> disjoint a b.


(** The number of places of [s] where the phrase [p] starts. *)
Fixpoint occurrences (p s : string) : nat :=
  (if startswith p s then 1 else 0) +
  match s with
  | EmptyString => 0
  | String _ s' => occurrences p s'
  end.

(** Every occurrence of every phrase counts. *)
Definition phrase_occurrences (keywords : list string) (text : string) : nat :=
  list_sum (map (fun keyword => occurrences keyword text) keywords).

(** Every phrase that occurs counts once. *)
Definition phrases_present (keywords : list string) (text : string) : nat :=
  List.length (filter (fun keyword => contains keyword text) keywords).


(** The fixed-weight combination of the five text signals. *)
Definition weighted_sum (engagement emotion question exclamation rate : Q) : Q :=
  0.3 * engagement + 0.2 * emotion + 0.1 * question + 0.1 * exclamation
  + 0.1 * Qmin rate 2.

(** The audio block of [_score_segments] in closed form: its guards pass
    when "rms_energy" is there, both arrays are not empty and the two
    indices lie within the energy array. *)
Definition audio_guards (audio : audio_features) (s e : Q) : bool :=
  match rms_energy audio with
  | None => false
  | Some rms =>
      let axis := dict_get (time_axis audio) [] in
      negb (Nat.eqb (List.length axis) 0) && negb (Nat.eqb (List.length rms) 0)
      && (searchsorted axis s <? List.length rms)%nat
      && (searchsorted axis e <=? List.length rms)%nat
  end.

(** The samples of the energy series that the range [s, e) maps onto. *)
Definition samples_in_range (audio : audio_features) (s e : Q) : list Q :=
  let axis := dict_get (time_axis audio) [] in
  slice (dict_get (rms_energy audio) []) (searchsorted axis s)
        (searchsorted axis e).

Definition np_mean_in_range (audio : audio_features) (s e : Q) : npfloat :=
  np_mean (samples_in_range audio s e).

(** What the audio block adds to the score: NaN when the mean is NaN. *)
Definition audio_block_term (audio : audio_features) (s e : Q) : npfloat :=
  if audio_guards audio s e then
    match np_mean_in_range audio s e with
    | Fin m => Fin (0.2 * Qmin (m * 10) 1)
    | NaN => NaN
    end
  else Fin 0.

(** The aligner of the specification gives a mean unless the series is
    absent or has zero length, the start index is out of range, or the
    sample count in range is zero. *)
Definition audio_available (audio : audio_features) (s e : Q) : bool :=
  let axis := dict_get (time_axis audio) [] in
  let rms := dict_get (rms_energy audio) [] in
  negb (Nat.eqb (List.length axis) 0) && negb (Nat.eqb (List.length rms) 0)
  && (searchsorted axis s <? List.length rms)%nat
  && negb (Nat.eqb (List.length (samples_in_range audio s e)) 0).

Definition mean_rms_in_range (audio : audio_features) (s e : Q) : Q :=
  Qmean (samples_in_range audio s e).

(** [0.2 * min(mean_rms_in_range * 10, 1.0)]; nothing when the aligner
    gives no mean. *)
Definition energy_term (audio : audio_features) (s e : Q) : Q :=
  if audio_available audio s e
  then 0.2 * Qmin (mean_rms_in_range audio s e * 10) 1
  else 0.




(** The characters that the title keeps. *)
Definition title_char (c : ascii) : bool :=
  is_word_char c || is_space c || is_hyphen c.

Definition remove_punctuation (s : string) : string :=
  string_of_list_ascii (filter title_char (list_ascii_of_string s)).


Definition interval (h : highlight) : Q * Q := (start_time h, end_time h).

(** The signals of one segment, read with defaults for absent keys. *)
Definition lowered (segment : segment) : string :=
  lower (dict_get (seg_text segment) ""%string).

Definition engagement_of (segment : segment) : nat :=
  keyword_score engagement_keywords (lowered segment).

Definition emotion_of (segment : segment) : nat :=
  keyword_score emotion_keywords (lowered segment).

Definition question_of (segment : segment) : nat :=
  count_char "?"%char (lowered segment).

Definition exclamation_of (segment : segment) : nat :=
  count_char "!"%char (lowered segment).

Definition words_of (segment : segment) : nat :=
  List.length (split (lowered segment)).

Definition rate_of (segment : segment) : Q :=
  Qnat (words_of segment)
  / py_max (dict_get (seg_end segment) 0 - dict_get (seg_start segment) 0) 1.

(** The keys that the detector reads with [segment[...]] are there. *)
Definition has_keys (segment : segment) : bool :=
  is_some (seg_text segment) && is_some (seg_start segment)
  && is_some (seg_end segment).

(** The segment has its time stamps and does not lie inside the window
    from [window_start] to [window_end]. *)
Definition outside_window (window_start window_end : Q) (segment : segment) : Prop :=
  exists s e,
    seg_start segment = Some s /\ seg_end segment = Some e
    /\ ~ (window_start <= s /\ e <= window_end).

(** ** Further properties of the detector, in words *)

(** [a <= b] on two doubles that are not NaN. *)
Definition fle (a b : npfloat) : Prop :=
  match a, b with
  | Fin x, Fin y => x <= y
  | _, _ => False
  end.

(** No score is NaN. *)
Definition finite_scores (scored_segments : list scored_segment) : Prop :=
  Forall (fun sc => is_nan (sc_score sc) = false) scored_segments.

(** The range from [s] to [e] overlaps the highlight (the test of the
    selector). *)
Definition overlapping (s e : Q) (h : highlight) : Prop :=
  s < end_time h /\ start_time h < e.

(** The highlight was made from the scored segment. *)
Definition made_from (min_duration max_duration : Z) (segment : scored_segment)
           (h : highlight) : Prop :=
  interval h = repair_duration (sc_start_time segment) (sc_end_time segment)
                               min_duration max_duration
  /\ text h = sc_text segment
  /\ score h = sc_score segment.

(** The order of the selector's output: a segment comes before the ones
    that do not score higher. *)
Definition score_not_below (a b : scored_segment) : Prop :=
  fle (sc_score b) (sc_score a).

Definition scores_descend (a b : highlight) : Prop := fle (score b) (score a).

(** Three scored segments; with at most 3 clips of 20 to 40 seconds the
    selector keeps the first and the third of the ranking. *)
Definition ranked_second : scored_segment :=
  {| sc_start_time := 30; sc_end_time := 50; sc_text := "second";
     sc_score := Fin 0.8; sc_confidence := 0 |}.

Definition ranked_first : scored_segment :=
  {| sc_start_time := 10; sc_end_time := 40; sc_text := "first";
     sc_score := Fin 0.9; sc_confidence := 0 |}.

Definition ranked_third : scored_segment :=
  {| sc_start_time := 100; sc_end_time := 125; sc_text := "third";
     sc_score := Fin 0.1; sc_confidence := 0 |}.

Definition ranked_scored : list scored_segment :=
  [ranked_second; ranked_first; ranked_third].

Definition ranked_highlights : list highlight :=
  [ {| start_time := 10; end_time := 40; text := "first"; score := Fin 0.9;
       title := "First" |};
    {| start_time := 100; end_time := 125; text := "third"; score := Fin 0.1;
       title := "Third" |} ].

(** In the model, which adds exactly, a later fallback window starts 10
    seconds or more after the end of an earlier one. *)
Definition gap_between (a b : highlight) : Prop :=
  end_time a + 10 <= start_time b.

(** The title of the fallback window number [k]. *)
Definition fallback_title (k : nat) : string :=
  ("Highlight " ++ str_of_nat k)%string.

(** A scored segment carries the data of its transcript segment. *)
Definition scored_from (segment : segment) (sc : scored_segment) : Prop :=
  seg_start segment = Some (sc_start_time sc)
  /\ seg_end segment = Some (sc_end_time sc)
  /\ seg_text segment = Some (sc_text sc)
  /\ sc_confidence sc = dict_get (seg_confidence segment) 0.

(** The dict that [_extract_features_sync] returns when librosa fails. *)
Definition duration_only_audio : audio_features :=
  {| rms_energy := None; time_axis := None; audio_duration := Some 0 |}.

(** The key whose absence stops [_extract_text_features]: in the first
    segment that lacks one of them, the first of "text", "end" and "start". *)
Fixpoint first_missing_key (transcription : list segment) : option string :=
  match transcription with
  | [] => None
  | segment :: rest =>
      match seg_text segment, seg_end segment, seg_start segment with
      | None, _, _ => Some "text"%string
      | Some _, None, _ => Some "end"%string
      | Some _, Some _, None => Some "start"%string
      | Some _, Some _, Some _ => first_missing_key rest
      end
  end.

(** One entry per segment in each of the six lists. *)
Definition features_of (transcription : list segment) : text_features :=
  {| engagement_scores := map engagement_of transcription;
     emotion_scores := map emotion_of transcription;
     question_scores := map question_of transcription;
     exclamation_scores := map exclamation_of transcription;
     word_counts := map words_of transcription;
     speaking_rates := map rate_of transcription |}.

(** ** services/transcription_service.py *)

(** A segment of the Whisper result, a dict with the keys "start", "end",
    "text" and "avg_logprob". *)
Record whisper_segment : Type := {
  w_text : option string;
  w_start : option Q;
  w_end : option Q;
  w_avg_logprob : option Q
}.

(** [str(e)] *)
Definition str_of_exn (e : exn) : string :=
  match e with
  | KeyError key => ("'" ++ key ++ "'")%string
  | IndexError => "list index out of range"%string
  | ZeroDivisionError => "float division by zero"%string
  | TypeError msg => msg
  | ServiceError msg => msg
  end.

(** The loop of [transcribe] over [result["segments"]]. *)
Fixpoint transcribe_loop (raw_segments : list whisper_segment)
                         (segments : list segment) : result (list segment) :=
  match raw_segments with
  | [] => Ok segments
  | segment :: rest =>
      seg_s <- getitem "start" (w_start segment) ;;
      seg_e <- getitem "end" (w_end segment) ;;
      raw <- getitem "text" (w_text segment) ;;
      transcribe_loop rest
        (segments ++
           [{| seg_text := Some (strip raw); seg_start := Some seg_s;
               seg_end := Some seg_e;
               seg_confidence := Some (dict_get (w_avg_logprob segment) 0) |}])
  end.

(** [transcribe]; [whisper] is the outcome of the file test and of the
    Whisper model, the list [result["segments"]] or an exception. *)
Definition transcribe (whisper : result (list whisper_segment))
  : result (list segment) :=
  try_except
    (raw_segments <- whisper ;; transcribe_loop raw_segments [])
    (fun e => Raise (ServiceError
                       ("Failed to transcribe video: " ++ str_of_exn e)%string)).



(** [[segment["text"] for segment in segments]] *)
Fixpoint texts_of (segments : list segment) : result (list string) :=
  match segments with
  | [] => Ok []
  | segment :: rest =>
      raw <- getitem "text" (seg_text segment) ;;
      texts <- texts_of rest ;;
      Ok (raw :: texts)
  end.

Definition get_transcript_text (segments : list segment) : result string :=
  texts <- texts_of segments ;; Ok (join " " texts).

(** The inner loop of [find_segments_by_keywords], which stops at the
    first keyword found. *)
Fixpoint keyword_found (keywords : list string) (text_lower : string) : bool :=
  match keywords with
  | [] => false
  | keyword :: rest =>
      if contains (lower keyword) text_lower then true
      else keyword_found rest text_lower
  end.

Fixpoint find_loop (segments : list segment) (keywords : list string)
                   (matching_segments : list segment) : result (list segment) :=
  match segments with
  | [] => Ok matching_segments
  | segment :: rest =>
      raw <- getitem "text" (seg_text segment) ;;
      if keyword_found keywords (lower raw)
      then find_loop rest keywords (matching_segments ++ [segment])
      else find_loop rest keywords matching_segments
  end.

Definition find_segments_by_keywords (segments : list segment)
                                     (keywords : list string)
  : result (list segment) :=
  find_loop segments keywords [].

(** The segment mentions one of the keywords, whatever the case. *)
Definition mentions (keywords : list string) (segment : segment) : bool :=
  existsb (fun keyword => contains (lower keyword) (lowered segment)) keywords.




(** ** services/subtitle_generator.py *)

(** The loop of [_split_text_into_chunks] over the words. *)
Fixpoint chunk_loop (words : list string) (max_chars : Z) (chunks : list string)
                    (current_chunk : string) : list string :=
  match words with
  | [] => if truthy current_chunk then chunks ++ [current_chunk] else chunks
  | word :: rest =>
      if (Z.of_nat (String.length (current_chunk ++ " " ++ word)) <=? max_chars)%Z
      then chunk_loop rest max_chars chunks
             (if truthy current_chunk then (current_chunk ++ " " ++ word)%string
              else word)
      else chunk_loop rest max_chars
             (if truthy current_chunk then chunks ++ [current_chunk] else chunks)
             word
  end.

Definition _split_text_into_chunks (text : string) (max_chars : Z) : list string :=
  chunk_loop (split text) max_chars [] "".

(** A word: what [split] leaves unchanged. *)
Definition is_word (w : string) : Prop := split w = [w].

(** The chunk is short enough, or it is one word of the text. *)
Definition chunk_fits (text : string) (max_chars : Z) (chunk : string) : Prop :=
  (Z.of_nat (String.length chunk) <= max_chars)%Z \/ In chunk (split text).

(** The loop of [_add_subtitles_sync] over the chunks: for each [TextClip]
    its text, its start and its duration.  The products and the difference
    are exact here and rounded in the code. *)
Fixpoint subtitle_loop (text_chunks : list string) (i : nat)
                       (chunk_duration duration : Q)
                       (subtitle_clips : list (string * Q * Q))
  : list (string * Q * Q) :=
  match text_chunks with
  | [] => subtitle_clips
  | chunk :: rest =>
      if negb (truthy (strip chunk)) then
        subtitle_loop rest (S i) chunk_duration duration subtitle_clips
      else
        let chunk_start := Qnat i * chunk_duration in
        let chunk_end := py_min (Qnat (i + 1) * chunk_duration) duration in
        subtitle_loop rest (S i) chunk_duration duration
          (subtitle_clips ++ [(strip chunk, chunk_start, chunk_end - chunk_start)])
  end.

(** The subtitle clips that [_add_subtitles_sync] composes over a video of
    the given duration. *)
Definition subtitle_clips_of (transcription_segment : string) (duration : Q)
  : result (list (string * Q * Q)) :=
  let text_chunks := _split_text_into_chunks transcription_segment 40 in
  chunk_duration <- match text_chunks with
                    | [] => Ok duration
                    | _ :: _ => py_div duration (Qlen text_chunks)
                    end ;;
  Ok (subtitle_loop text_chunks O chunk_duration duration []).

(** [_seconds_to_srt_time] *)

(** [a // b] and [a % b] on floats, for a positive [b] and an [a] that is
    not negative: there the float remainder is exact.  (For a negative [a]
    Python adds [b] to the remainder and rounds the sum, which can give [b]
    itself.) *)
Definition py_floordiv (a b : Q) : Q := inject_Z (Qfloor (a / b)).

Definition py_mod (a b : Q) : Q := a - b * inject_Z (Qfloor (a / b)).

(** [int(q)]: the fraction is dropped. *)
Definition py_int (q : Q) : Z := Z.quot (Qnum q) (Zpos (Qden q)).

(** The arguments given to [pysrt.SubRipTime]. *)
Definition _seconds_to_srt_time (seconds : Q) : Z * Z * Z * Z :=
  let hours := py_int (py_floordiv seconds 3600) in
  let minutes := py_int (py_floordiv (py_mod seconds 3600) 60) in
  let secs := py_int (py_mod seconds 60) in
  let milliseconds := py_int (py_mod seconds 1 * 1000) in
  (hours, minutes, secs, milliseconds).

(** ** services/clip_generator.py *)

(** The call [clip.crop(x1=.., x2=..)] or [clip.crop(y1=.., y2=..)]. *)
Inductive crop : Type :=
| crop_width (x1 x2 : Z)
| crop_height (y1 y2 : Z).

Definition _center_crop_to_vertical (width height : Z) : result crop :=
  let target_aspect := 9 / 16 in
  current_aspect <- py_div (inject_Z width) (inject_Z height) ;;
  if Qltb target_aspect current_aspect then
    let target_width := py_int (inject_Z height * target_aspect) in
    let crop_x := ((width - target_width) / 2)%Z in
    Ok (crop_width crop_x (crop_x + target_width))
  else
    let target_height := py_int (inject_Z width / target_aspect) in
    let crop_y := ((height - target_height) / 2)%Z in
    Ok (crop_height crop_y (crop_y + target_height)).

(** A face: the centre (x, y) and the time of the frame. *)
Definition face_position : Type := (Z * Z * Q)%type.

Definition face_x (p : face_position) : Z := fst (fst p).

(** [sum(pos[0] for pos in face_positions)] *)
Definition sum_face_x (face_positions : list face_position) : Z :=
  fold_left (fun total p => (total + face_x p)%Z) face_positions 0%Z.

Definition _calculate_crop_position (face_positions : list face_position)
                                    (video_width target_width : Z) : result Z :=
  match face_positions with
  | [] => Ok ((video_width - target_width) / 2)%Z
  | _ :: _ =>
      avg_x <- py_div (inject_Z (sum_face_x face_positions)) (Qlen face_positions) ;;
      let crop_x := py_int (avg_x - inject_Z (target_width / 2)) in
      Ok (Z.max 0 (Z.min crop_x (video_width - target_width)))
  end.

(** [_auto_frame_to_vertical] on a clip of the given size;
    [face_positions] is what [_detect_faces_in_clip] returns. *)
Definition _auto_frame_to_vertical (width height : Z)
                                   (face_positions : list face_position)
  : result crop :=
  try_except
    (let target_width := py_int (inject_Z height * 9 / 16) in
     if (width <=? target_width)%Z then _center_crop_to_vertical width height
     else
       crop_x <- match face_positions with
                 | _ :: _ =>
                     _calculate_crop_position face_positions width target_width
                 | [] => Ok ((width - target_width) / 2)%Z
                 end ;;
       Ok (crop_width crop_x (crop_x + target_width)))
    (fun _ => _center_crop_to_vertical width height).

(** The crop lies inside a frame of the given size. *)
Definition crop_inside (width height : Z) (c : crop) : Prop :=
  match c with
  | crop_width x1 x2 => (0 <= x1 /\ x1 <= x2 /\ x2 <= width)%Z
  | crop_height y1 y2 => (0 <= y1 /\ y1 <= y2 /\ y2 <= height)%Z
  end.

(** The crop is the 9:16 cut of the frame, centred up to one pixel. *)
Definition centred_vertical (width height : Z) (c : crop) : Prop :=
  match c with
  | crop_width x1 x2 =>
      (9 * height < 16 * width /\ x2 - x1 = 9 * height / 16
       /\ 0 <= (width - x2) - x1 <= 1)%Z
  | crop_height y1 y2 =>
      (16 * width <= 9 * height /\ y2 - y1 = 16 * width / 9
       /\ 0 <= (height - y2) - y1 <= 1)%Z
  end.

(** The time adjustment of [create_clip]: the range handed to
    [_create_clip_sync].  [target_duration] comes from a field of the
    request that may be [None], and [duration > None] raises TypeError.
    The difference and the sum are exact here and rounded in the code. *)
Definition clip_range (start_time end_time : Q) (target_duration : option Z)
  : result (Q * Q) :=
  let duration := end_time - start_time in
  match target_duration with
  | None =>
      Raise (TypeError
               "'>' not supported between instances of 'float' and 'NoneType'")
  | Some target_duration =>
      if Qltb (inject_Z target_duration) duration
      then Ok (start_time, start_time + inject_Z target_duration)
      else Ok (start_time, end_time)
  end.

Definition two_faces : list face_position :=
  [(1500%Z, 400%Z, 1); (1700%Z, 420%Z, 2)].

(** ** services/clip_generator.py: create_clip *)

(** [_create_clip_sync]; [moviepy] is the outcome of cutting, framing and
    writing the clip.  The handler logs and raises the exception again. *)
Definition _create_clip_sync (moviepy : result unit) (output_path : string)
  : result string :=
  try_except (_ <- moviepy ;; Ok output_path) (fun e => Raise e).

(** [create_clip]; [moviepy] gives the outcome of the rendering for a time
    range. *)
Definition create_clip (moviepy : Q -> Q -> result unit)
                       (start_time end_time : Q) (output_path : string)
                       (target_duration : option Z) : result string :=
  try_except
    (range <- clip_range start_time end_time target_duration ;;
     _create_clip_sync (moviepy (fst range) (snd range)) output_path)
    (fun e => Raise (ServiceError
                       ("Failed to create clip: " ++ str_of_exn e)%string)).

(** ** services/subtitle_generator.py: add_subtitles *)

(** [_add_subtitles_sync] returns [video_path] at the end of its [try] and
    in its handler; [moviepy] is the outcome of the body. *)
Definition _add_subtitles_sync (moviepy : result unit) (video_path : string)
  : string :=
  match moviepy with
  | Ok _ => video_path
  | Raise _ => video_path
  end.

Definition add_subtitles (moviepy : result unit) (video_path : string) : string :=
  _add_subtitles_sync moviepy video_path.

(** ** services/youtube_downloader.py: download *)

(** [download]; [ydl] is the outcome of [_download_sync]. *)
Definition download (ydl : result string) : result string :=
  try_except ydl
    (fun e => Raise (ServiceError
                       ("Failed to download video: " ++ str_of_exn e)%string)).

(** ** main.py *)

(** The request; the fields declared [Optional] may be [None] (a null in
    the JSON body). *)
Record VideoRequest : Type := {
  youtube_url : string;
  request_max_clips : option Z;
  clip_duration : option Z;
  include_subtitles : option bool;
  auto_frame : option bool
}.

(** Truth value of an optional flag: [None] and [False] are false. *)
Definition flag (b : option bool) : bool :=
  match b with
  | Some true => true
  | _ => false
  end.

(** One entry of a job's "clips". *)
Record clip_info : Type := {
  clip_index : nat;
  clip_title : string;
  clip_seconds : Q;
  clip_file_path : string;
  clip_thumbnail : string;
  clip_text : string
}.

(** The dict [jobs[job_id]]. *)
Record job : Type := {
  job_status : string;
  job_progress : Z;
  job_message : string;
  job_clips : list clip_info
}.

(** What [generate_shorts] stores for a new job. *)
Definition started_job : job :=
  {| job_status := "started"; job_progress := 0;
     job_message := "Initializing..."; job_clips := [] |}.

(** The outcomes of the calls that leave the program, each as a function of
    the arguments it is called with. *)
Record services : Type := {
  ydl_outcome : string -> result string;
  whisper_outcome : string -> result (list whisper_segment);
  audio_outcome : string -> result audio_features;
  clip_outcome : string -> string -> option bool -> Q -> Q -> result unit;
  subtitle_outcome : string -> string -> result unit;
  remove_outcome : string -> result unit
}.

(** The background task runs on the job's dict: a step gets the dict and
    gives the dicts it stored, in order, and its result. *)
Definition task (A : Type) : Type := job -> list job * result A.

(** The dict after the updates of [log]. *)
Definition current (j : job) (log : list job) : job := last log j.

Definition lift {A : Type} (r : result A) : task A := fun _ => ([], r).

(** [jobs[job_id].update(...)] *)
Definition update (f : job -> job) : task unit := fun j => ([f j], Ok tt).

Definition and_then {A B : Type} (m : task A) (k : A -> task B) : task B :=
  fun j =>
    let '(log, r) := m j in
    match r with
    | Ok a => let '(log', r') := k a (current j log) in ((log ++ log')%list, r')
    | Raise e => (log, Raise e)
    end.

Notation "x <-- c ;;; k" := (and_then c (fun x => k))
  (at level 61, c at next level, right associativity).

Definition set_stage (status : string) (progress : Z) (message : string)
  : job -> job :=
  fun j => {| job_status := status; job_progress := progress;
              job_message := message; job_clips := job_clips j |}.

Definition set_progress (progress : Z) (message : string) : job -> job :=
  fun j => {| job_status := job_status j; job_progress := progress;
              job_message := message; job_clips := job_clips j |}.

Definition set_completed (message : string) (clips : list clip_info)
  : job -> job :=
  fun _ => {| job_status := "completed"; job_progress := 100;
              job_message := message; job_clips := clips |}.

(** [f"outputs/{job_id}_clip_{i}.mp4"] *)
Definition clip_output_path (job_id : string) (i : nat) : string :=
  ("outputs/" ++ job_id ++ "_clip_" ++ str_of_nat i ++ ".mp4")%string.

(** [f"outputs/{job_id}_clip_{i}_thumb.jpg"] *)
Definition clip_thumbnail_path (job_id : string) (i : nat) : string :=
  ("outputs/" ++ job_id ++ "_clip_" ++ str_of_nat i ++ "_thumb.jpg")%string.

(** [text[:100] + "..." if len(text) > 100 else text] *)
Definition clip_text_of (raw : string) : string :=
  if (100 <? String.length raw)%nat
  then (substring 0 100 raw ++ "...")%string
  else raw.

(** The loop over [enumerate(highlights)]; [total] is [len(highlights)] of
    the whole list. *)
Fixpoint clips_loop (w : services) (job_id : string) (request : VideoRequest)
                    (video_path : string) (total : nat)
                    (highlights : list highlight) (i : nat)
                    (clips : list clip_info) : task (list clip_info) :=
  match highlights with
  | [] => lift (Ok clips)
  | highlight :: rest =>
      clip_path <-- lift (create_clip
                            (clip_outcome w video_path (clip_output_path job_id i)
                                          (auto_frame request))
                            (start_time highlight) (end_time highlight)
                            (clip_output_path job_id i)
                            (clip_duration request)) ;;;
      let clip_path :=
        if flag (include_subtitles request)
        then add_subtitles (subtitle_outcome w clip_path (text highlight))
                           clip_path
        else clip_path in
      let clips :=
        (clips ++
           [{| clip_index := i;
               clip_title := title highlight;
               clip_seconds := end_time highlight - start_time highlight;
               clip_file_path := clip_path;
               clip_thumbnail := clip_thumbnail_path job_id i;
               clip_text := clip_text_of (text highlight) |}])%list in
      share <-- lift (py_div (30 * Qnat (i + 1)) (Qnat total)) ;;;
      let progress := 60 + share in
      _ <-- update (set_progress
                      (py_int progress)
                      ("Generated clip " ++ str_of_nat (i + 1) ++ "/"
                         ++ str_of_nat total)%string) ;;;
      clips_loop w job_id request video_path total rest (S i) clips
  end.

Section Pipeline.

Variable np_sqrt : Q -> Q.

(** [detect_highlights] with the [max_clips] of the request.  With [None]
    the selector raises TypeError at [len(highlights) >= max_clips] as
    soon as there is a scored segment, and the fallback, called by the
    handler, raises it at [total_duration / max_clips] unless the
    transcript is empty. *)
Definition detect_highlights_for (service : result audio_features)
                                 (transcription : list segment)
                                 (max_clips : option Z)
                                 (min_duration max_duration : Z)
  : result (list highlight) :=
  match max_clips with
  | Some max_clips =>
      detect_highlights np_sqrt service transcription max_clips min_duration
                        max_duration
  | None =>
      try_except
        (features <- _extract_text_features transcription ;;
         audio <- _extract_audio_features service ;;
         scored_segments <- _score_segments np_sqrt transcription features audio ;;
         match sorted_by_score scored_segments with
         | [] => Ok []
         | _ :: _ =>
             Raise (TypeError
                      "'>=' not supported between instances of 'int' and 'NoneType'")
         end)
        (fun _ =>
           match transcription with
           | [] => Ok []
           | _ :: _ =>
               transcript_end <- last_end transcription ;;
               transcript_start <- first_start transcription ;;
               Raise (TypeError
                        "unsupported operand type(s) for /: 'float' and 'NoneType'")
           end)
  end.

(** The body of the [try] of [process_video]. *)
Definition process_video_body (w : services) (job_id : string)
                              (request : VideoRequest) : task unit :=
  _ <-- update (set_stage "downloading" 10
                          "Downloading video from YouTube...") ;;;
  video_path <-- lift (download (ydl_outcome w (youtube_url request))) ;;;
  _ <-- update (set_stage "transcribing" 25 "Transcribing audio...") ;;;
  transcription <-- lift (transcribe (whisper_outcome w video_path)) ;;;
  _ <-- update (set_stage "analyzing" 40 "Detecting engaging segments...") ;;;
  highlights <-- lift (detect_highlights_for (audio_outcome w video_path)
                                             transcription
                                             (request_max_clips request) 30 60) ;;;
  _ <-- update (set_stage "generating" 60 "Generating short clips...") ;;;
  clips <-- clips_loop w job_id request video_path (List.length highlights)
                       highlights 0 [] ;;;
  _ <-- update (set_completed
                  ("Successfully generated "
                     ++ str_of_nat (List.length clips) ++ " shorts!")%string
                  clips) ;;;
  lift (remove_outcome w video_path).

(** [process_video]: the dicts stored for the job, in order. *)
Definition process_video (w : services) (job_id : string)
                         (request : VideoRequest) (j : job) : list job :=
  let '(log, r) := process_video_body w job_id request j in
  match r with
  | Ok _ => log
  | Raise e =>
      (log ++ [set_stage "error" 0 ("Error: " ++ str_of_exn e)%string
                         (current j log)])%list
  end.

End Pipeline.

(** [download_clip]: the response is the 404 error with its detail or the
    file with the name it is served under. *)
Inductive response : Type :=
| NotFound (detail : string)
| FileResponse (path filename : string).

(** [str(n)] for an integer. *)
Definition str_of_int (n : Z) : string :=
  match n with
  | Zneg p => ("-" ++ str_of_nat (Pos.to_nat p))%string
  | _ => str_of_nat (Z.to_nat n)
  end.

(** [xs[i]] for an integer [i]: a negative index counts from the end. *)
Definition list_index {A : Type} (xs : list A) (i : Z) : result A :=
  let n := Z.of_nat (List.length xs) in
  let k := if (i <? 0)%Z then (i + n)%Z else i in
  if (k <? 0)%Z then Raise IndexError
  else match nth_error xs (Z.to_nat k) with
       | Some a => Ok a
       | None => Raise IndexError
       end.

(** [download_clip]; [jobs] is the job store, [exists] is
    [os.path.exists]. *)
Definition download_clip (jobs : string -> option job) (exists_ : string -> bool)
                         (job_id : string) (clip_index : Z) : result response :=
  match jobs job_id with
  | None => Ok (NotFound "Job not found")
  | Some j =>
      if (Z.of_nat (List.length (job_clips j)) <=? clip_index)%Z
      then Ok (NotFound "Clip not found")
      else
        clip <- list_index (job_clips j) clip_index ;;
        let clip_path := clip_file_path clip in
        if negb (exists_ clip_path) then Ok (NotFound "Clip file not found")
        else Ok (FileResponse clip_path
                   ("short_" ++ job_id ++ "_" ++ str_of_int clip_index
                      ++ ".mp4")%string)
  end.

(** The entry that [process_video] lists for highlight number [i] when the
    clip is written to its output path. *)
Definition clip_entry (job_id : string) (i : nat) (h : highlight) : clip_info :=
  {| clip_index := i;
     clip_title := title h;
     clip_seconds := end_time h - start_time h;
     clip_file_path := clip_output_path job_id i;
     clip_thumbnail := clip_thumbnail_path job_id i;
     clip_text := clip_text_of (text h) |}.

Fixpoint clip_entries (job_id : string) (i : nat) (highlights : list highlight)
  : list clip_info :=
  match highlights with
  | [] => []
  | h :: rest => clip_entry job_id i h :: clip_entries job_id (S i) rest
  end.

(** The clip of highlight number [i] was rendered: from the start of the
    highlight to its end, or to an end before it when the highlight is
    longer than the clip duration of the request. *)
Definition rendered (w : services) (request : VideoRequest)
                    (job_id video_path : string) (i : nat) (h : highlight) : Prop :=
  exists target_duration rendered_end,
    clip_duration request = Some target_duration
    /\ clip_outcome w video_path (clip_output_path job_id i) (auto_frame request)
                    (start_time h) rendered_end
       = Ok tt
    /\ rendered_end <= end_time h
    /\ (end_time h - start_time h <= inject_Z target_duration ->
        rendered_end = end_time h)
    /\ (inject_Z target_duration < end_time h - start_time h ->
        about (rendered_end - start_time h) (inject_Z target_duration)).

(** What the entry [c] says about highlight number [i]. *)
Definition reports (job_id : string) (i : nat) (h : highlight) (c : clip_info)
  : Prop :=
  clip_index c = i
  /\ clip_title c = title h
  /\ about (clip_seconds c) (end_time h - start_time h)
  /\ clip_file_path c = clip_output_path job_id i
  /\ clip_thumbnail c = clip_thumbnail_path job_id i
  /\ (String.length (clip_text c) <= 103)%nat
  /\ substring 0 100 (clip_text c) = substring 0 100 (text h)
  /\ ((String.length (text h) <= 100)%nat -> clip_text c = text h).

(** The clips list one entry for each highlight, in order. *)
Definition listed (job_id : string) (highlights : list highlight)
                  (clips : list clip_info) : Prop :=
  List.length clips = List.length highlights
  /\ forall i h, nth_error highlights i = Some h ->
                 exists c, nth_error clips i = Some c /\ reports job_id i h c.

(** The stages before the clips returned and the job lists the clips of the
    detected highlights. *)
Definition delivered (np_sqrt : Q -> Q) (w : services) (job_id : string)
                     (request : VideoRequest) (final : job) : Prop :=
  exists video_path transcription highlights,
    download (ydl_outcome w (youtube_url request)) = Ok video_path
    /\ transcribe (whisper_outcome w video_path) = Ok transcription
    /\ detect_highlights_for np_sqrt (audio_outcome w video_path) transcription
                             (request_max_clips request) 30 60 = Ok highlights
    /\ (forall i h, nth_error highlights i = Some h ->
                    rendered w request job_id video_path i h)
    /\ listed job_id highlights (job_clips final).

(** The job failed with a message made of [stage] and the text of some
    exception, and lists the clips of [j]. *)
Definition failed_at (stage : string) (j final : job) : Prop :=
  job_clips final = job_clips j
  /\ exists cause,
       job_message final = ("Error: " ++ stage ++ str_of_exn cause)%string.

(** The progress values rise from [lo] and end below [hi]. *)
Fixpoint climbs (lo : Z) (ps : list Z) (hi : Z) : Prop :=
  match ps with
  | [] => (lo <= hi)%Z
  | p :: rest => (lo <= p)%Z /\ climbs p rest hi
  end.

(** A run of the task: the download, the transcription of one segment of
    100 seconds and the rendering succeed, the audio service fails. *)
Definition sample_services : services :=
  {| ydl_outcome := fun _ => Ok "downloads/talk.mp4"%string;
     whisper_outcome := fun _ =>
       Ok [{| w_text := Some " This is the most important tip. "%string;
              w_start := Some 0; w_end := Some 100;
              w_avg_logprob := None |}];
     audio_outcome := fun _ => Raise (ServiceError "no audio"%string);
     clip_outcome := fun _ _ _ _ _ => Ok tt;
     subtitle_outcome := fun _ _ => Raise (ServiceError "no font"%string);
     remove_outcome := fun _ => Ok tt |}.

Definition sample_request : VideoRequest :=
  {| youtube_url := "https://youtu.be/talk"%string;
     request_max_clips := Some 3%Z;
     clip_duration := Some 45%Z;
     include_subtitles := Some true;
     auto_frame := Some true |}.

(** A finished job with two clips, for [download_clip]. *)
Definition two_clip_job : job :=
  {| job_status := "completed"; job_progress := 100;
     job_message := "Successfully generated 2 shorts!";
     job_clips :=
       [{| clip_index := 0; clip_title := "First"; clip_seconds := 30;
           clip_file_path := "outputs/job_clip_0.mp4";
           clip_thumbnail := "outputs/job_clip_0_thumb.jpg";
           clip_text := "first" |};
        {| clip_index := 1; clip_title := "Second"; clip_seconds := 45;
           clip_file_path := "outputs/job_clip_1.mp4";
           clip_thumbnail := "outputs/job_clip_1_thumb.jpg";
           clip_text := "second" |}] |}%string.

(** ** Evaluation on examples *)

Example lower_example : lower "This is AMAZING!" = "this is amazing!"%string.
Proof. reflexivity. Qed.

Example split_example :
  split "  this is   AMAZING!!! you " = ["this"; "is"; "AMAZING!!!"; "you"]%string.
Proof. reflexivity. Qed.

Example strip_example : strip "  a b  " = "a b"%string.
Proof. reflexivity. Qed.

Example title_example :
  title_case "game-changer 3rd WAY" = "Game-Changer 3Rd Way"%string.
Proof. reflexivity. Qed.

Example str_of_nat_example : str_of_nat 12 = "12"%string.
Proof. reflexivity. Qed.

Example generate_title_example :
  _generate_title "this is AMAZING!!! you won't believe it"
  = "This Is Amazing You Wont Believe"%string.
Proof. reflexivity. Qed.

(** "always" holds both "always" and "way". *)
Example keyword_score_example :
  keyword_score engagement_keywords "this always works" = 2%nat.
Proof. reflexivity. Qed.

Example keyword_lists_sizes :
  List.length engagement_keywords = 47%nat /\ List.length emotion_keywords = 12%nat.
Proof. split; reflexivity. Qed.

(** The segment [5, 15] with a minimum of 30: extended to [-5, 25], start
    clamped to 0. *)
Example repair_duration_example :
  let '(s, e) := repair_duration 5 15 30 60 in s == 0 /\ e == 25.
Proof. split; reflexivity. Qed.

(** Candidates [10, 40] (score 0.9) and [30, 50] (score 0.8), two clips
    requested: the second overlaps the first and is rejected. *)
Example overlap_rejection_example :
  map interval
      (_select_highlights
         [ {| sc_start_time := 30; sc_end_time := 50; sc_text := "second";
              sc_score := Fin 0.8; sc_confidence := 0 |};
           {| sc_start_time := 10; sc_end_time := 40; sc_text := "first";
              sc_score := Fin 0.9; sc_confidence := 0 |} ]
         2 20 40)
  = [(10, 40)].
Proof. reflexivity. Qed.

(** Ten segments of ten seconds from 0 to 100, three clips of 20 to 40
    seconds: three windows, ten seconds apart. *)
Example fallback_example :
  match _fallback_highlights
          (map (fun k => seg "words" (inject_Z (10 * k)) (inject_Z (10 * k + 10)))
               [0; 1; 2; 3; 4; 5; 6; 7; 8; 9]%Z)
          3 20 40 with
  | Ok hs => map title hs = ["Highlight 1"; "Highlight 2"; "Highlight 3"]%string
             /\ forallb (fun h => Qle_bool (duration h) 40) hs = true
  | Raise _ => False
  end.
Proof. vm_compute. split; reflexivity. Qed.

(** ** Numbers: comparison, [max] and [min] *)

Lemma Qltb_true (a b : Q) : Qltb a b = true <-> a < b.
Proof.
  unfold Qltb. rewrite negb_true_iff.
  split; intro H.
  - apply Qnot_le_lt. intro L. apply Qle_bool_iff in L. congruence.
  - destruct (Qle_bool b a) eqn:E; [|reflexivity].
    apply Qle_bool_iff in E. exfalso. apply (Qlt_not_le _ _ H E).
Qed.

Lemma Qltb_false (a b : Q) : Qltb a b = false <-> b <= a.
Proof.
  unfold Qltb. rewrite negb_false_iff. apply Qle_bool_iff.
Qed.

Lemma Qle_bool_false (a b : Q) : Qle_bool a b = false <-> b < a.
Proof.
  rewrite <- Qltb_true. unfold Qltb.
  destruct (Qle_bool a b); simpl; split; congruence.
Qed.

Lemma py_max_cases (a b : Q) :
  (a < b /\ py_max a b = b) \/ (b <= a /\ py_max a b = a).
Proof.
  unfold py_max. destruct (Qltb a b) eqn:E.
  - left. split; [now apply Qltb_true | reflexivity].
  - right. split; [now apply Qltb_false | reflexivity].
Qed.

Lemma py_min_cases (a b : Q) :
  (b < a /\ py_min a b = b) \/ (a <= b /\ py_min a b = a).
Proof.
  unfold py_min. destruct (Qltb b a) eqn:E.
  - left. split; [now apply Qltb_true | reflexivity].
  - right. split; [now apply Qltb_false | reflexivity].
Qed.

Lemma py_max_Qmax (a b : Q) : py_max a b == Qmax a b.
Proof.
  destruct (py_max_cases a b) as [[L ->] | [L ->]].
  - symmetry. apply Q.max_r. lra.
  - symmetry. apply Q.max_l. exact L.
Qed.

Lemma py_min_Qmin (a b : Q) : py_min a b == Qmin a b.
Proof.
  destruct (py_min_cases a b) as [[L ->] | [L ->]].
  - symmetry. apply Q.min_r. lra.
  - symmetry. apply Q.min_l. exact L.
Qed.

Lemma py_min_le_l (a b : Q) : py_min a b <= a.
Proof.
  destruct (py_min_cases a b) as [[L ->] | [L ->]]; lra.
Qed.

Lemma py_min_le_r (a b : Q) : py_min a b <= b.
Proof.
  destruct (py_min_cases a b) as [[L ->] | [L ->]]; lra.
Qed.

(** The divisor [max(x, 1)] is never zero. *)
Lemma py_max_floor (x : Q) : 1 <= py_max x 1.
Proof.
  destruct (py_max_cases x 1) as [[L ->] | [L ->]]; lra.
Qed.

Lemma py_div_floor (a x : Q) : py_div a (py_max x 1) = Ok (a / py_max x 1).
Proof.
  unfold py_div. destruct (Qeq_bool (py_max x 1) 0) eqn:E; [|reflexivity].
  apply Qeq_bool_eq in E. pose proof (py_max_floor x). lra.
Qed.

(** ** Lists: a relation on all ordered pairs *)

Section Pairwise.

Context {A : Type} (R : A -> A -> Prop).

Lemma pairs_snoc (l : list A) (x : A) :
  ForallOrdPairs R l -> Forall (fun y => R y x) l -> ForallOrdPairs R (l ++ [x]).
Proof.
  induction 1 as [| y l Hy Hl IH]; intro Hx; simpl.
  - repeat constructor.
  - inversion Hx; subst. constructor.
    + apply Forall_app. split; [assumption | repeat constructor; assumption].
    + apply IH. assumption.
Qed.

Hypothesis R_sym : forall a b, R a b -> R b a.

Lemma pairs_nth (l : list A) :
  ForallOrdPairs R l ->
  forall i j a b, i <> j -> nth_error l i = Some a -> nth_error l j = Some b -> R a b.
Proof.
  induction 1 as [| x l Hx Hl IH]; intros i j a b Hij Ha Hb.
  - destruct i; discriminate.
  - rewrite Forall_forall in Hx.
    destruct i as [|i], j as [|j]; simpl in Ha, Hb.
    + congruence.
    + inversion Ha; subst. apply Hx. eapply nth_error_In; eassumption.
    + inversion Hb; subst. apply R_sym, Hx. eapply nth_error_In; eassumption.
    + apply (IH i j); congruence.
Qed.

End Pairwise.

Lemma disjoint_sym (a b : highlight) : disjoint a b -> disjoint b a.
Proof. unfold disjoint. tauto. Qed.

Lemma pairwise_no_overlap (hs : list highlight) :
  ForallOrdPairs disjoint hs -> no_overlap hs.
Proof.
  intros H i j a b. apply (pairs_nth disjoint disjoint_sym hs H).
Qed.

(** ** The selector: no overlap, at most [max_clips] *)

Lemma overlaps_used_false (hs : list highlight) (s e : Q) :
  overlaps_used (map interval hs) s e = false ->
  Forall (fun h => end_time h <= s \/ e <= start_time h) hs.
Proof.
  induction hs as [| h hs IH]; simpl; intro H; constructor.
  - destruct (Qltb s (end_time h)) eqn:E1; simpl in H.
    + destruct (Qltb (start_time h) e) eqn:E2; [discriminate|].
      right. now apply Qltb_false.
    + left. now apply Qltb_false.
  - apply IH. destruct (Qltb s (end_time h) && Qltb (start_time h) e);
      [discriminate | assumption].
Qed.

Lemma select_loop_invariant (sorted_segments : list scored_segment)
      (max_clips min_duration max_duration : Z) :
  forall highlights,
    ForallOrdPairs disjoint highlights ->
    (Z.of_nat (List.length highlights) <= Z.max 0 max_clips)%Z ->
    let out := select_loop sorted_segments max_clips min_duration max_duration
                           highlights (map interval highlights) in
    ForallOrdPairs disjoint out
    /\ (Z.of_nat (List.length out) <= Z.max 0 max_clips)%Z.
Proof.
  induction sorted_segments as [| segment rest IH]; intros hs Hd Hn; simpl.
  - split; assumption.
  - destruct (max_clips <=? Z.of_nat (List.length hs))%Z eqn:Efull.
    + split; assumption.
    + apply Z.leb_gt in Efull.
      destruct (repair_duration _ _ _ _) as [s e].
      destruct (overlaps_used (map interval hs) s e) eqn:Eov.
      * apply IH; assumption.
      * apply overlaps_used_false in Eov.
        set (h := {| start_time := s; end_time := e; text := sc_text segment;
                     score := sc_score segment;
                     title := _generate_title (sc_text segment) |}).
        replace (map interval hs ++ [(s, e)])%list with (map interval (hs ++ [h])%list)
          by (rewrite map_app; reflexivity).
        apply IH.
        -- apply pairs_snoc; [assumption|].
           eapply Forall_impl; [|exact Eov].
           intros y Hy. unfold disjoint, h. simpl in *. tauto.
        -- rewrite length_app. simpl. lia.
Qed.

Lemma select_highlights_disjoint (scored_segments : list scored_segment)
      (max_clips min_duration max_duration : Z) :
  let out := _select_highlights scored_segments max_clips min_duration max_duration in
  ForallOrdPairs disjoint out
  /\ (Z.of_nat (List.length out) <= Z.max 0 max_clips)%Z.
Proof.
  unfold _select_highlights.
  apply (select_loop_invariant _ max_clips min_duration max_duration []).
  - constructor.
  - simpl. lia.
Qed.

(** ** The fallback: no overlap, at most [max_clips] *)

Lemma fallback_loop_invariant (transcription : list segment) (d L : Q) :
  last_end transcription = Ok L ->
  forall remaining i c acc out,
    fallback_loop transcription d remaining i c acc = Ok out ->
    ForallOrdPairs disjoint acc ->
    (-10 <= d /\ Forall (fun h => end_time h <= c) acc)
    \/ (d < -10 /\ Forall (fun h => c <= start_time h) acc) ->
    ForallOrdPairs disjoint out
    /\ (List.length out <= List.length acc + remaining)%nat.
Proof.
  intros HL. induction remaining as [| n IH]; intros i c acc out Hrun Hd Hinv.
  - simpl in Hrun. inversion Hrun; subst. split; [assumption | lia].
  - simpl in Hrun. rewrite HL in Hrun. simpl in Hrun.
    destruct (window_text transcription c (py_min (c + d) L) "") as [txt | err];
      [| discriminate].
    simpl in Hrun.
    set (e := py_min (c + d) L) in *.
    set (h := {| start_time := c; end_time := e; text := strip txt;
                 score := Fin 0.5;
                 title := ("Highlight " ++ str_of_nat (i + 1))%string |}) in *.
    set (acc' := if truthy (strip txt) then (acc ++ [h])%list else acc) in *.
    assert (Hlen : (List.length acc' <= List.length acc + 1)%nat).
    { unfold acc'. destruct (truthy (strip txt)); [rewrite length_app; simpl|]; lia. }
    assert (Hd' : ForallOrdPairs disjoint acc').
    { unfold acc'. destruct (truthy (strip txt)); [|assumption].
      apply pairs_snoc; [assumption|].
      destruct Hinv as [[Hge Hall] | [Hlt Hall]];
        (eapply Forall_impl; [|exact Hall]); intros y Hy; unfold disjoint, h; simpl.
      - right. exact Hy.
      - left. pose proof (py_min_le_l (c + d) L) as Hmin. fold e in Hmin.
        simpl in Hy. lra. }
    destruct (Qle_bool L (e + 10)) eqn:Estop.
    + assert (Hout : out = acc') by (inversion Hrun; reflexivity).
      rewrite Hout. split; [assumption | lia].
    + apply Qle_bool_false in Estop.
      enough (Hinv' : (-10 <= d /\ Forall (fun h => end_time h <= e + 10) acc')
                      \/ (d < -10 /\ Forall (fun h => e + 10 <= start_time h) acc')).
      { destruct (IH (S i) (e + 10) acc' out Hrun Hd' Hinv') as [Hout Hn].
        split; [assumption | lia]. }
      assert (He : e == c + d).
      { unfold e. destruct (py_min_cases (c + d) L) as [[Hc Heq] | [Hc Heq]];
          rewrite Heq; [|reflexivity].
        exfalso. unfold e in Estop. rewrite Heq in Estop. lra. }
      destruct Hinv as [[Hge Hall] | [Hlt Hall]]; [left | right];
        (split; [assumption|]); unfold acc';
        destruct (truthy (strip txt));
        try (apply Forall_app; split; [| repeat constructor; simpl; lra]);
        (eapply Forall_impl; [|exact Hall]); intros y Hy; simpl in *; lra.
Qed.

Lemma fallback_highlights_disjoint (transcription : list segment)
      (max_clips min_duration max_duration : Z) (out : list highlight) :
  _fallback_highlights transcription max_clips min_duration max_duration = Ok out ->
  ForallOrdPairs disjoint out
  /\ (Z.of_nat (List.length out) <= Z.max 0 max_clips)%Z.
Proof.
  unfold _fallback_highlights.
  destruct transcription as [| first rest].
  - intro H. inversion H; subst. split; [constructor | simpl; lia].
  - set (tr := first :: rest).
    destruct (last_end tr) as [L |] eqn:HL; [| discriminate]. simpl.
    destruct (first_start tr) as [c |]; [| discriminate]. simpl.
    destruct (py_div (L - c) (inject_Z max_clips)) as [share |]; [| discriminate].
    simpl. intro Hrun.
    set (d := py_min (inject_Z max_duration) (py_max (inject_Z min_duration) share)) in *.
    destruct (fallback_loop_invariant tr d L HL _ _ _ _ _ Hrun) as [Hd Hn].
    + constructor.
    + destruct (Qlt_le_dec d (-10)); [right | left]; split;
        try assumption; constructor.
    + split; [assumption | simpl in Hn; lia].
Qed.

(** ** The detection call takes one of the two paths *)

Lemma detect_highlights_paths (np_sqrt : Q -> Q) (service : result audio_features)
      (transcription : list segment) (max_clips min_duration max_duration : Z)
      (hs : list highlight) :
  detect_highlights np_sqrt service transcription max_clips min_duration max_duration
  = Ok hs ->
  (exists scored_segments,
      hs = _select_highlights scored_segments max_clips min_duration max_duration)
  \/ _fallback_highlights transcription max_clips min_duration max_duration = Ok hs.
Proof.
  unfold detect_highlights, scored_path, try_except.
  destruct (_extract_text_features transcription) as [features |]; simpl;
    [| intro H; right; exact H].
  destruct (_extract_audio_features service) as [audio |]; simpl;
    [| intro H; right; exact H].
  destruct (_score_segments np_sqrt transcription features audio) as [scored |];
    simpl; [| intro H; right; exact H].
  intro H. left. exists scored. congruence.
Qed.

(** C1: whatever a detection call returns, by the scored path or by the
    fallback, no two of its highlights overlap (for two different positions
    the start of one is at or after the end of the other) and, for a
    requested maximum that is not negative, there are at most [max_clips] of
    them. *)
Theorem highlights_never_overlap (np_sqrt : Q -> Q)
        (service : result audio_features) (transcription : list segment)
        (max_clips min_duration max_duration : Z) (hs : list highlight) :
  (0 <= max_clips)%Z ->
  detect_highlights np_sqrt service transcription max_clips min_duration max_duration
  = Ok hs
  \/ _fallback_highlights transcription max_clips min_duration max_duration = Ok hs
  \/ (exists scored_segments,
        _select_highlights scored_segments max_clips min_duration max_duration = hs) ->
  no_overlap hs /\ (Z.of_nat (List.length hs) <= max_clips)%Z.
Proof.
  intros Hk Hout.
  assert (Hpath :
    (exists scored_segments,
        hs = _select_highlights scored_segments max_clips min_duration max_duration)
    \/ _fallback_highlights transcription max_clips min_duration max_duration = Ok hs).
  { destruct Hout as [H | [H | [scored H]]].
    - eapply detect_highlights_paths; eassumption.
    - right; assumption.
    - left; exists scored; congruence. }
  destruct Hpath as [[scored ->] | Hfb].
  - destruct (select_highlights_disjoint scored max_clips min_duration max_duration)
      as [Hd Hn].
    split; [apply pairwise_no_overlap; assumption | lia].
  - destruct (fallback_highlights_disjoint _ _ _ _ _ Hfb) as [Hd Hn].
    split; [apply pairwise_no_overlap; assumption | lia].
Qed.

Lemma highlights_never_overlap_witness :
  exists hs,
    detect_highlights floor_sqrt (Ok empty_audio) clamped_transcript 3 30 60 = Ok hs
    /\ no_overlap hs /\ (Z.of_nat (List.length hs) <= 3)%Z.
Proof.
  eexists. split; [vm_compute; reflexivity |].
  apply (highlights_never_overlap floor_sqrt (Ok empty_audio) clamped_transcript
                                  3 30 60).
  - lia.
  - left. vm_compute. reflexivity.
Defined.

(** ** The empty transcript *)

(** C7: on a transcript without segments the detection call and the
    fallback generator both return the empty list; neither raises, whatever
    the audio service does and whatever the limits are. *)
Theorem empty_transcript_no_highlights (np_sqrt : Q -> Q)
        (service : result audio_features)
        (max_clips min_duration max_duration : Z) :
  detect_highlights np_sqrt service [] max_clips min_duration max_duration = Ok []
  /\ _fallback_highlights [] max_clips min_duration max_duration = Ok [].
Proof.
  split; [| reflexivity].
  unfold detect_highlights, scored_path.
  destruct service as [audio | e]; reflexivity.
Qed.

(** ** Durations *)


(** Every highlight of the selector comes from one scored segment. *)
Lemma select_loop_member (sorted_segments : list scored_segment)
      (max_clips min_duration max_duration : Z) (h : highlight) :
  forall highlights used,
    In h (select_loop sorted_segments max_clips min_duration max_duration
                      highlights used) ->
    In h highlights
    \/ exists segment,
         In segment sorted_segments
         /\ (start_time h, end_time h)
            = repair_duration (sc_start_time segment) (sc_end_time segment)
                              min_duration max_duration
         /\ text h = sc_text segment
         /\ score h = sc_score segment
         /\ title h = _generate_title (sc_text segment).
Proof.
  induction sorted_segments as [| segment rest IH]; intros hs used Hin; simpl in Hin.
  - left; assumption.
  - destruct (max_clips <=? Z.of_nat (List.length hs))%Z; [left; assumption |].
    destruct (repair_duration _ _ _ _) as [s e] eqn:Erep.
    destruct (overlaps_used used s e).
    + destruct (IH _ _ Hin) as [H | [sg [H1 H2]]]; [left; assumption |].
      right. exists sg. split; [right; assumption | assumption].
    + destruct (IH _ _ Hin) as [H | [sg [H1 H2]]].
      * apply in_app_or in H. destruct H as [H | [H | []]]; [left; assumption |].
        right. exists segment. subst h. simpl.
        repeat split; [left; reflexivity | congruence].
      * right. exists sg. split; [right; assumption | assumption].
Qed.

Lemma insert_by_score_In (x y : scored_segment) (sorted : list scored_segment) :
  In y (insert_by_score x sorted) <-> y = x \/ In y sorted.
Proof.
  induction sorted as [| z zs IH]; simpl.
  - intuition.
  - destruct (fltb (sc_score x) (sc_score z)); simpl; rewrite ?IH; intuition.
Qed.

Lemma sorted_by_score_In (y : scored_segment) (scored_segments : list scored_segment) :
  In y (sorted_by_score scored_segments) <-> In y scored_segments.
Proof.
  induction scored_segments as [| x xs IH]; simpl; [tauto |].
  rewrite insert_by_score_In, IH. intuition.
Qed.

Lemma select_highlights_member (scored_segments : list scored_segment)
      (max_clips min_duration max_duration : Z) (h : highlight) :
  In h (_select_highlights scored_segments max_clips min_duration max_duration) ->
  exists segment,
    In segment scored_segments
    /\ (start_time h, end_time h)
       = repair_duration (sc_start_time segment) (sc_end_time segment)
                         min_duration max_duration
    /\ text h = sc_text segment
    /\ score h = sc_score segment
    /\ title h = _generate_title (sc_text segment).
Proof.
  unfold _select_highlights. intro Hin.
  apply select_loop_member in Hin. destruct Hin as [[] | [sg [H1 H2]]].
  exists sg. split; [apply sorted_by_score_In; assumption | assumption].
Qed.








(** ** Text features *)

Lemma keyword_score_present (keywords : list string) (text : string) :
  keyword_score keywords text = phrases_present keywords text.
Proof.
  unfold keyword_score, phrases_present.
  enough (H : forall n,
             fold_left (fun total keyword =>
                          if contains keyword text then (total + 1)%nat else total)
                       keywords n
             = (n + List.length (filter (fun keyword => contains keyword text) keywords))%nat)
    by (rewrite H; reflexivity).
  induction keywords as [| k ks IH]; intro n; simpl.
  - lia.
  - rewrite IH. destruct (contains k text); simpl; lia.
Qed.

Lemma contains_occurs (p s : string) :
  contains p s = true -> (1 <= occurrences p s)%nat.
Proof.
  induction s as [| c s IH]; simpl.
  - destruct (startswith p ""); simpl; [lia | discriminate].
  - destruct (startswith p (String c s)); simpl; [lia |]. exact IH.
Qed.

Lemma present_le_occurrences (keywords : list string) (text : string) :
  (phrases_present keywords text <= phrase_occurrences keywords text)%nat.
Proof.
  unfold phrases_present, phrase_occurrences.
  induction keywords as [| k ks IH]; simpl; [lia |].
  destruct (contains k text) eqn:E; simpl.
  - apply contains_occurs in E. lia.
  - lia.
Qed.

Lemma text_features_step_ok (features features' : text_features) (segment : segment) :
  text_features_step features segment = Ok features' ->
  has_keys segment = true
  /\ engagement_scores features' = (engagement_scores features ++ [engagement_of segment])%list
  /\ emotion_scores features' = (emotion_scores features ++ [emotion_of segment])%list
  /\ question_scores features' = (question_scores features ++ [question_of segment])%list
  /\ exclamation_scores features'
     = (exclamation_scores features ++ [exclamation_of segment])%list
  /\ word_counts features' = (word_counts features ++ [words_of segment])%list
  /\ speaking_rates features' = (speaking_rates features ++ [rate_of segment])%list.
Proof.
  unfold text_features_step, has_keys, rate_of, engagement_of, emotion_of,
    question_of, exclamation_of, words_of, lowered.
  destruct (seg_text segment) as [raw |]; simpl; [| discriminate].
  destruct (seg_end segment) as [e |]; simpl; [| discriminate].
  destruct (seg_start segment) as [s |]; simpl; [| discriminate].
  rewrite py_div_floor. simpl. intro H. inversion H; subst; simpl.
  repeat split; reflexivity.
Qed.

Lemma text_features_step_returns (features : text_features) (segment : segment) :
  has_keys segment = true ->
  exists features', text_features_step features segment = Ok features'.
Proof.
  unfold text_features_step, has_keys.
  destruct (seg_text segment) as [raw |]; simpl; [| discriminate].
  destruct (seg_start segment) as [s |]; simpl; [| discriminate].
  destruct (seg_end segment) as [e |]; simpl; [| discriminate].
  intros _. rewrite py_div_floor. simpl. eexists. reflexivity.
Qed.

Lemma text_features_loop (transcription : list segment) :
  forall features features',
    for_each text_features_step transcription features = Ok features' ->
    forallb has_keys transcription = true
    /\ engagement_scores features'
       = (engagement_scores features ++ map engagement_of transcription)%list
    /\ emotion_scores features'
       = (emotion_scores features ++ map emotion_of transcription)%list
    /\ question_scores features'
       = (question_scores features ++ map question_of transcription)%list
    /\ exclamation_scores features'
       = (exclamation_scores features ++ map exclamation_of transcription)%list
    /\ word_counts features' = (word_counts features ++ map words_of transcription)%list
    /\ speaking_rates features'
       = (speaking_rates features ++ map rate_of transcription)%list.
Proof.
  induction transcription as [| segment rest IH]; intros f f' Hrun; simpl in Hrun.
  - inversion Hrun; subst. simpl. rewrite !app_nil_r. repeat split; reflexivity.
  - destruct (text_features_step f segment) as [f1 |] eqn:Estep; [| discriminate].
    simpl in Hrun.
    apply text_features_step_ok in Estep.
    destruct Estep as (Hk & E1 & E2 & E3 & E4 & E5 & E6).
    destruct (IH _ _ Hrun) as (Hks & R1 & R2 & R3 & R4 & R5 & R6).
    simpl. rewrite Hk, Hks, R1, R2, R3, R4, R5, R6, E1, E2, E3, E4, E5, E6.
    rewrite <- !app_assoc. simpl. repeat split; reflexivity.
Qed.

Lemma extract_text_features_ok (transcription : list segment)
      (features : text_features) :
  _extract_text_features transcription = Ok features ->
  forallb has_keys transcription = true
  /\ engagement_scores features = map engagement_of transcription
  /\ emotion_scores features = map emotion_of transcription
  /\ question_scores features = map question_of transcription
  /\ exclamation_scores features = map exclamation_of transcription
  /\ word_counts features = map words_of transcription
  /\ speaking_rates features = map rate_of transcription.
Proof.
  intro H. apply text_features_loop in H. exact H.
Qed.

Lemma extract_text_features_returns (transcription : list segment) :
  forallb has_keys transcription = true ->
  exists features, _extract_text_features transcription = Ok features.
Proof.
  unfold _extract_text_features. generalize empty_features.
  induction transcription as [| segment rest IH]; intros f Hk; simpl.
  - eexists; reflexivity.
  - simpl in Hk. apply andb_true_iff in Hk. destruct Hk as [Hk Hks].
    destruct (text_features_step_returns f segment Hk) as [f1 ->]. simpl.
    apply IH. assumption.
Qed.

(** The claim C3 as it is worded fails: in "Wow, wow!" the phrase "wow"
    occurs twice and the engagement score is 1. *)
Lemma keyword_occurrences_counterexample :
  ~ (forall features,
        _extract_text_features [seg "Wow, wow!" 0 5] = Ok features ->
        engagement_scores features
        = [phrase_occurrences engagement_keywords (lower "Wow, wow!")]).
Proof.
  intro H.
  assert (Hrun : exists features,
             _extract_text_features [seg "Wow, wow!" 0 5] = Ok features
             /\ engagement_scores features = [1%nat])
    by (eexists; split; vm_compute; reflexivity).
  destruct Hrun as [features [Hrun Hone]].
  specialize (H features Hrun). rewrite Hone in H.
  vm_compute in H. discriminate.
Qed.

(** C3, amended: the engagement score of a segment is the number of phrases
    of the engagement keyword list that occur (at least once, as a
    substring) in the lower-cased text, and the emotion score is the same
    number for the emotion keyword list; a phrase that occurs several times
    counts once, so each score is at most the number of occurrences. *)
Theorem keyword_scores_count_present_phrases (transcription : list segment)
        (features : text_features) (i : nat) (segment : segment) (raw : string) :
  _extract_text_features transcription = Ok features ->
  nth_error transcription i = Some segment ->
  seg_text segment = Some raw ->
  nth_error (engagement_scores features) i
  = Some (phrases_present engagement_keywords (lower raw))
  /\ nth_error (emotion_scores features) i
     = Some (phrases_present emotion_keywords (lower raw))
  /\ (phrases_present engagement_keywords (lower raw)
      <= phrase_occurrences engagement_keywords (lower raw))%nat
  /\ (phrases_present emotion_keywords (lower raw)
      <= phrase_occurrences emotion_keywords (lower raw))%nat.
Proof.
  intros Hrun Hi Hraw.
  apply extract_text_features_ok in Hrun.
  destruct Hrun as (_ & E1 & E2 & _).
  rewrite E1, E2, !nth_error_map, Hi. simpl.
  unfold engagement_of, emotion_of, lowered. rewrite Hraw. simpl.
  rewrite !keyword_score_present.
  repeat split; apply present_le_occurrences.
Qed.

Lemma keyword_scores_count_present_phrases_witness :
  nth_error [1%nat] 0 = Some (phrases_present engagement_keywords (lower "Wow, wow!"))
  /\ nth_error [0%nat] 0 = Some (phrases_present emotion_keywords (lower "Wow, wow!"))
  /\ (phrases_present engagement_keywords (lower "Wow, wow!")
      <= phrase_occurrences engagement_keywords (lower "Wow, wow!"))%nat
  /\ (phrases_present emotion_keywords (lower "Wow, wow!")
      <= phrase_occurrences emotion_keywords (lower "Wow, wow!"))%nat.
Proof.
  exact (keyword_scores_count_present_phrases
           [seg "Wow, wow!" 0 5]
           {| engagement_scores := [1%nat]; emotion_scores := [0%nat];
              question_scores := [0%nat]; exclamation_scores := [1%nat];
              word_counts := [2%nat]; speaking_rates := [2 # 5] |}
           0 (seg "Wow, wow!" 0 5) "Wow, wow!"
           eq_refl eq_refl eq_refl).
Defined.

(** ** Scores *)

Lemma feq_refl (a : npfloat) : feq a a.
Proof. destruct a; simpl; [reflexivity | exact I]. Qed.

Lemma np_min_Fin (a b : Q) : np_min (Fin a) (Fin b) = Fin (py_min a b).
Proof.
  unfold np_min, py_min, fltb. destruct (Qltb b a); reflexivity.
Qed.

Lemma weighted_sum_compat (e e' m m' q x r r' : Q) :
  e == e' -> m == m' -> r == r' ->
  weighted_sum e m q x r == weighted_sum e' m' q x r'.
Proof.
  intros He Hm Hr. unfold weighted_sum.
  destruct (Q.min_spec r 2) as [[L E] | [L E]];
    destruct (Q.min_spec r' 2) as [[L' E'] | [L' E']];
    rewrite E, E'; lra.
Qed.

Lemma truthy_with_rms (audio : audio_features) :
  dict_truthy audio && is_some (rms_energy audio) = is_some (rms_energy audio).
Proof.
  unfold dict_truthy.
  destruct (rms_energy audio); simpl; [reflexivity | apply andb_false_r].
Qed.

Lemma positive_length (n : nat) : (0 <? n)%nat = negb (Nat.eqb n 0).
Proof. destruct n; reflexivity. Qed.

Section ScoreFacts.

Variable np_sqrt : Q -> Q.

(** The audio block adds the energy term to a finite score and never
    raises on a segment that has its time stamps. *)
Lemma audio_scoring_term (audio : audio_features) (segment : segment)
      (s e w : Q) :
  seg_start segment = Some s ->
  seg_end segment = Some e ->
  is_some (rms_energy audio) = true ->
  exists v,
    audio_scoring audio segment (Fin w) = Ok v
    /\ feq v (fadd (Fin w) (audio_block_term audio s e)).
Proof.
  intros Hs He Hrms.
  unfold audio_scoring, audio_block_term, audio_guards, np_mean_in_range,
    samples_in_range.
  rewrite Hs, He. simpl.
  destruct (rms_energy audio) as [rms |]; [| discriminate]. simpl.
  rewrite !positive_length.
  destruct (negb (Nat.eqb (List.length (dict_get (time_axis audio) [])) 0)); simpl;
    [| eexists; split; [reflexivity | simpl; lra]].
  destruct (negb (Nat.eqb (List.length rms) 0)); simpl;
    [| eexists; split; [reflexivity | simpl; lra]].
  destruct (searchsorted (dict_get (time_axis audio) []) s <? List.length rms)%nat;
    simpl; [| eexists; split; [reflexivity | simpl; lra]].
  destruct (searchsorted (dict_get (time_axis audio) []) e <=? List.length rms)%nat;
    simpl; [| eexists; split; [reflexivity | simpl; lra]].
  destruct (np_mean _) as [m |]; simpl.
  - rewrite np_min_Fin. simpl. eexists. split; [reflexivity |]. simpl.
    rewrite py_min_Qmin. lra.
  - eexists. split; [reflexivity | exact I].
Qed.

(** The score of one segment, from the entries of the five arrays. *)
Lemma segment_score_formula (engagement emotion question exclamation rates : list Q)
      (audio : audio_features) (i : nat) (segment : segment)
      (e m q x r s t : Q) :
  nth_error engagement i = Some e ->
  nth_error emotion i = Some m ->
  nth_error question i = Some q ->
  nth_error exclamation i = Some x ->
  nth_error rates i = Some r ->
  seg_start segment = Some s ->
  seg_end segment = Some t ->
  exists v,
    segment_score engagement emotion question exclamation rates audio i segment
    = Ok v
    /\ feq v (fadd (Fin (weighted_sum e m q x r)) (audio_block_term audio s t)).
Proof.
  intros He Hm Hq Hx Hr Hs Ht.
  unfold segment_score, array_get. rewrite He, Hm, Hq, Hx, Hr. simpl.
  rewrite truthy_with_rms.
  destruct (is_some (rms_energy audio)) eqn:Hrms.
  - destruct (audio_scoring_term audio segment s t
                (0 + e * 0.3 + m * 0.2 + q * 0.1 + x * 0.1 + py_min r 2 * 0.1)
                Hs Ht Hrms) as [v [Hv Hfeq]].
    rewrite Hv. simpl. exists v. split; [reflexivity |].
    destruct v as [v |], (audio_block_term audio s t) as [en |]; simpl in *;
      try contradiction; try exact I.
    unfold weighted_sum. rewrite <- (py_min_Qmin r 2). lra.
  - exists (Fin (0 + e * 0.3 + m * 0.2 + q * 0.1 + x * 0.1 + py_min r 2 * 0.1)).
    split; [reflexivity |].
    unfold audio_block_term, audio_guards.
    destruct (rms_energy audio); [discriminate |]. simpl.
    unfold weighted_sum. rewrite <- (py_min_Qmin r 2). lra.
Qed.

(** The scoring loop returns one scored segment for each segment, with the
    score that [segment_score] gives at its index. *)
Lemma score_loop_spec (engagement emotion question exclamation rates : list Q)
      (audio : audio_features) (segments : list segment) :
  forall i scored_segments,
    forallb has_keys segments = true ->
    (i + List.length segments <= List.length engagement)%nat ->
    (i + List.length segments <= List.length emotion)%nat ->
    (i + List.length segments <= List.length question)%nat ->
    (i + List.length segments <= List.length exclamation)%nat ->
    (i + List.length segments <= List.length rates)%nat ->
    exists out,
      score_loop engagement emotion question exclamation rates audio segments i
                 scored_segments
      = Ok (scored_segments ++ out)%list
      /\ List.length out = List.length segments
      /\ forall j sc, nth_error out j = Some sc ->
           exists segment,
             nth_error segments j = Some segment
             /\ seg_start segment = Some (sc_start_time sc)
             /\ seg_end segment = Some (sc_end_time sc)
             /\ seg_text segment = Some (sc_text sc)
             /\ segment_score engagement emotion question exclamation rates audio
                              (i + j) segment
                = Ok (sc_score sc).
Proof.
  induction segments as [| segment rest IH];
    intros i acc Hkeys H1 H2 H3 H4 H5; simpl in *.
  - exists []. rewrite app_nil_r. split; [reflexivity |]. split; [reflexivity |].
    intros [| j] sc Hj; discriminate.
  - apply andb_true_iff in Hkeys. destruct Hkeys as [Hk Hks].
    unfold has_keys in Hk.
    destruct (seg_text segment) as [raw |] eqn:Hraw; [| discriminate].
    destruct (seg_start segment) as [s |] eqn:Hs; [| discriminate].
    destruct (seg_end segment) as [t |] eqn:Ht; [| discriminate].
    destruct (nth_error engagement i) as [e |] eqn:He;
      [| apply nth_error_None in He; lia].
    destruct (nth_error emotion i) as [m |] eqn:Hm;
      [| apply nth_error_None in Hm; lia].
    destruct (nth_error question i) as [q |] eqn:Hq;
      [| apply nth_error_None in Hq; lia].
    destruct (nth_error exclamation i) as [x |] eqn:Hx;
      [| apply nth_error_None in Hx; lia].
    destruct (nth_error rates i) as [r |] eqn:Hr;
      [| apply nth_error_None in Hr; lia].
    destruct (segment_score_formula engagement emotion question exclamation rates
                audio i segment e m q x r s t He Hm Hq Hx Hr Hs Ht)
      as [v [Hv _]].
    rewrite Hv. simpl.
    destruct (IH (S i)
                 (acc ++ [{| sc_start_time := s; sc_end_time := t; sc_text := raw;
                             sc_score := v;
                             sc_confidence := dict_get (seg_confidence segment) 0 |}])%list
                 Hks ltac:(lia) ltac:(lia) ltac:(lia) ltac:(lia) ltac:(lia))
      as [out [Hrun [Hlen Hout]]].
    eexists (_ :: out). rewrite Hrun, <- app_assoc. simpl.
    split; [reflexivity |]. split; [congruence |].
    intros [| j] sc Hj; simpl in Hj.
    + inversion Hj; subst; simpl. exists segment.
      rewrite Nat.add_0_r. repeat split; assumption.
    + destruct (Hout j sc Hj) as [sg Hsg]. exists sg.
      replace (i + S j)%nat with (S i + j)%nat by lia. exact Hsg.
Qed.

End ScoreFacts.

Lemma feq_fadd_compat (v en : npfloat) (a b : Q) :
  a == b -> feq v (fadd (Fin a) en) -> feq v (fadd (Fin b) en).
Proof.
  intros Hab. destruct v as [v |], en as [en |]; simpl; try tauto.
  intro H. rewrite H, Hab. reflexivity.
Qed.




(** ** The single segment *)

(** On a transcript of one segment (with its text and time stamps) the
    text features are extracted and the scorer returns one score without
    raising; the arrays are not normalized (the square root is not used):
    the score is the weighted sum of the raw counts and of the raw speaking
    rate, plus what the audio block adds.  The divisor of the speaking
    rate, [max(duration, 1)], is at least 1, so the text part of the score
    is a number: the score is NaN exactly when the audio block adds NaN.
    The detection call returns the selection made from that one score. *)
Lemma single_segment_score (np_sqrt : Q -> Q)
        (service : result audio_features) (raw : string) (s e : Q)
        (confidence : option Q) (max_clips min_duration max_duration : Z) :
  let segment := {| seg_text := Some raw; seg_start := Some s; seg_end := Some e;
                    seg_confidence := confidence |} in
  let audio := match service with Ok a => a | Raise _ => empty_audio end in
  exists features sc,
    _extract_text_features [segment] = Ok features
    /\ _score_segments np_sqrt [segment] features audio = Ok [sc]
    /\ feq (sc_score sc)
           (fadd (Fin (weighted_sum
                         (Qnat (keyword_score engagement_keywords (lower raw)))
                         (Qnat (keyword_score emotion_keywords (lower raw)))
                         (Qnat (count_char "?" (lower raw)))
                         (Qnat (count_char "!" (lower raw)))
                         (Qnat (List.length (split (lower raw))) / Qmax (e - s) 1)))
                 (audio_block_term audio s e))
    /\ 1 <= py_max (e - s) 1
    /\ is_nan (sc_score sc) = is_nan (audio_block_term audio s e)
    /\ detect_highlights np_sqrt service [segment] max_clips min_duration max_duration
       = Ok (_select_highlights [sc] max_clips min_duration max_duration).
Proof.
  intros segment audio.
  assert (Hkeys : forallb has_keys [segment] = true) by reflexivity.
  destruct (extract_text_features_returns [segment] Hkeys) as [features Hrun].
  destruct (extract_text_features_ok _ _ Hrun) as (_ & E1 & E2 & E3 & E4 & _ & E6).
  simpl in E1, E2, E3, E4, E6.
  destruct (segment_score_formula
              (np_array (engagement_scores features))
              (np_array (emotion_scores features))
              (np_array (question_scores features))
              (np_array (exclamation_scores features))
              (speaking_rates features) audio 0 segment
              (Qnat (engagement_of segment)) (Qnat (emotion_of segment))
              (Qnat (question_of segment)) (Qnat (exclamation_of segment))
              (rate_of segment) s e)
    as [v [Hv Hfeq]];
    try (rewrite ?E1, ?E2, ?E3, ?E4, ?E6; reflexivity).
  set (sc := {| sc_start_time := s; sc_end_time := e; sc_text := raw;
                sc_score := v; sc_confidence := dict_get confidence 0 |}).
  assert (Hscore : _score_segments np_sqrt [segment] features audio = Ok [sc]).
  { unfold _score_segments. rewrite E1. simpl List.length.
    change (1 <? 1)%nat with false. cbv iota.
    rewrite <- E1. unfold score_loop. rewrite Hv. reflexivity. }
  exists features, sc. split; [exact Hrun |]. split; [exact Hscore |].
  split; [| split; [apply py_max_floor | split]].
  - simpl. eapply feq_fadd_compat; [| exact Hfeq].
    apply weighted_sum_compat; try reflexivity.
    unfold rate_of, words_of, lowered. simpl.
    rewrite py_max_Qmax. reflexivity.
  - simpl. destruct v, (audio_block_term audio s e); simpl in Hfeq;
      try contradiction; reflexivity.
  - unfold detect_highlights, scored_path. rewrite Hrun. simpl.
    assert (Haudio : _extract_audio_features service = Ok audio)
      by (unfold audio; destruct service; reflexivity).
    rewrite Haudio. simpl. rewrite Hscore. reflexivity.
Qed.

(** ** The empty range of audio samples *)

Lemma empty_slice_scores_nan (audio : audio_features) (segment : segment)
      (s e w : Q) (rms axis : list Q) :
  seg_start segment = Some s ->
  seg_end segment = Some e ->
  rms_energy audio = Some rms ->
  time_axis audio = Some axis ->
  axis <> [] ->
  (searchsorted axis s < List.length rms)%nat ->
  (searchsorted axis e <= searchsorted axis s)%nat ->
  audio_scoring audio segment (Fin w) = Ok NaN.
Proof.
  intros Hs He Hrms Haxis Hne Hlt Hle.
  assert (Ha : (0 <? List.length axis)%nat = true)
    by (destruct axis; [congruence | reflexivity]).
  assert (Hr : (0 <? List.length rms)%nat = true) by (apply Nat.ltb_lt; lia).
  assert (Hlt' : (searchsorted axis s <? List.length rms)%nat = true)
    by (apply Nat.ltb_lt; exact Hlt).
  assert (Hle' : (searchsorted axis e <=? List.length rms)%nat = true)
    by (apply Nat.leb_le; lia).
  assert (Hempty : slice rms (searchsorted axis s) (searchsorted axis e) = []).
  { unfold slice. apply skipn_all2. rewrite length_firstn. lia. }
  unfold audio_scoring. rewrite Hs, He, Hrms, Haxis.
  cbn [bind getitem dict_get]. rewrite Ha, Hr, Hlt', Hle'. cbn [andb].
  rewrite Hempty. reflexivity.
Qed.

(** C6, the defect: a segment of 20 ms between two audio frames maps onto
    an empty range of samples that starts inside the energy array; the mean
    of the empty slice is NaN and the score of the segment is NaN instead of
    the score without the energy term. *)
Theorem empty_sample_range_scores_nan :
  searchsorted [0; 0.032; 0.064; 0.096] 0.04 = 2%nat
  /\ searchsorted [0; 0.032; 0.064; 0.096] 0.06 = 2%nat
  /\ exists features sc plain,
       _extract_text_features between_frames = Ok features
       /\ _score_segments floor_sqrt between_frames features coarse_audio = Ok [sc]
       /\ sc_score sc = NaN
       /\ _score_segments floor_sqrt between_frames features empty_audio = Ok [plain]
       /\ is_nan (sc_score plain) = false.
Proof.
  split; [reflexivity |]. split; [reflexivity |].
  eexists. eexists. eexists.
  split; [vm_compute; reflexivity |].
  split; [vm_compute; reflexivity |].
  split; [reflexivity |].
  split; [vm_compute; reflexivity | reflexivity].
Qed.

(** The cases in which the audio block leaves the score as it is. *)
Lemma audio_scoring_noop (audio : audio_features) (segment : segment)
      (s e w : Q) :
  seg_start segment = Some s ->
  seg_end segment = Some e ->
  dict_get (rms_energy audio) [] = []
  \/ dict_get (time_axis audio) [] = []
  \/ (List.length (dict_get (rms_energy audio) [])
      <= searchsorted (dict_get (time_axis audio) []) s)%nat ->
  audio_scoring audio segment (Fin w) = Ok (Fin w).
Proof.
  intros Hs He Hcase.
  unfold audio_scoring. rewrite Hs, He. cbn [bind getitem].
  destruct Hcase as [H | [H | H]].
  - rewrite H. simpl. rewrite andb_false_r. reflexivity.
  - rewrite H. reflexivity.
  - apply Nat.ltb_ge in H. rewrite H. cbn [andb].
    destruct (_ && _); reflexivity.
Qed.

(** ** Exceptions *)

Lemma score_segments_returns (np_sqrt : Q -> Q) (transcription : list segment)
      (features : text_features) (audio : audio_features) :
  _extract_text_features transcription = Ok features ->
  exists scored_segments,
    _score_segments np_sqrt transcription features audio = Ok scored_segments.
Proof.
  intro Hrun.
  destruct (extract_text_features_ok _ _ Hrun) as (Hkeys & E1 & E2 & E3 & E4 & _ & E6).
  unfold _score_segments.
  destruct (1 <? List.length (np_array (engagement_scores features)))%nat.
  - destruct (score_loop_spec
                (normalize np_sqrt (np_array (engagement_scores features)))
                (normalize np_sqrt (np_array (emotion_scores features)))
                (np_array (question_scores features))
                (np_array (exclamation_scores features))
                (normalize np_sqrt (speaking_rates features))
                audio transcription 0 [] Hkeys) as [out [Hout _]];
      try (unfold normalize, np_array;
           rewrite ?E1, ?E2, ?E3, ?E4, ?E6, ?length_map; simpl; lia).
    exists out. exact Hout.
  - destruct (score_loop_spec
                (np_array (engagement_scores features))
                (np_array (emotion_scores features))
                (np_array (question_scores features))
                (np_array (exclamation_scores features))
                (speaking_rates features)
                audio transcription 0 [] Hkeys) as [out [Hout _]];
      try (unfold np_array;
           rewrite ?E1, ?E2, ?E3, ?E4, ?E6, ?length_map; simpl; lia).
    exists out. exact Hout.
Qed.

(** The body of the [try] raises exactly when the text features do. *)
Lemma scored_path_raises (np_sqrt : Q -> Q) (service : result audio_features)
      (transcription : list segment) (max_clips min_duration max_duration : Z)
      (e : exn) :
  scored_path np_sqrt service transcription max_clips min_duration max_duration
  = Raise e
  <-> _extract_text_features transcription = Raise e.
Proof.
  unfold scored_path.
  destruct (_extract_text_features transcription) as [features | e'] eqn:Hrun;
    simpl; [| split; intro H; congruence].
  assert (Haudio : exists audio, _extract_audio_features service = Ok audio)
    by (destruct service; eexists; reflexivity).
  destruct Haudio as [audio ->]. simpl.
  destruct (score_segments_returns np_sqrt transcription features audio Hrun)
    as [scored ->].
  simpl. split; discriminate.
Qed.

(** On a transcript whose segments have their keys the detection call
    returns, by the scored path, whatever the audio service does. *)
Lemma detect_highlights_returns (np_sqrt : Q -> Q) (service : result audio_features)
      (transcription : list segment) (max_clips min_duration max_duration : Z) :
  forallb has_keys transcription = true ->
  exists scored_segments,
    detect_highlights np_sqrt service transcription max_clips min_duration
                      max_duration
    = Ok (_select_highlights scored_segments max_clips min_duration max_duration).
Proof.
  intro Hkeys.
  destruct (extract_text_features_returns transcription Hkeys) as [features Hrun].
  unfold detect_highlights, scored_path. rewrite Hrun. simpl.
  assert (Haudio : exists audio, _extract_audio_features service = Ok audio)
    by (destruct service; eexists; reflexivity).
  destruct Haudio as [audio ->]. simpl.
  destruct (score_segments_returns np_sqrt transcription features audio Hrun)
    as [scored ->].
  simpl. exists scored. reflexivity.
Qed.

(** The claim C4 as it is worded fails for the audio features: when the
    audio service raises, the call does not use the fallback generator; it
    returns the highlight of the scored path. *)
Lemma audio_failure_counterexample :
  detect_highlights floor_sqrt (Raise (ServiceError "no audio")) [seg "wow" 0 40]
                    3 30 60
  <> _fallback_highlights [seg "wow" 0 40] 3 30 60.
Proof.
  intro H. vm_compute in H. discriminate.
Qed.

(** C4, amended: an exception raised in the body of the [try] (in the model
    that is an exception of the text features; the scorer and the selector
    do not raise after them) is caught and the call returns what the
    fallback generator returns; the call raises only what the fallback
    itself raises.  An exception of the audio service is caught inside
    [_extract_audio_features]: the call goes on along the scored path with
    an empty feature dict, without the energy term. *)
Theorem detection_exception_policy (np_sqrt : Q -> Q)
        (service : result audio_features) (transcription : list segment)
        (max_clips min_duration max_duration : Z) :
  (forall e,
      scored_path np_sqrt service transcription max_clips min_duration max_duration
      = Raise e ->
      detect_highlights np_sqrt service transcription max_clips min_duration
                        max_duration
      = _fallback_highlights transcription max_clips min_duration max_duration)
  /\ (forall e,
        _extract_text_features transcription = Raise e ->
        detect_highlights np_sqrt service transcription max_clips min_duration
                          max_duration
        = _fallback_highlights transcription max_clips min_duration max_duration)
  /\ (forall e,
        service = Raise e ->
        detect_highlights np_sqrt service transcription max_clips min_duration
                          max_duration
        = detect_highlights np_sqrt (Ok empty_audio) transcription max_clips
                            min_duration max_duration)
  /\ (forall e,
        detect_highlights np_sqrt service transcription max_clips min_duration
                          max_duration
        = Raise e ->
        _fallback_highlights transcription max_clips min_duration max_duration
        = Raise e
        /\ raises (_extract_text_features transcription)).
Proof.
  assert (Hcatch : forall e,
    scored_path np_sqrt service transcription max_clips min_duration max_duration
    = Raise e ->
    detect_highlights np_sqrt service transcription max_clips min_duration
                      max_duration
    = _fallback_highlights transcription max_clips min_duration max_duration).
  { intros e H. unfold detect_highlights. rewrite H. reflexivity. }
  split; [exact Hcatch |]. split; [| split].
  - intros e H. apply (Hcatch e). apply scored_path_raises. exact H.
  - intros e ->. reflexivity.
  - intros e H. unfold detect_highlights in H.
    destruct (scored_path np_sqrt service transcription max_clips min_duration
                          max_duration) as [hs | e'] eqn:Hpath;
      simpl in H; [discriminate |].
    split; [exact H |]. exists e'. apply scored_path_raises in Hpath. exact Hpath.
Qed.

Lemma detection_exception_policy_witness :
  detect_highlights floor_sqrt (Raise (ServiceError "no audio")) [missing_text 0 40]
                    0 30 60
  = _fallback_highlights [missing_text 0 40] 0 30 60
  /\ detect_highlights floor_sqrt (Raise (ServiceError "no audio"))
                       [missing_text 0 40] 0 30 60
     = detect_highlights floor_sqrt (Ok empty_audio) [missing_text 0 40] 0 30 60
  /\ _fallback_highlights [missing_text 0 40] 0 30 60 = Raise ZeroDivisionError
  /\ raises (_extract_text_features [missing_text 0 40]).
Proof.
  destruct (detection_exception_policy floor_sqrt (Raise (ServiceError "no audio"))
              [missing_text 0 40] 0 30 60) as (H1 & H2 & H3 & H4).
  pose proof (H1 (KeyError "text") eq_refl) as Hscored.
  pose proof (H2 (KeyError "text") eq_refl) as Htext.
  pose proof (H3 (ServiceError "no audio") eq_refl) as Haudio.
  pose proof (H4 ZeroDivisionError eq_refl) as [Hfb Hraise].
  split; [exact Htext |]. split; [exact Haudio |]. split; [exact Hfb | exact Hraise].
Defined.

(** ** Titles *)

Lemma split_scan_lstrip (s : string) : split_scan (lstrip s) [] = split_scan s [].
Proof.
  induction s as [| c s IH]; simpl; [reflexivity |].
  destruct (is_space c) eqn:E; [exact IH |]. simpl. rewrite E. reflexivity.
Qed.

Lemma split_scan_rstrip (s : string) :
  forall cur, split_scan (rstrip s) cur = split_scan s cur.
Proof.
  induction s as [| c s IH]; intro cur; simpl; [reflexivity |].
  destruct (rstrip s) as [| a r] eqn:E.
  - destruct (is_space c) eqn:Ec; simpl.
    + rewrite <- (IH []). simpl. destruct cur; reflexivity.
    + rewrite Ec. rewrite <- IH. reflexivity.
  - simpl. rewrite <- (IH []), <- (IH (c :: cur)). reflexivity.
Qed.

(** Stripping the text first does not change its words. *)
Lemma split_strip (s : string) : split (strip s) = split s.
Proof.
  unfold split, strip. rewrite split_scan_rstrip. apply split_scan_lstrip.
Qed.

Lemma re_sub_punct_filter (s : string) : re_sub_punct s = remove_punctuation s.
Proof.
  unfold remove_punctuation.
  induction s as [| c s IH]; simpl; [reflexivity |].
  fold (title_char c). destruct (title_char c); simpl; rewrite IH; reflexivity.
Qed.

(** C9: the title of a text is made of its first six words at most (the
    words that white space delimits), joined by single spaces, without the
    characters that are neither word characters nor white space nor
    hyphens, stripped and title-cased, and it is "Highlight" when nothing is
    left; every highlight of the selector carries the title of its own text,
    which is the text of a scored segment; the two examples of the
    specification evaluate as stated. *)
Theorem generate_title_spec (raw : string)
        (scored_segments : list scored_segment)
        (max_clips min_duration max_duration : Z) (h : highlight) :
  (let cleaned := strip (remove_punctuation (join " " (firstn 6 (split raw)))) in
   _generate_title raw
   = match cleaned with
     | EmptyString => "Highlight"%string
     | String _ _ => title_case cleaned
     end)
  /\ (In h (_select_highlights scored_segments max_clips min_duration max_duration) ->
      title h = _generate_title (text h)
      /\ exists segment,
           In segment scored_segments /\ text h = sc_text segment)
  /\ _generate_title "this is AMAZING!!! you won't believe it"
     = "This Is Amazing You Wont Believe"%string
  /\ _generate_title " ?!... (!!!) "  = "Highlight"%string.
Proof.
  split; [| split; [| split; reflexivity]].
  - unfold _generate_title. rewrite split_strip, re_sub_punct_filter.
    destruct (strip _); reflexivity.
  - intro Hin. apply select_highlights_member in Hin.
    destruct Hin as (sg & Hsg & _ & Htext & _ & Htitle).
    split; [congruence |]. exists sg. split; assumption.
Qed.

Lemma generate_title_spec_witness :
  In amazing_highlight (_select_highlights [amazing_scored] 3 30 60)
  /\ title amazing_highlight = _generate_title (text amazing_highlight)
  /\ exists segment,
       In segment [amazing_scored] /\ text amazing_highlight = sc_text segment.
Proof.
  assert (Hin : In amazing_highlight (_select_highlights [amazing_scored] 3 30 60))
    by (left; reflexivity).
  split; [exact Hin |].
  exact (proj1 (proj2 (generate_title_spec "" [amazing_scored] 3 30 60
                                           amazing_highlight)) Hin).
Defined.

(** ** The windows of the fallback *)

Lemma window_text_outside (segments : list segment) (c w : Q) (acc : string) :
  Forall (outside_window c w) segments ->
  window_text segments c w acc = Ok acc.
Proof.
  induction 1 as [| segment rest (s & e & Hs & He & Hout) _ IH]; simpl;
    [reflexivity |].
  rewrite Hs. simpl.
  destruct (Qle_bool c s) eqn:E1; [| exact IH].
  rewrite He. simpl.
  destruct (Qle_bool e w) eqn:E2; [| exact IH].
  exfalso. apply Hout. split; apply Qle_bool_iff; assumption.
Qed.

(** C10: when no segment of the transcript lies inside the window that
    starts at the cursor, the iteration of the fallback adds no highlight;
    it still moves the cursor to the end of the window plus 10 seconds and
    goes on with the next value of the counter (or stops when the cursor has
    reached the end of the transcript).  So the fallback can return fewer
    than [max_clips] highlights while transcript time remains, and its
    titles can skip a number: on [gap_transcript], with at most 3 clips of 10
    to 20 seconds, the window from 30 to 50 is skipped and the titles are
    "Highlight 1" and "Highlight 3". *)
Theorem fallback_skips_empty_window (transcription : list segment)
        (segment_duration L current_time : Q) (remaining i : nat)
        (highlights : list highlight) :
  last_end transcription = Ok L ->
  Forall (outside_window current_time (py_min (current_time + segment_duration) L))
         transcription ->
  fallback_loop transcription segment_duration (S remaining) i current_time
                highlights
  = (if Qle_bool L (py_min (current_time + segment_duration) L + 10)
     then Ok highlights
     else fallback_loop transcription segment_duration remaining (S i)
                        (py_min (current_time + segment_duration) L + 10)
                        highlights)
  /\ _fallback_highlights gap_transcript 3 10 20 = Ok [gap_first; gap_third]
  /\ map title [gap_first; gap_third] = ["Highlight 1"; "Highlight 3"]%string
  /\ (List.length [gap_first; gap_third] < 3)%nat.
Proof.
  intros HL Hout.
  split; [| split; [vm_compute; reflexivity | split; [reflexivity | simpl; lia]]].
  simpl. rewrite HL. simpl.
  rewrite (window_text_outside _ _ _ _ Hout). simpl.
  reflexivity.
Qed.

Lemma fallback_skips_empty_window_witness :
  fallback_loop gap_transcript 20 2 1 30 [gap_first]
  = fallback_loop gap_transcript 20 1 2 60 [gap_first]
  /\ fallback_loop gap_transcript 20 1 2 60 [gap_first] = Ok [gap_first; gap_third].
Proof.
  assert (HL : last_end gap_transcript = Ok 80) by reflexivity.
  assert (Hout : Forall (outside_window 30 (py_min (30 + 20) 80)) gap_transcript).
  { repeat constructor.
    - exists 0, 5. split; [reflexivity |]. split; [reflexivity |].
      intros [H _]. vm_compute in H. apply H. reflexivity.
    - exists 25, 70. split; [reflexivity |]. split; [reflexivity |].
      intros [H _]. vm_compute in H. apply H. reflexivity.
    - exists 70, 80. split; [reflexivity |]. split; [reflexivity |].
      intros [_ H]. vm_compute in H. apply H. reflexivity. }
  destruct (fallback_skips_empty_window gap_transcript 20 80 30 1 1 [gap_first]
                                        HL Hout) as [Hstep _].
  split; [| vm_compute; reflexivity].
  rewrite Hstep. vm_compute. reflexivity.
Defined.

(** ** The order of the selection *)

Lemma pairs_nth_lt {A : Type} (R : A -> A -> Prop) (l : list A) :
  ForallOrdPairs R l ->
  forall i j a b, (i < j)%nat ->
    nth_error l i = Some a -> nth_error l j = Some b -> R a b.
Proof.
  induction 1 as [| x l Hx Hl IH]; intros i j a b Hij Ha Hb.
  - destruct i; discriminate.
  - rewrite Forall_forall in Hx.
    destruct i as [| i], j as [| j]; simpl in Ha, Hb; try lia.
    + inversion Ha; subst. apply Hx. eapply nth_error_In; eassumption.
    + apply (IH i j); [lia | assumption | assumption].
Qed.

Lemma fltb_false_fle (a b : npfloat) :
  is_nan a = false -> is_nan b = false -> fltb a b = false -> fle b a.
Proof.
  destruct a as [x |], b as [y |]; simpl; try discriminate.
  intros _ _ H. now apply Qltb_false.
Qed.

Lemma fltb_true_fle (a b : npfloat) : fltb a b = true -> fle a b.
Proof.
  destruct a as [x |], b as [y |]; simpl; try discriminate.
  intro H. apply Qltb_true in H. lra.
Qed.

Lemma fle_trans (a b c : npfloat) : fle a b -> fle b c -> fle a c.
Proof.
  destruct a, b, c; simpl; try tauto. intros; lra.
Qed.

Lemma insert_by_score_sorted (x : scored_segment) (sorted : list scored_segment) :
  is_nan (sc_score x) = false ->
  finite_scores sorted ->
  StronglySorted score_not_below sorted ->
  StronglySorted score_not_below (insert_by_score x sorted).
Proof.
  intros Hx Hfin Hs. induction Hs as [| y ys Hys IH Hy]; simpl.
  - repeat constructor.
  - inversion Hfin as [| ? ? Hfy Hfys]; subst.
    destruct (fltb (sc_score x) (sc_score y)) eqn:E.
    + constructor; [apply IH; assumption |].
      apply Forall_forall. intros z Hz. apply insert_by_score_In in Hz.
      destruct Hz as [-> | Hz].
      * apply fltb_true_fle. exact E.
      * rewrite Forall_forall in Hy. apply Hy. exact Hz.
    + assert (Hxy : score_not_below x y) by (apply fltb_false_fle; assumption).
      constructor; [constructor; assumption |].
      constructor; [exact Hxy |].
      eapply Forall_impl; [| exact Hy].
      intros z Hz. unfold score_not_below in *. eapply fle_trans; eassumption.
Qed.

Lemma sorted_by_score_sorted (scored_segments : list scored_segment) :
  finite_scores scored_segments ->
  StronglySorted score_not_below (sorted_by_score scored_segments).
Proof.
  induction 1 as [| x xs Hx Hxs IH]; simpl; [constructor |].
  apply insert_by_score_sorted; [exact Hx | | exact IH].
  apply Forall_forall. intros y Hy.
  apply (proj1 (sorted_by_score_In y xs)) in Hy.
  unfold finite_scores in Hxs. rewrite Forall_forall in Hxs. apply Hxs. exact Hy.
Qed.

(** The selector only appends to the list of highlights. *)
Lemma select_loop_extends (sorted_segments : list scored_segment)
      (max_clips min_duration max_duration : Z) :
  forall highlights used,
  exists more,
    select_loop sorted_segments max_clips min_duration max_duration highlights used
    = (highlights ++ more)%list.
Proof.
  induction sorted_segments as [| segment rest IH]; intros hs used; simpl.
  - exists []. rewrite app_nil_r. reflexivity.
  - destruct (max_clips <=? Z.of_nat (List.length hs))%Z.
    + exists []. rewrite app_nil_r. reflexivity.
    + destruct (repair_duration _ _ _ _) as [s e].
      destruct (overlaps_used used s e); [apply IH |].
      destruct (IH (hs ++ [{| start_time := s; end_time := e;
                              text := sc_text segment; score := sc_score segment;
                              title := _generate_title (sc_text segment) |}])%list
                   (used ++ [(s, e)])%list) as [more Hmore].
      rewrite Hmore, <- app_assoc. eexists. reflexivity.
Qed.

Lemma select_loop_descends (sorted_segments : list scored_segment)
      (max_clips min_duration max_duration : Z) :
  StronglySorted score_not_below sorted_segments ->
  forall highlights used,
    ForallOrdPairs scores_descend highlights ->
    Forall (fun h => Forall (fun sc => fle (sc_score sc) (score h)) sorted_segments)
           highlights ->
    ForallOrdPairs scores_descend
      (select_loop sorted_segments max_clips min_duration max_duration
                   highlights used).
Proof.
  induction 1 as [| segment rest Hrest IH Hseg]; intros hs used Hd Hall; simpl.
  - exact Hd.
  - destruct (max_clips <=? Z.of_nat (List.length hs))%Z; [exact Hd |].
    assert (Hall' : Forall (fun h => Forall (fun sc => fle (sc_score sc) (score h)) rest)
                           hs).
    { eapply Forall_impl; [| exact Hall]. intros h Hh. inversion Hh; assumption. }
    destruct (repair_duration _ _ _ _) as [s e].
    destruct (overlaps_used used s e); [apply IH; assumption |].
    apply IH.
    + apply pairs_snoc; [exact Hd |].
      eapply Forall_impl; [| exact Hall]. intros h Hh.
      inversion Hh; subst. unfold scores_descend. simpl. assumption.
    + apply Forall_app. split; [exact Hall' |].
      constructor; [| constructor]. simpl. exact Hseg.
Qed.

(** X3: when no score is NaN the selector lists its highlights from the
    highest score down: a highlight never scores more than one listed
    before it. *)
Theorem select_highlights_by_score (scored_segments : list scored_segment)
        (max_clips min_duration max_duration : Z) (i j : nat) (a b : highlight) :
  finite_scores scored_segments ->
  (i < j)%nat ->
  nth_error (_select_highlights scored_segments max_clips min_duration max_duration) i
  = Some a ->
  nth_error (_select_highlights scored_segments max_clips min_duration max_duration) j
  = Some b ->
  fle (score b) (score a).
Proof.
  intros Hfin Hij Ha Hb.
  assert (Hd : ForallOrdPairs scores_descend
                 (_select_highlights scored_segments max_clips min_duration
                                     max_duration)).
  { unfold _select_highlights. apply select_loop_descends.
    - apply sorted_by_score_sorted. exact Hfin.
    - constructor.
    - constructor. }
  exact (pairs_nth_lt scores_descend _ Hd i j a b Hij Ha Hb).
Qed.

Lemma ranked_finite : finite_scores ranked_scored.
Proof. repeat constructor. Qed.

Lemma select_highlights_by_score_witness :
  fle (Fin 0.1) (Fin 0.9).
Proof.
  exact (select_highlights_by_score ranked_scored 3 20 40 0 1 _ _
           ranked_finite (le_n 1) eq_refl eq_refl).
Defined.

(** ** What the selection leaves out *)

Lemma overlaps_used_true (hs : list highlight) (s e : Q) :
  overlaps_used (map interval hs) s e = true ->
  exists h, In h hs /\ overlapping s e h.
Proof.
  induction hs as [| h hs IH]; simpl; [discriminate |].
  destruct (Qltb s (end_time h) && Qltb (start_time h) e) eqn:E.
  - intros _. exists h. split; [left; reflexivity |].
    apply andb_true_iff in E. destruct E as [E1 E2].
    split; now apply Qltb_true.
  - intro H. destruct (IH H) as [h' [Hin Hov]].
    exists h'. split; [right; assumption | assumption].
Qed.

Lemma select_loop_complete (sorted_segments : list scored_segment)
      (max_clips min_duration max_duration : Z) :
  forall highlights segment s e,
    In segment sorted_segments ->
    repair_duration (sc_start_time segment) (sc_end_time segment)
                    min_duration max_duration = (s, e) ->
    let out := select_loop sorted_segments max_clips min_duration max_duration
                           highlights (map interval highlights) in
    (max_clips <= Z.of_nat (List.length out))%Z
    \/ (exists h, In h out /\ made_from min_duration max_duration segment h)
    \/ (exists h, In h out /\ overlapping s e h).
Proof.
  induction sorted_segments as [| first rest IH]; intros hs segment s e Hin Hrep;
    [destruct Hin |].
  simpl.
  destruct (max_clips <=? Z.of_nat (List.length hs))%Z eqn:Efull.
  - left. apply Z.leb_le. exact Efull.
  - destruct (repair_duration (sc_start_time first) (sc_end_time first)
                              min_duration max_duration) as [s0 e0] eqn:Erep0.
    destruct (overlaps_used (map interval hs) s0 e0) eqn:Eov.
    + destruct Hin as [-> | Hin]; [| apply IH; assumption].
      right. right.
      rewrite Hrep in Erep0. inversion Erep0; subst s0 e0.
      destruct (overlaps_used_true _ _ _ Eov) as [h [Hh Hov]].
      exists h. split; [| exact Hov].
      destruct (select_loop_extends rest max_clips min_duration max_duration hs
                                    (map interval hs)) as [more ->].
      apply in_or_app. left. exact Hh.
    + set (h0 := {| start_time := s0; end_time := e0; text := sc_text first;
                    score := sc_score first;
                    title := _generate_title (sc_text first) |}).
      replace (map interval hs ++ [(s0, e0)])%list
        with (map interval (hs ++ [h0])%list)
        by (rewrite map_app; reflexivity).
      destruct Hin as [-> | Hin]; [| apply IH; assumption].
      right. left. exists h0. split.
      * destruct (select_loop_extends rest max_clips min_duration max_duration
                    (hs ++ [h0])%list (map interval (hs ++ [h0])%list))
          as [more ->].
        apply in_or_app. left. apply in_or_app. right. left. reflexivity.
      * unfold made_from, interval, h0. simpl. rewrite Erep0.
        repeat split; reflexivity.
Qed.

(** X4: the selector drops a scored segment for one of two reasons only:
    the list already holds [max_clips] highlights, or the repaired range of
    the segment overlaps a highlight of the list; otherwise the segment is in
    the list, with its repaired range, its text and its score. *)
Theorem select_highlights_complete (scored_segments : list scored_segment)
        (max_clips min_duration max_duration : Z) (segment : scored_segment)
        (s e : Q) :
  In segment scored_segments ->
  repair_duration (sc_start_time segment) (sc_end_time segment)
                  min_duration max_duration = (s, e) ->
  (max_clips
   <= Z.of_nat (List.length (_select_highlights scored_segments max_clips
                                                min_duration max_duration)))%Z
  \/ (exists h,
         In h (_select_highlights scored_segments max_clips min_duration
                                  max_duration)
         /\ made_from min_duration max_duration segment h)
  \/ (exists h,
         In h (_select_highlights scored_segments max_clips min_duration
                                  max_duration)
         /\ overlapping s e h).
Proof.
  intros Hin Hrep. unfold _select_highlights.
  apply (select_loop_complete (sorted_by_score scored_segments) max_clips
           min_duration max_duration [] segment s e);
    [apply sorted_by_score_In; exact Hin | exact Hrep].
Qed.

Lemma select_highlights_complete_witness :
  (3 <= Z.of_nat (List.length (_select_highlights ranked_scored 3 20 40)))%Z
  \/ (exists h,
         In h (_select_highlights ranked_scored 3 20 40)
         /\ made_from 20 40 ranked_second h)
  \/ (exists h,
         In h (_select_highlights ranked_scored 3 20 40)
         /\ overlapping 30 50 h).
Proof.
  exact (select_highlights_complete ranked_scored 3 20 40 ranked_second 30 50
           (or_introl eq_refl) eq_refl).
Defined.

Lemma sorted_head_best (x : scored_segment) (xs : list scored_segment) :
  StronglySorted score_not_below (x :: xs) ->
  is_nan (sc_score x) = false ->
  Forall (fun sc => fle (sc_score sc) (sc_score x)) (x :: xs).
Proof.
  intros Hs Hx. inversion Hs; subst. constructor; [| assumption].
  destruct (sc_score x); [simpl; lra | discriminate].
Qed.

(** X5: when at least one clip is requested and there is a scored segment,
    the selector returns at least one highlight, and the first one is made
    from one of the scored segments; when no score is NaN, that segment is
    a best one: no segment scores higher. *)
Theorem select_highlights_takes_best (scored_segments : list scored_segment)
        (max_clips min_duration max_duration : Z) :
  (1 <= max_clips)%Z ->
  scored_segments <> [] ->
  exists best h rest,
    In best scored_segments
    /\ _select_highlights scored_segments max_clips min_duration max_duration
       = h :: rest
    /\ made_from min_duration max_duration best h
    /\ (finite_scores scored_segments ->
        Forall (fun sc => fle (sc_score sc) (sc_score best)) scored_segments).
Proof.
  intros Hk Hne. unfold _select_highlights.
  destruct (sorted_by_score scored_segments) as [| best tail] eqn:Esort.
  - destruct scored_segments as [| x xs]; [congruence |].
    assert (Hx : In x (sorted_by_score (x :: xs)))
      by (apply sorted_by_score_In; left; reflexivity).
    rewrite Esort in Hx. destruct Hx.
  - assert (Hbest : In best scored_segments)
      by (apply sorted_by_score_In; rewrite Esort; left; reflexivity).
    simpl.
    destruct (max_clips <=? 0)%Z eqn:E; [apply Z.leb_le in E; lia |].
    destruct (repair_duration (sc_start_time best) (sc_end_time best)
                              min_duration max_duration) as [s e] eqn:Erep.
    destruct (select_loop_extends tail max_clips min_duration max_duration
                [{| start_time := s; end_time := e; text := sc_text best;
                    score := sc_score best;
                    title := _generate_title (sc_text best) |}]
                [(s, e)]) as [more Hmore].
    exists best. eexists. exists more.
    split; [exact Hbest |]. split; [exact Hmore |].
    split; [unfold made_from, interval; simpl; rewrite Erep; repeat split; reflexivity |].
    intro Hfin.
    pose proof (sorted_by_score_sorted _ Hfin) as Hs. rewrite Esort in Hs.
    assert (Hnan : is_nan (sc_score best) = false).
    { unfold finite_scores in Hfin. rewrite Forall_forall in Hfin.
      apply Hfin. exact Hbest. }
    pose proof (sorted_head_best best tail Hs Hnan) as Hall.
    apply Forall_forall. intros sc Hsc. rewrite Forall_forall in Hall.
    apply Hall. rewrite <- Esort. apply sorted_by_score_In. exact Hsc.
Qed.

Lemma select_highlights_takes_best_witness :
  exists best h rest,
    In best ranked_scored
    /\ _select_highlights ranked_scored 3 20 40 = h :: rest
    /\ made_from 20 40 best h
    /\ Forall (fun sc => fle (sc_score sc) (sc_score best)) ranked_scored.
Proof.
  destruct (select_highlights_takes_best ranked_scored 3 20 40 ltac:(lia)
              ltac:(discriminate)) as (best & h & rest & H1 & H2 & H3 & H4).
  exists best, h, rest. repeat (split; [assumption |]). exact (H4 ranked_finite).
Defined.

(** ** The range of a highlight and the range of its segment *)

Lemma py_max_ge_l (a b : Q) : a <= py_max a b.
Proof.
  destruct (py_max_cases a b) as [[L ->] | [L ->]]; lra.
Qed.

Lemma repair_duration_shape (seg_s seg_e : Q) (min_duration max_duration : Z)
      (s e : Q) :
  repair_duration seg_s seg_e min_duration max_duration = (s, e) ->
  (seg_e - seg_s < inject_Z min_duration -> 0 <= seg_s ->
   0 <= s /\ s <= seg_s /\ seg_e <= e)
  /\ (inject_Z min_duration <= seg_e - seg_s ->
      inject_Z max_duration < seg_e - seg_s ->
      s = seg_s /\ e <= seg_e /\ about (e - s) (inject_Z max_duration))
  /\ (inject_Z min_duration <= seg_e - seg_s ->
      seg_e - seg_s <= inject_Z max_duration ->
      s = seg_s /\ e = seg_e).
Proof.
  unfold repair_duration, about, millisecond.
  destruct (Qltb (seg_e - seg_s) (inject_Z min_duration)) eqn:Eshort; simpl.
  - apply Qltb_true in Eshort. intro H. inversion H; subst; clear H.
    set (extension := (inject_Z min_duration - (seg_e - seg_s)) / 2).
    assert (Hext : 2 * extension == inject_Z min_duration - (seg_e - seg_s))
      by (unfold extension; field).
    clearbody extension.
    split; [| split; intros; lra].
    intros _ H0.
    pose proof (py_max_ge_l 0 (seg_s - extension)) as Hge.
    destruct (py_max_cases 0 (seg_s - extension)) as [[Hc Heq] | [Hc Heq]];
      rewrite Heq in *; repeat split; lra.
  - apply Qltb_false in Eshort.
    destruct (Qltb (inject_Z max_duration) (seg_e - seg_s)) eqn:Elong.
    + apply Qltb_true in Elong. intro H. inversion H; subst; clear H.
      split; [intros; lra |]. split.
      * intros _ _. split; [reflexivity |]. split; [lra |]. split; lra.
      * intros; lra.
    + apply Qltb_false in Elong. intro H. inversion H; subst; clear H.
      split; [intros; lra |]. split; [intros; lra |].
      intros _ _. split; reflexivity.
Qed.

(** X6: with [min_duration <= max_duration], a highlight of the selector
    comes from a scored segment, and its range is: the range of the segment
    when the segment lasts between the two limits; a range that starts with
    the segment, does not reach beyond its end and lasts [max_duration], to
    within a millisecond, when the segment is longer; a range that covers
    the segment and starts at or after 0 when the segment is shorter than
    [min_duration] and does not start before 0.  (The order of the limits
    keeps a segment whose length rounds to [min_duration] out of the
    trimming branch.) *)
Theorem highlight_covers_segment (scored_segments : list scored_segment)
        (max_clips min_duration max_duration : Z) (h : highlight) :
  (min_duration <= max_duration)%Z ->
  In h (_select_highlights scored_segments max_clips min_duration max_duration) ->
  exists segment,
    In segment scored_segments
    /\ text h = sc_text segment
    /\ (sc_end_time segment - sc_start_time segment < inject_Z min_duration ->
        0 <= sc_start_time segment ->
        0 <= start_time h
        /\ start_time h <= sc_start_time segment
        /\ sc_end_time segment <= end_time h)
    /\ (inject_Z min_duration <= sc_end_time segment - sc_start_time segment ->
        inject_Z max_duration < sc_end_time segment - sc_start_time segment ->
        start_time h = sc_start_time segment
        /\ end_time h <= sc_end_time segment
        /\ about (duration h) (inject_Z max_duration))
    /\ (inject_Z min_duration <= sc_end_time segment - sc_start_time segment ->
        sc_end_time segment - sc_start_time segment <= inject_Z max_duration ->
        start_time h = sc_start_time segment
        /\ end_time h = sc_end_time segment).
Proof.
  intros _ Hin. apply select_highlights_member in Hin.
  destruct Hin as (sg & Hsg & Hrep & Htext & _).
  exists sg. split; [exact Hsg |]. split; [exact Htext |].
  symmetry in Hrep. exact (repair_duration_shape _ _ _ _ _ _ Hrep).
Qed.

(** A segment of 100 seconds and the highlight that the selector makes of
    it with the limits 30 and 60. *)
Lemma highlight_covers_segment_witness :
  exists segment,
    In segment [long_scored]
    /\ text long_highlight = sc_text segment
    /\ start_time long_highlight = sc_start_time segment
    /\ end_time long_highlight <= sc_end_time segment
    /\ about (duration long_highlight) (inject_Z 60).
Proof.
  destruct (highlight_covers_segment [long_scored] 3 30 60 long_highlight
              ltac:(lia) (or_introl eq_refl)) as (sg & Hin & Htext & _ & Hlong & _).
  exists sg. split; [exact Hin |]. split; [exact Htext |].
  destruct Hin as [<- | []].
  apply Hlong; vm_compute; [discriminate | reflexivity].
Defined.

(** ** The windows of the fallback: gaps, span and titles *)

Lemma fallback_loop_gap (transcription : list segment) (d L s0 : Q) :
  last_end transcription = Ok L ->
  0 <= d ->
  forall remaining i c acc out,
    fallback_loop transcription d remaining i c acc = Ok out ->
    s0 <= c ->
    ForallOrdPairs gap_between acc ->
    Forall (fun h => end_time h + 10 <= c) acc ->
    Forall (fun h => s0 <= start_time h /\ end_time h <= L) acc ->
    ForallOrdPairs gap_between out
    /\ Forall (fun h => s0 <= start_time h /\ end_time h <= L) out.
Proof.
  intros HL Hd. induction remaining as [| n IH];
    intros i c acc out Hrun Hc Hgap Hend Hspan.
  - simpl in Hrun. inversion Hrun; subst. split; assumption.
  - simpl in Hrun. rewrite HL in Hrun. simpl in Hrun.
    destruct (window_text transcription c (py_min (c + d) L) "") as [txt | err];
      [| discriminate].
    simpl in Hrun.
    set (e := py_min (c + d) L) in *.
    set (h := {| start_time := c; end_time := e; text := strip txt;
                 score := Fin 0.5;
                 title := ("Highlight " ++ str_of_nat (i + 1))%string |}) in *.
    set (acc' := if truthy (strip txt) then (acc ++ [h])%list else acc) in *.
    pose proof (py_min_le_r (c + d) L) as HeL. fold e in HeL.
    assert (Hgap' : ForallOrdPairs gap_between acc').
    { unfold acc'. destruct (truthy (strip txt)); [| assumption].
      apply pairs_snoc; [assumption |].
      eapply Forall_impl; [| exact Hend]. intros y Hy.
      unfold gap_between, h. simpl. exact Hy. }
    assert (Hspan' : Forall (fun h => s0 <= start_time h /\ end_time h <= L) acc').
    { unfold acc'. destruct (truthy (strip txt)); [| assumption].
      apply Forall_app. split; [assumption |].
      constructor; [| constructor]. unfold h. simpl. split; assumption. }
    destruct (Qle_bool L (e + 10)) eqn:Estop.
    + assert (Hout : out = acc') by (inversion Hrun; reflexivity).
      rewrite Hout. split; assumption.
    + apply Qle_bool_false in Estop.
      assert (He : e == c + d).
      { unfold e. destruct (py_min_cases (c + d) L) as [[Hlt Heq] | [Hlt Heq]];
          rewrite Heq; [| reflexivity].
        exfalso. unfold e in Estop. rewrite Heq in Estop. lra. }
      apply (IH (S i) (e + 10) acc' out Hrun); try assumption; [lra |].
      unfold acc'. destruct (truthy (strip txt)).
      * apply Forall_app. split.
        -- eapply Forall_impl; [| exact Hend]. intros y Hy. simpl in Hy. lra.
        -- constructor; [| constructor]. unfold h. simpl. lra.
      * eapply Forall_impl; [| exact Hend]. intros y Hy. simpl in Hy. lra.
Qed.

(** X7: with limits that are not negative, the highlights of the fallback
    are in chronological order: each one ends before any later one starts,
    with 10 seconds between them, to within a millisecond; and each lies
    between the start of the first segment and the end of the last one. *)
Theorem fallback_windows_apart (transcription : list segment)
        (max_clips min_duration max_duration : Z) (hs : list highlight)
        (s0 L : Q) :
  (0 <= min_duration)%Z ->
  (0 <= max_duration)%Z ->
  _fallback_highlights transcription max_clips min_duration max_duration = Ok hs ->
  first_start transcription = Ok s0 ->
  last_end transcription = Ok L ->
  (forall i j a b, (i < j)%nat ->
     nth_error hs i = Some a -> nth_error hs j = Some b ->
     end_time a < start_time b
     /\ end_time a + 10 - millisecond <= start_time b)
  /\ (forall h, In h hs -> s0 <= start_time h /\ end_time h <= L).
Proof.
  intros Hmn Hmx Hrun Hs0 HL.
  assert (Hmn' : 0 <= inject_Z min_duration) by (rewrite Zle_Qle in Hmn; exact Hmn).
  assert (Hmx' : 0 <= inject_Z max_duration) by (rewrite Zle_Qle in Hmx; exact Hmx).
  unfold _fallback_highlights in Hrun.
  destruct transcription as [| first rest]; [discriminate |].
  rewrite HL, Hs0 in Hrun. simpl in Hrun.
  destruct (py_div (L - s0) (inject_Z max_clips)) as [share |]; [| discriminate].
  simpl in Hrun.
  assert (Hd : 0 <= py_min (inject_Z max_duration)
                          (py_max (inject_Z min_duration) share)).
  { pose proof (py_max_ge_l (inject_Z min_duration) share).
    destruct (py_min_cases (inject_Z max_duration)
                           (py_max (inject_Z min_duration) share))
      as [[Hc ->] | [Hc ->]]; lra. }
  destruct (fallback_loop_gap _ _ L s0 HL Hd _ _ _ _ _ Hrun
                              ltac:(lra) ltac:(constructor) ltac:(constructor)
                              ltac:(constructor)) as [Hgap Hspan].
  split.
  - intros i j a b Hij Ha Hb.
    pose proof (pairs_nth_lt gap_between hs Hgap i j a b Hij Ha Hb) as Hab.
    unfold gap_between in Hab. unfold millisecond. split; lra.
  - intros h Hh. rewrite Forall_forall in Hspan. apply Hspan. exact Hh.
Qed.

Lemma fallback_windows_apart_witness :
  (forall i j a b, (i < j)%nat ->
     nth_error [gap_first; gap_third] i = Some a ->
     nth_error [gap_first; gap_third] j = Some b ->
     end_time a < start_time b
     /\ end_time a + 10 - millisecond <= start_time b)
  /\ (forall h, In h [gap_first; gap_third] -> 0 <= start_time h /\ end_time h <= 80).
Proof.
  apply (fallback_windows_apart gap_transcript 3 10 20 [gap_first; gap_third] 0 80);
    [lia | lia | vm_compute; reflexivity | reflexivity | reflexivity].
Defined.

Lemma fallback_loop_titles (transcription : list segment) (d : Q) :
  forall remaining i c acc out,
    fallback_loop transcription d remaining i c acc = Ok out ->
    exists more ks,
      out = (acc ++ more)%list
      /\ map title more = map fallback_title ks
      /\ StronglySorted lt ks
      /\ Forall (fun k => (i + 1 <= k <= i + remaining)%nat) ks
      /\ Forall (fun h => score h = Fin 0.5 /\ text h <> ""%string) more.
Proof.
  induction remaining as [| n IH]; intros i c acc out Hrun.
  - simpl in Hrun. inversion Hrun; subst. exists [], [].
    rewrite app_nil_r. repeat split; constructor.
  - simpl in Hrun.
    destruct (last_end transcription) as [L |]; [| discriminate]. simpl in Hrun.
    destruct (window_text transcription c (py_min (c + d) L) "") as [txt | err];
      [| discriminate].
    simpl in Hrun.
    match type of Hrun with
    | context [if truthy (strip txt) then (acc ++ [?x])%list else acc] =>
        set (h := x) in *
    end.
    assert (Hstep : exists new ks0,
               (if truthy (strip txt) then (acc ++ [h])%list else acc)
               = (acc ++ new)%list
               /\ map title new = map fallback_title ks0
               /\ Forall (fun k => k = (i + 1)%nat) ks0
               /\ (List.length ks0 <= 1)%nat
               /\ Forall (fun h => score h = Fin 0.5 /\ text h <> ""%string) new).
    { destruct (truthy (strip txt)) eqn:Etxt.
      - exists [h], [(i + 1)%nat].
        split; [reflexivity |]. split; [reflexivity |].
        split; [repeat constructor |]. split; [apply le_n |].
        constructor; [| constructor]. unfold h. simpl. split; [reflexivity |].
        intro E. rewrite E in Etxt. discriminate.
      - exists [], []. rewrite app_nil_r.
        split; [reflexivity |]. split; [reflexivity |].
        split; [constructor |]. split; [apply Nat.le_0_l | constructor]. }
    destruct Hstep as (new & ks0 & Hacc & Htitles & Hks0 & Hlen & Hnew).
    rewrite Hacc in Hrun.
    destruct (Qle_bool L (py_min (c + d) L + 10)).
    + inversion Hrun; subst out. exists new, ks0.
      split; [reflexivity |]. split; [exact Htitles |].
      split.
      * destruct ks0 as [| k [| k' ks']]; simpl in Hlen; try lia;
          repeat constructor.
      * split; [| exact Hnew].
        eapply Forall_impl; [| exact Hks0]. intros k ->. lia.
    + destruct (IH _ _ _ _ Hrun) as (more & ks & Hout & Ht & Hsorted & Hrange & Hmore).
      exists (new ++ more)%list, (ks0 ++ ks)%list.
      split; [rewrite Hout, app_assoc; reflexivity |].
      split; [rewrite !map_app, Htitles, Ht; reflexivity |].
      split.
      * destruct ks0 as [| k [| k' ks']]; simpl in Hlen; try lia; simpl;
          [exact Hsorted |].
        constructor; [exact Hsorted |].
        inversion Hks0; subst.
        eapply Forall_impl; [| exact Hrange]. intros k' Hk'. simpl in Hk'. lia.
      * split.
        -- apply Forall_app. split.
           ++ eapply Forall_impl; [| exact Hks0]. intros k ->. lia.
           ++ eapply Forall_impl; [| exact Hrange]. intros k Hk. simpl in Hk. lia.
        -- apply Forall_app. split; assumption.
Qed.

(** X8: every highlight of the fallback has the score 0.5 and a text that
    is not empty, and the titles are "Highlight k" for numbers k that
    strictly increase along the list and lie between 1 and [max_clips]. *)
Theorem fallback_titles_numbered (transcription : list segment)
        (max_clips min_duration max_duration : Z) (hs : list highlight) :
  _fallback_highlights transcription max_clips min_duration max_duration = Ok hs ->
  exists ks,
    map title hs = map fallback_title ks
    /\ StronglySorted lt ks
    /\ Forall (fun k => (1 <= k <= Z.to_nat max_clips)%nat) ks
    /\ Forall (fun h => score h = Fin 0.5 /\ text h <> ""%string) hs.
Proof.
  unfold _fallback_highlights.
  destruct transcription as [| first rest].
  - intro H. inversion H; subst. exists []. repeat split; constructor.
  - destruct (last_end (first :: rest)) as [L |]; [| discriminate]. simpl.
    destruct (first_start (first :: rest)) as [c |]; [| discriminate]. simpl.
    destruct (py_div (L - c) (inject_Z max_clips)) as [share |]; [| discriminate].
    simpl. intro Hrun.
    destruct (fallback_loop_titles _ _ _ _ _ _ _ Hrun)
      as (more & ks & Hout & Ht & Hsorted & Hrange & Hmore).
    simpl in Hout. subst hs. exists ks.
    split; [exact Ht |]. split; [exact Hsorted |]. split; [| exact Hmore].
    eapply Forall_impl; [| exact Hrange]. intros k Hk. simpl in Hk. lia.
Qed.

Lemma fallback_titles_numbered_witness :
  exists ks,
    map title [gap_first; gap_third] = map fallback_title ks
    /\ StronglySorted lt ks
    /\ Forall (fun k => (1 <= k <= Z.to_nat 3)%nat) ks
    /\ Forall (fun h => score h = Fin 0.5 /\ text h <> ""%string)
              [gap_first; gap_third].
Proof.
  apply (fallback_titles_numbered gap_transcript 3 10 20).
  vm_compute. reflexivity.
Defined.

(** ** No clip requested *)

Lemma has_keys_ends (first : segment) (rest : list segment) :
  forallb has_keys (first :: rest) = true ->
  exists s0 L, first_start (first :: rest) = Ok s0 /\ last_end (first :: rest) = Ok L.
Proof.
  intro Hkeys.
  assert (Hs : exists s0, first_start (first :: rest) = Ok s0).
  { simpl in Hkeys. apply andb_true_iff in Hkeys. destruct Hkeys as [Hk _].
    unfold has_keys in Hk. unfold first_start. simpl.
    destruct (seg_start first); [eexists; reflexivity |].
    rewrite andb_false_r in Hk. discriminate. }
  destruct Hs as [s0 Hs]. exists s0.
  enough (HL : exists L, last_end (first :: rest) = Ok L)
    by (destruct HL as [L HL]; exists L; split; assumption).
  clear Hs. revert first Hkeys.
  induction rest as [| x xs IH]; intros first Hkeys.
  - simpl in Hkeys. rewrite andb_true_r in Hkeys. unfold has_keys in Hkeys.
    unfold last_end. simpl.
    destruct (seg_end first); [eexists; reflexivity |].
    rewrite andb_false_r in Hkeys. discriminate.
  - simpl in Hkeys. apply andb_true_iff in Hkeys. destruct Hkeys as [_ Hkeys].
    destruct (IH x Hkeys) as [L HL]. exists L.
    unfold last_end in *. simpl in *. exact HL.
Qed.

Lemma select_nothing (scored_segments : list scored_segment)
      (max_clips min_duration max_duration : Z) :
  (max_clips <= 0)%Z ->
  _select_highlights scored_segments max_clips min_duration max_duration = [].
Proof.
  intro Hk. unfold _select_highlights.
  destruct (sorted_by_score scored_segments) as [| x xs]; [reflexivity |].
  simpl. destruct (max_clips <=? 0)%Z eqn:E; [reflexivity |].
  apply Z.leb_gt in E. lia.
Qed.

(** X9: when [max_clips] is 0 or negative, the detection call on a
    transcript whose segments have their keys returns no highlight; the
    fallback generator called with 0 on such a transcript (not empty)
    raises ZeroDivisionError, and with a negative number it returns no
    highlight. *)
Theorem no_clip_requested (np_sqrt : Q -> Q) (service : result audio_features)
        (transcription : list segment)
        (max_clips min_duration max_duration : Z) :
  forallb has_keys transcription = true ->
  transcription <> [] ->
  (max_clips <= 0)%Z ->
  detect_highlights np_sqrt service transcription max_clips min_duration max_duration
  = Ok []
  /\ _fallback_highlights transcription max_clips min_duration max_duration
     = (if (max_clips =? 0)%Z then Raise ZeroDivisionError else Ok []).
Proof.
  intros Hkeys Hne Hk. split.
  - destruct (detect_highlights_returns np_sqrt service transcription max_clips
                min_duration max_duration Hkeys) as [scored ->].
    rewrite select_nothing; [reflexivity | exact Hk].
  - destruct transcription as [| first rest]; [congruence |].
    destruct (has_keys_ends first rest Hkeys) as (s0 & L & Hs0 & HL).
    unfold _fallback_highlights. rewrite HL, Hs0. simpl.
    unfold py_div.
    destruct (max_clips =? 0)%Z eqn:E.
    + apply Z.eqb_eq in E. subst max_clips. reflexivity.
    + apply Z.eqb_neq in E.
      destruct (Qeq_bool (inject_Z max_clips) 0) eqn:Ez.
      * apply Qeq_bool_eq in Ez. unfold Qeq in Ez. simpl in Ez. lia.
      * simpl.
        replace (Z.to_nat max_clips) with 0%nat by lia. reflexivity.
Qed.

Lemma no_clip_requested_witness :
  detect_highlights floor_sqrt (Ok empty_audio) clamped_transcript 0 30 60 = Ok []
  /\ _fallback_highlights clamped_transcript 0 30 60 = Raise ZeroDivisionError.
Proof.
  apply (no_clip_requested floor_sqrt (Ok empty_audio) clamped_transcript 0 30 60);
    [reflexivity | discriminate | lia].
Defined.

(** ** The scored segments and the audio dict *)

Lemma score_loop_data
      (engagement emotion question exclamation rates : list Q)
      (audio : audio_features) (segments : list segment) :
  forall i acc out,
    score_loop engagement emotion question exclamation rates audio segments i acc
    = Ok out ->
    exists more, out = (acc ++ more)%list /\ Forall2 scored_from segments more.
Proof.
  induction segments as [| segment rest IH]; intros i acc out Hrun; simpl in Hrun.
  - inversion Hrun; subst. exists []. rewrite app_nil_r. split; constructor.
  - destruct (segment_score _ _ _ _ _ _ _ _) as [v |]; [| discriminate].
    simpl in Hrun.
    destruct (seg_start segment) as [s |] eqn:Hs; [| discriminate].
    destruct (seg_end segment) as [e |] eqn:He; [| discriminate].
    destruct (seg_text segment) as [raw |] eqn:Hraw; [| discriminate].
    simpl in Hrun.
    destruct (IH _ _ _ Hrun) as [more [Hout Hall]].
    eexists (_ :: more). rewrite Hout, <- app_assoc. simpl.
    split; [reflexivity |].
    constructor; [| exact Hall].
    unfold scored_from. simpl. rewrite Hs, He, Hraw. repeat split; reflexivity.
Qed.

(** X10: when the scorer returns, it returns one scored segment for each
    transcript segment, in the same order, with the start, the end and the
    text of that segment, and with its confidence (0 when the segment has
    none), whatever the text features are. *)
Theorem score_segments_keeps_data (np_sqrt : Q -> Q) (transcription : list segment)
        (features : text_features) (audio : audio_features)
        (scored_segments : list scored_segment) :
  _score_segments np_sqrt transcription features audio = Ok scored_segments ->
  Forall2 scored_from transcription scored_segments.
Proof.
  unfold _score_segments.
  destruct (1 <? List.length (np_array (engagement_scores features)))%nat;
    intro Hrun;
    destruct (score_loop_data _ _ _ _ _ _ _ _ _ _ Hrun) as [more [-> Hall]];
    exact Hall.
Qed.

Lemma score_segments_keeps_data_witness :
  exists scored_segments,
    _score_segments floor_sqrt clamped_transcript clamped_features coarse_audio
    = Ok scored_segments
    /\ Forall2 scored_from clamped_transcript scored_segments.
Proof.
  eexists. split; [vm_compute; reflexivity |].
  apply (score_segments_keeps_data floor_sqrt clamped_transcript clamped_features
                                   coarse_audio).
  vm_compute. reflexivity.
Defined.

Lemma segment_score_same_audio
      (engagement emotion question exclamation rates : list Q)
      (audio1 audio2 : audio_features) (i : nat) (segment : segment) :
  rms_energy audio1 = rms_energy audio2 ->
  time_axis audio1 = time_axis audio2 ->
  segment_score engagement emotion question exclamation rates audio1 i segment
  = segment_score engagement emotion question exclamation rates audio2 i segment.
Proof.
  intros Hrms Haxis. unfold segment_score, audio_scoring.
  rewrite !truthy_with_rms, Hrms, Haxis. reflexivity.
Qed.

Lemma score_loop_same_audio
      (engagement emotion question exclamation rates : list Q)
      (audio1 audio2 : audio_features) (segments : list segment) :
  rms_energy audio1 = rms_energy audio2 ->
  time_axis audio1 = time_axis audio2 ->
  forall i acc,
    score_loop engagement emotion question exclamation rates audio1 segments i acc
    = score_loop engagement emotion question exclamation rates audio2 segments i acc.
Proof.
  intros Hrms Haxis. induction segments as [| segment rest IH]; intros i acc; simpl;
    [reflexivity |].
  rewrite (segment_score_same_audio _ _ _ _ _ audio1 audio2 i segment Hrms Haxis).
  destruct (segment_score _ _ _ _ _ audio2 i segment); simpl; [| reflexivity].
  destruct (seg_start segment); simpl; [| reflexivity].
  destruct (seg_end segment); simpl; [| reflexivity].
  destruct (seg_text segment); simpl; [| reflexivity].
  apply IH.
Qed.

(** X11: the detection call reads the "rms_energy" and "time_axis" entries
    of the audio dict and nothing else: two dicts that agree on them give
    the same result.  So the dict with only "duration" that the audio
    service returns when librosa fails gives the result of the empty
    dict. *)
Theorem detection_reads_two_audio_keys (np_sqrt : Q -> Q)
        (audio1 audio2 : audio_features) (transcription : list segment)
        (max_clips min_duration max_duration : Z) :
  rms_energy audio1 = rms_energy audio2 ->
  time_axis audio1 = time_axis audio2 ->
  detect_highlights np_sqrt (Ok audio1) transcription max_clips min_duration
                    max_duration
  = detect_highlights np_sqrt (Ok audio2) transcription max_clips min_duration
                      max_duration.
Proof.
  intros Hrms Haxis. unfold detect_highlights, scored_path.
  destruct (_extract_text_features transcription) as [features |]; simpl;
    [| reflexivity].
  unfold _score_segments.
  destruct (1 <? List.length (np_array (engagement_scores features)))%nat;
    rewrite (score_loop_same_audio _ _ _ _ _ audio1 audio2 transcription Hrms Haxis);
    reflexivity.
Qed.

Lemma detection_reads_two_audio_keys_witness :
  detect_highlights floor_sqrt (Ok duration_only_audio) clamped_transcript 3 30 60
  = detect_highlights floor_sqrt (Ok empty_audio) clamped_transcript 3 30 60.
Proof.
  exact (detection_reads_two_audio_keys floor_sqrt duration_only_audio empty_audio
           clamped_transcript 3 30 60 eq_refl eq_refl).
Defined.

(** ** Text features: absent keys, punctuation, words and speaking rate *)

Lemma first_missing_has_keys (transcription : list segment) :
  first_missing_key transcription = None <-> forallb has_keys transcription = true.
Proof.
  induction transcription as [| segment rest IH]; simpl; [tauto |].
  unfold has_keys.
  destruct (seg_text segment), (seg_end segment), (seg_start segment); simpl;
    try (split; [discriminate | discriminate]).
  exact IH.
Qed.

Lemma text_features_loop_raise (transcription : list segment) :
  forall features key,
    first_missing_key transcription = Some key ->
    for_each text_features_step transcription features = Raise (KeyError key).
Proof.
  induction transcription as [| segment rest IH]; intros f key Hkey; simpl in *;
    [discriminate |].
  unfold text_features_step at 1.
  destruct (seg_text segment) as [raw |]; simpl;
    [| inversion Hkey; reflexivity].
  destruct (seg_end segment) as [e |]; simpl; [| inversion Hkey; reflexivity].
  destruct (seg_start segment) as [s |]; simpl; [| inversion Hkey; reflexivity].
  rewrite py_div_floor. simpl. apply IH. exact Hkey.
Qed.

(** X1: the text features are extracted exactly when every segment has the
    keys "text", "end" and "start"; the result then has one entry per
    segment, in order, in each of its six lists.  Otherwise the call raises
    KeyError for the first absent key (in the order "text", "end", "start")
    of the first segment that lacks one. *)
Theorem text_features_or_key_error (transcription : list segment) :
  _extract_text_features transcription
  = match first_missing_key transcription with
    | None => Ok (features_of transcription)
    | Some key => Raise (KeyError key)
    end.
Proof.
  destruct (first_missing_key transcription) as [key |] eqn:Hkey.
  - apply text_features_loop_raise. exact Hkey.
  - apply first_missing_has_keys in Hkey.
    destruct (extract_text_features_returns transcription Hkey) as [f Hrun].
    rewrite Hrun. f_equal.
    destruct (extract_text_features_ok _ _ Hrun) as (_ & E1 & E2 & E3 & E4 & E5 & E6).
    destruct f; simpl in *. unfold features_of. congruence.
Qed.

Lemma to_lower_not_letter (a c : ascii) :
  is_upper c = false -> is_lower c = false ->
  Ascii.eqb (to_lower a) c = Ascii.eqb a c.
Proof.
  intros Hu Hl.
  destruct (Ascii.eqb a c) eqn:E.
  - apply Ascii.eqb_eq in E. subst a. unfold to_lower. rewrite Hu.
    apply Ascii.eqb_refl.
  - unfold to_lower. destruct (is_upper a) eqn:Ea; [| exact E].
    apply Ascii.eqb_neq. intro Heq. subst c.
    revert Ea Hl. clear.
    destruct a as [[] [] [] [] [] [] [] []]; vm_compute; congruence.
Qed.

Lemma count_char_lower (c : ascii) (s : string) :
  is_upper c = false -> is_lower c = false ->
  count_char c (lower s) = count_char c s.
Proof.
  intros Hu Hl. induction s as [| a s IH]; simpl; [reflexivity |].
  rewrite (to_lower_not_letter a c Hu Hl), IH. reflexivity.
Qed.

Lemma is_space_to_lower (a : ascii) : is_space (to_lower a) = is_space a.
Proof.
  destruct a as [[] [] [] [] [] [] [] []]; reflexivity.
Qed.

Lemma split_scan_lower_length (s : string) :
  forall cur cur',
    (cur = [] <-> cur' = []) ->
    List.length (split_scan (lower s) cur') = List.length (split_scan s cur).
Proof.
  induction s as [| a s IH]; intros cur cur' Hc; simpl.
  - destruct cur, cur'; try reflexivity.
    + destruct Hc as [Hc _]. specialize (Hc eq_refl). discriminate.
    + destruct Hc as [_ Hc]. specialize (Hc eq_refl). discriminate.
  - rewrite is_space_to_lower. destruct (is_space a).
    + destruct cur, cur'; simpl.
      * apply IH. tauto.
      * destruct Hc as [Hc _]. specialize (Hc eq_refl). discriminate.
      * destruct Hc as [_ Hc]. specialize (Hc eq_refl). discriminate.
      * f_equal. apply IH. tauto.
    + apply IH. split; discriminate.
Qed.

Lemma split_lower_length (s : string) :
  List.length (split (lower s)) = List.length (split s).
Proof.
  unfold split. apply split_scan_lower_length. tauto.
Qed.

Lemma rate_bounds (a d : Q) :
  0 <= a -> 1 <= d -> 0 <= a / d /\ a / d <= a.
Proof.
  intros Ha Hd. split.
  - apply Qle_shift_div_l; lra.
  - apply Qle_shift_div_r; [lra | nra].
Qed.

Lemma Qnat_nonneg (n : nat) : 0 <= Qnat n.
Proof.
  unfold Qnat. change 0 with (inject_Z 0). rewrite <- Zle_Qle. lia.
Qed.

(** X2: for a segment of a transcript whose features were extracted, the
    question and exclamation scores are the numbers of "?" and "!" in the
    text as given (lower-casing does not touch them), the word count is the
    number of white-space separated words of the text as given, and the
    speaking rate lies between 0 and the word count: it is the word count
    divided by the duration when the segment lasts a second or more, and
    the word count itself when it lasts a second or less (also when the
    duration is zero or negative). *)
Theorem text_signals_of_segment (transcription : list segment)
        (features : text_features) (i : nat) (segment : segment)
        (raw : string) (s e : Q) :
  _extract_text_features transcription = Ok features ->
  nth_error transcription i = Some segment ->
  seg_text segment = Some raw ->
  seg_start segment = Some s ->
  seg_end segment = Some e ->
  nth_error (question_scores features) i = Some (count_char "?"%char raw)
  /\ nth_error (exclamation_scores features) i = Some (count_char "!"%char raw)
  /\ nth_error (word_counts features) i = Some (List.length (split raw))
  /\ exists rate,
       nth_error (speaking_rates features) i = Some rate
       /\ 0 <= rate
       /\ rate <= Qnat (List.length (split raw))
       /\ (1 <= e - s -> rate == Qnat (List.length (split raw)) / (e - s))
       /\ (e - s <= 1 -> rate == Qnat (List.length (split raw))).
Proof.
  intros Hrun Hi Hraw Hs He.
  apply extract_text_features_ok in Hrun.
  destruct Hrun as (_ & _ & _ & E3 & E4 & E5 & E6).
  rewrite E3, E4, E5, E6, !nth_error_map, Hi. simpl.
  unfold question_of, exclamation_of, words_of, rate_of, words_of, lowered.
  rewrite Hraw, Hs, He. simpl dict_get.
  rewrite !count_char_lower by reflexivity.
  rewrite split_lower_length.
  split; [reflexivity |]. split; [reflexivity |]. split; [reflexivity |].
  eexists. split; [reflexivity |].
  pose proof (Qnat_nonneg (List.length (split raw))) as Hn.
  pose proof (py_max_floor (e - s)) as Hd.
  destruct (rate_bounds _ _ Hn Hd) as [H0 H1].
  split; [exact H0 |]. split; [exact H1 |].
  split; intro Hdur.
  - destruct (py_max_cases (e - s) 1) as [[Hc Heq] | [Hc Heq]]; rewrite Heq.
    + assert (Hone : e - s == 1) by lra. rewrite Hone. reflexivity.
    + reflexivity.
  - destruct (py_max_cases (e - s) 1) as [[Hc Heq] | [Hc Heq]]; rewrite Heq.
    + field.
    + assert (Hone : e - s == 1) by lra. rewrite Hone. field.
Qed.

Lemma text_signals_of_segment_witness :
  nth_error (question_scores clamped_features) 0 = Some (count_char "?"%char "wow this is it")
  /\ nth_error (exclamation_scores clamped_features) 0
     = Some (count_char "!"%char "wow this is it")
  /\ nth_error (word_counts clamped_features) 0
     = Some (List.length (split "wow this is it"))
  /\ exists rate,
       nth_error (speaking_rates clamped_features) 0 = Some rate
       /\ 0 <= rate
       /\ rate <= Qnat (List.length (split "wow this is it"))
       /\ (1 <= 15 - 5 -> rate == Qnat (List.length (split "wow this is it")) / (15 - 5))
       /\ (15 - 5 <= 1 -> rate == Qnat (List.length (split "wow this is it"))).
Proof.
  exact (text_signals_of_segment clamped_transcript clamped_features 0
           (seg "wow this is it" 5 15) "wow this is it" 5 15
           eq_refl eq_refl eq_refl eq_refl eq_refl).
Defined.

(** ** The audio features of the transcription service *)





Lemma Qnat_le (i j : nat) : (i <= j)%nat -> Qnat i <= Qnat j.
Proof.
  intro H. unfold Qnat. rewrite <- Zle_Qle. lia.
Qed.







(** ** From the Whisper result to the highlights *)

Lemma transcribe_loop_keys (raw_segments : list whisper_segment) :
  forall segments out,
    transcribe_loop raw_segments segments = Ok out ->
    forallb has_keys segments = true ->
    forallb has_keys out = true
    /\ List.length out = (List.length segments + List.length raw_segments)%nat.
Proof.
  induction raw_segments as [| w rest IH]; intros acc out Hrun Hacc; simpl in Hrun.
  - inversion Hrun; subst. split; [assumption | simpl; lia].
  - destruct (w_start w) as [s |]; [| discriminate].
    destruct (w_end w) as [e |]; [| discriminate].
    destruct (w_text w) as [raw |]; [| discriminate].
    simpl in Hrun.
    destruct (IH _ _ Hrun) as [Hk Hn].
    + rewrite forallb_app, Hacc. reflexivity.
    + split; [exact Hk |]. rewrite Hn, length_app. simpl. lia.
Qed.

(** X13: when [transcribe] returns, it returns one segment for each segment
    of the Whisper result, each with its "text", "start" and "end"
    keys, so the detection call on that transcript returns by
    the scored path: it neither raises nor uses the fallback, whatever the
    audio service does.  When [transcribe] raises, the exception carries the
    message "Failed to transcribe video: " followed by the text of the
    cause. *)
Theorem transcribe_feeds_detection (whisper : result (list whisper_segment)) :
  match transcribe whisper with
  | Ok transcription =>
      (exists raw_segments,
          whisper = Ok raw_segments
          /\ List.length transcription = List.length raw_segments)
      /\ forallb has_keys transcription = true
      /\ forall np_sqrt service max_clips min_duration max_duration,
         exists scored_segments,
           detect_highlights np_sqrt service transcription max_clips min_duration
                             max_duration
           = Ok (_select_highlights scored_segments max_clips min_duration
                                    max_duration)
  | Raise e =>
      exists cause,
        e = ServiceError ("Failed to transcribe video: " ++ str_of_exn cause)%string
  end.
Proof.
  unfold transcribe.
  destruct whisper as [raw | cause]; simpl; [| exists cause; reflexivity].
  destruct (transcribe_loop raw []) as [tr | cause] eqn:Hrun; simpl;
    [| exists cause; reflexivity].
  destruct (transcribe_loop_keys raw [] tr Hrun eq_refl) as [Hk Hn].
  split; [exists raw; split; [reflexivity | exact Hn] |].
  split; [exact Hk |].
  intros np_sqrt service k mn mx.
  apply detect_highlights_returns. exact Hk.
Qed.

(** ** Searching and joining the transcript *)

Lemma keyword_found_existsb (keywords : list string) (text_lower : string) :
  keyword_found keywords text_lower
  = existsb (fun keyword => contains (lower keyword) text_lower) keywords.
Proof.
  induction keywords as [| k ks IH]; simpl; [reflexivity |].
  destruct (contains (lower k) text_lower); simpl; [reflexivity | exact IH].
Qed.

Lemma find_loop_filter (keywords : list string) (segments : list segment) :
  forall matching,
    find_loop segments keywords matching
    = if forallb (fun segment => is_some (seg_text segment)) segments
      then Ok (matching ++ filter (mentions keywords) segments)%list
      else Raise (KeyError "text").
Proof.
  induction segments as [| segment rest IH]; intro acc; simpl.
  - rewrite app_nil_r. reflexivity.
  - unfold mentions at 1, lowered.
    destruct (seg_text segment) as [raw |]; simpl; [| reflexivity].
    rewrite keyword_found_existsb.
    destruct (existsb _ keywords); rewrite IH;
      destruct (forallb _ rest); try reflexivity.
    rewrite <- app_assoc. reflexivity.
Qed.

(** X14: [find_segments_by_keywords] returns, in the order of the
    transcript and each one once, the segments whose lower-cased text
    contains the lower-cased form of one of the keywords; it returns
    nothing for an empty keyword list, and raises KeyError "text" when a
    segment has no text, even after segments that matched. *)
Theorem find_segments_is_filter (segments : list segment) (keywords : list string) :
  find_segments_by_keywords segments keywords
  = if forallb (fun segment => is_some (seg_text segment)) segments
    then Ok (filter (mentions keywords) segments)
    else Raise (KeyError "text").
Proof.
  unfold find_segments_by_keywords. rewrite find_loop_filter. reflexivity.
Qed.

Lemma split_scan_space (a b : string) (sp : ascii) :
  is_space sp = true ->
  forall cur,
    split_scan (a ++ String sp b) cur = (split_scan a cur ++ split_scan b [])%list.
Proof.
  intro Hsp. induction a as [| c a IH]; intro cur; simpl.
  - rewrite Hsp. destruct cur; reflexivity.
  - destruct (is_space c).
    + destruct cur; [apply IH |]. simpl. f_equal. apply IH.
    + apply IH.
Qed.

Lemma split_join (texts : list string) :
  split (join " " texts) = List.concat (map split texts).
Proof.
  induction texts as [| t ts IH]; [reflexivity |].
  destruct ts as [| t' ts'].
  - simpl. rewrite app_nil_r. reflexivity.
  - change (join " " (t :: t' :: ts')) with (t ++ String " " (join " " (t' :: ts')))%string.
    unfold split at 1. rewrite split_scan_space by reflexivity.
    fold (split t). fold (split (join " " (t' :: ts'))). rewrite IH. reflexivity.
Qed.

(** X15: the words of the text that [get_transcript_text] returns are the
    words of the segment texts, segment after segment: joining does not
    merge the last word of a segment with the first word of the next. *)
Theorem transcript_text_words (segments : list segment) (texts : list string) :
  texts_of segments = Ok texts ->
  exists joined,
    get_transcript_text segments = Ok joined
    /\ split joined = List.concat (map split texts).
Proof.
  intro H. unfold get_transcript_text. rewrite H. simpl.
  eexists. split; [reflexivity | apply split_join].
Qed.

Lemma transcript_text_words_witness :
  exists joined,
    get_transcript_text clamped_transcript = Ok joined
    /\ split joined
       = List.concat (map split ["wow this is it"; "second one here"]%string).
Proof.
  exact (transcript_text_words clamped_transcript
           ["wow this is it"; "second one here"]%string eq_refl).
Defined.

(** ** The chunks of a subtitle *)

Lemma split_scan_nospace (l : list ascii) :
  Forall (fun c => is_space c = false) l ->
  forall cur,
    l <> [] \/ cur <> [] ->
    split_scan (string_of_list_ascii l) cur
    = [string_of_list_ascii (rev cur ++ l)].
Proof.
  induction 1 as [| c l Hc Hl IH]; intros cur Hne; simpl.
  - destruct cur as [| a cur]; [destruct Hne; congruence |].
    rewrite app_nil_r. reflexivity.
  - rewrite Hc. rewrite IH by (right; discriminate).
    simpl. rewrite <- app_assoc. reflexivity.
Qed.

Lemma emitted_word (cur : list ascii) :
  Forall (fun c => is_space c = false) cur ->
  cur <> [] ->
  is_word (string_of_list_ascii (rev cur)).
Proof.
  intros Hcur Hne. unfold is_word, split.
  rewrite split_scan_nospace.
  - reflexivity.
  - apply Forall_rev. exact Hcur.
  - left. intro E. apply (f_equal (@rev ascii)) in E.
    rewrite rev_involutive in E. simpl in E. congruence.
Qed.

Lemma split_scan_words (s : string) :
  forall cur,
    Forall (fun c => is_space c = false) cur ->
    Forall is_word (split_scan s cur).
Proof.
  induction s as [| c s IH]; intros cur Hcur; simpl.
  - destruct cur as [| a cur]; [constructor |].
    constructor; [| constructor]. apply emitted_word; [exact Hcur | discriminate].
  - destruct (is_space c) eqn:Ec.
    + destruct cur as [| a cur]; [apply IH; constructor |].
      constructor; [apply emitted_word; [exact Hcur | discriminate] |].
      apply IH. constructor.
    + apply IH. constructor; assumption.
Qed.

Lemma split_words (s : string) : Forall is_word (split s).
Proof. apply split_scan_words. constructor. Qed.

Lemma split_append_word (chunk word : string) :
  is_word word ->
  split (chunk ++ " " ++ word) = (split chunk ++ [word])%list.
Proof.
  intro Hw. unfold split.
  change (chunk ++ " " ++ word)%string with (chunk ++ String " " word)%string.
  rewrite split_scan_space by reflexivity. fold (split word). rewrite Hw.
  reflexivity.
Qed.

Lemma chunk_loop_words (max_chars : Z) (words : list string) :
  Forall is_word words ->
  forall chunks current,
    Forall (fun c => split c <> []) chunks ->
    current = ""%string \/ split current <> [] ->
    List.concat (map split (chunk_loop words max_chars chunks current))
    = (List.concat (map split chunks) ++ split current ++ words)%list
    /\ Forall (fun c => split c <> []) (chunk_loop words max_chars chunks current).
Proof.
  induction 1 as [| word rest Hw Hrest IH]; intros chunks cur Hchunks Hcur.
  - simpl. destruct cur as [| a cur'] eqn:Ecur.
    + simpl. rewrite app_nil_r. split; [reflexivity | exact Hchunks].
    + change (truthy (String a cur')) with true. cbv iota.
      rewrite map_app, concat_app. simpl. rewrite !app_nil_r.
      split; [reflexivity |].
      apply Forall_app. split; [exact Hchunks |].
      constructor; [| constructor].
      destruct Hcur as [Hcur | Hcur]; [discriminate | exact Hcur].
  - assert (Hword : split word <> []) by (rewrite Hw; discriminate).
    cbn [chunk_loop].
    destruct (Z.of_nat (String.length (cur ++ " " ++ word)) <=? max_chars)%Z.
    + destruct cur as [| a cur'] eqn:Ecur.
      * change (truthy "") with false. cbv iota.
        destruct (IH chunks word Hchunks (or_intror Hword)) as [Heq Hall].
        split; [| exact Hall]. rewrite Heq, Hw. reflexivity.
      * change (truthy (String a cur')) with true. cbv iota.
        assert (Hnew : split (String a cur' ++ " " ++ word)
                       = (split (String a cur') ++ [word])%list)
          by (apply split_append_word; exact Hw).
        destruct (IH chunks (String a cur' ++ " " ++ word)%string Hchunks) as [Heq Hall].
        { right. rewrite Hnew. destruct (split (String a cur')); discriminate. }
        split; [| exact Hall]. rewrite Heq, Hnew, <- app_assoc. reflexivity.
    + destruct cur as [| a cur'] eqn:Ecur.
      * change (truthy "") with false. cbv iota.
        destruct (IH chunks word Hchunks (or_intror Hword)) as [Heq Hall].
        split; [| exact Hall]. rewrite Heq, Hw. reflexivity.
      * change (truthy (String a cur')) with true. cbv iota.
        destruct (IH (chunks ++ [String a cur'])%list word) as [Heq Hall].
        { apply Forall_app. split; [exact Hchunks |].
          constructor; [| constructor].
          destruct Hcur as [Hcur | Hcur]; [discriminate | exact Hcur]. }
        { right. exact Hword. }
        split; [| exact Hall].
        rewrite Heq, map_app, concat_app, Hw. simpl.
        rewrite app_nil_r, <- app_assoc. reflexivity.
Qed.

Lemma chunks_not_blank (text : string) (max_chars : Z) :
  Forall (fun chunk => split chunk <> []) (_split_text_into_chunks text max_chars).
Proof.
  unfold _split_text_into_chunks.
  apply (chunk_loop_words max_chars (split text) (split_words text) [] ""
           (Forall_nil _) (or_introl eq_refl)).
Qed.

(** X16: reading the words of the chunks in order gives back the words of
    the text, each once and none glued to its neighbour, and no chunk is
    blank (every chunk holds at least one word), whatever [max_chars] is. *)
Theorem chunks_keep_words (text : string) (max_chars : Z) :
  List.concat (map split (_split_text_into_chunks text max_chars)) = split text
  /\ Forall (fun chunk => split chunk <> [])
            (_split_text_into_chunks text max_chars).
Proof.
  unfold _split_text_into_chunks.
  destruct (chunk_loop_words max_chars (split text) (split_words text) [] ""
              (Forall_nil _) (or_introl eq_refl)) as [Heq Hall].
  split; [exact Heq | exact Hall].
Qed.

Lemma chunk_loop_fits (text : string) (max_chars : Z) (words : list string) :
  forall chunks current,
    (forall w, In w words -> In w (split text)) ->
    Forall (chunk_fits text max_chars) chunks ->
    current = ""%string \/ chunk_fits text max_chars current ->
    Forall (chunk_fits text max_chars) (chunk_loop words max_chars chunks current).
Proof.
  induction words as [| word rest IH]; intros chunks cur Hsub Hchunks Hcur.
  - simpl. destruct cur as [| a cur'] eqn:Ecur; [exact Hchunks |].
    change (truthy (String a cur')) with true. cbv iota.
    apply Forall_app. split; [exact Hchunks |]. constructor; [| constructor].
    destruct Hcur as [Hcur | Hcur]; [discriminate | exact Hcur].
  - assert (Hword : chunk_fits text max_chars word)
      by (right; apply Hsub; left; reflexivity).
    assert (Hsub' : forall w, In w rest -> In w (split text))
      by (intros w Hin; apply Hsub; right; exact Hin).
    cbn [chunk_loop].
    destruct (Z.of_nat (String.length (cur ++ " " ++ word)) <=? max_chars)%Z eqn:Etest.
    + apply IH; [exact Hsub' | exact Hchunks |]. right.
      destruct cur as [| a cur']; [exact Hword |].
      change (truthy (String a cur')) with true. cbv iota.
      left. apply Z.leb_le. exact Etest.
    + apply IH; [exact Hsub' | | right; exact Hword].
      destruct cur as [| a cur'] eqn:Ecur; [exact Hchunks |].
      change (truthy (String a cur')) with true. cbv iota.
      apply Forall_app. split; [exact Hchunks |]. constructor; [| constructor].
      destruct Hcur as [Hcur | Hcur]; [discriminate | exact Hcur].
Qed.

(** X17: every chunk has at most [max_chars] characters, except a chunk
    that is made of a single word of the text (a word alone is never
    split, however long). *)
Theorem chunks_fit (text : string) (max_chars : Z) :
  Forall (chunk_fits text max_chars) (_split_text_into_chunks text max_chars).
Proof.
  unfold _split_text_into_chunks.
  apply chunk_loop_fits; [tauto | constructor | left; reflexivity].
Qed.

Example split_text_into_chunks_example :
  _split_text_into_chunks
    "this is amazing and you will never believe what happens next" 40
  = ["this is amazing and you will never"; "believe what happens next"]%string.
Proof. reflexivity. Qed.

(** ** The timing of the subtitle clips *)

Lemma strip_blank (s : string) : strip s = ""%string -> split s = [].
Proof.
  intro H. rewrite <- split_strip, H. reflexivity.
Qed.

Lemma subtitle_loop_tiles (chunk_duration duration : Q) (n : nat) :
  0 <= chunk_duration ->
  Qnat n * chunk_duration == duration ->
  forall text_chunks i clips,
    Forall (fun chunk => split chunk <> []) text_chunks ->
    (i + List.length text_chunks <= n)%nat ->
    exists more,
      subtitle_loop text_chunks i chunk_duration duration clips
      = (clips ++ more)%list
      /\ List.length more = List.length text_chunks
      /\ forall j txt start len,
           nth_error more j = Some (txt, start, len) ->
           nth_error (map strip text_chunks) j = Some txt
           /\ start == Qnat (i + j) * chunk_duration
           /\ start + len == Qnat (i + j + 1) * chunk_duration.
Proof.
  intros Hcd Hn. induction text_chunks as [| chunk rest IH];
    intros i clips Hwords Hlen; simpl.
  - exists []. rewrite app_nil_r. split; [reflexivity |]. split; [reflexivity |].
    intros [| j] ? ? ? H; discriminate.
  - inversion Hwords as [| ? ? Hchunk Hrest]; subst.
    destruct (truthy (strip chunk)) eqn:Etxt.
    + simpl.
      destruct (IH (S i)
                   (clips ++ [(strip chunk, Qnat i * chunk_duration,
                               py_min (Qnat (i + 1) * chunk_duration) duration
                               - Qnat i * chunk_duration)])%list
                   Hrest ltac:(simpl in Hlen; lia))
        as (more & Hrun & Hmore & Hclips).
      eexists (_ :: more). rewrite Hrun, <- app_assoc. simpl.
      split; [reflexivity |]. split; [congruence |].
      intros [| j] txt start len Hj; simpl in Hj.
      * inversion Hj; subst; clear Hj. simpl.
        split; [reflexivity |]. rewrite !Nat.add_0_r.
        split; [reflexivity |].
        assert (Hle : Qnat (i + 1) * chunk_duration <= duration).
        { rewrite <- Hn. apply Qmult_le_compat_r; [| exact Hcd].
          apply Qnat_le. simpl in Hlen. lia. }
        destruct (py_min_cases (Qnat (i + 1) * chunk_duration) duration)
          as [[Hc ->] | [Hc ->]]; lra.
      * destruct (Hclips j txt start len Hj) as (H1 & H2 & H3).
        split; [exact H1 |].
        replace (i + S j)%nat with (S i + j)%nat by lia.
        replace (i + S j + 1)%nat with (S i + j + 1)%nat by lia.
        split; assumption.
    + exfalso. apply Hchunk. apply strip_blank.
      destruct (strip chunk); [reflexivity | discriminate].
Qed.

Lemma Qnat_succ (j : nat) : Qnat (j + 1) == Qnat j + 1.
Proof.
  unfold Qnat. rewrite Nat2Z.inj_add, inject_Z_plus. reflexivity.
Qed.

(** X18: over a video of a duration that is not negative, the subtitle
    clips of a text that has words are as many as its chunks of at most 40
    characters and carry the chunks in order; clip number j (from 0) of n
    starts at j/n of the duration and ends at (j+1)/n of it, each to within
    a millisecond, so the clips follow each other and share the duration;
    no clip starts before 0, lasts a negative time or ends later than a
    millisecond after the video, and nothing is divided by zero.  A text
    without words gets no subtitle clip. *)
Theorem subtitles_tile_the_clip (transcription_segment : string) (duration : Q) :
  0 <= duration ->
  exists clips,
    subtitle_clips_of transcription_segment duration = Ok clips
    /\ List.length clips
       = List.length (_split_text_into_chunks transcription_segment 40)
    /\ forall j txt start len,
         nth_error clips j = Some (txt, start, len) ->
         nth_error (map strip (_split_text_into_chunks transcription_segment 40)) j
         = Some txt
         /\ 0 <= start
         /\ 0 <= len
         /\ start + len <= duration + millisecond
         /\ about start (Qnat j * duration / Qlen clips)
         /\ about (start + len) (Qnat (j + 1) * duration / Qlen clips).
Proof.
  intro Hd. unfold subtitle_clips_of.
  pose proof (chunks_not_blank transcription_segment 40) as Hwords.
  set (chunks := _split_text_into_chunks transcription_segment 40) in *.
  destruct chunks as [| c cs] eqn:Echunks.
  - simpl. exists []. split; [reflexivity |]. split; [reflexivity |].
    intros [| j] ? ? ? H; discriminate.
  - set (n := List.length (c :: cs)).
    assert (Hnpos : 0 < Qnat n).
    { unfold Qnat, n. change 0 with (inject_Z 0). rewrite <- Zlt_Qlt. simpl. lia. }
    unfold py_div, Qlen. fold n. fold (Qnat n).
    destruct (Qeq_bool (Qnat n) 0) eqn:Ez;
      [apply Qeq_bool_eq in Ez; lra |].
    cbn [bind].
    set (cd := duration / Qnat n).
    assert (Hcd : 0 <= cd) by (apply Qle_shift_div_l; lra).
    assert (Hn : Qnat n * cd == duration) by (unfold cd; field; lra).
    destruct (subtitle_loop_tiles cd duration n Hcd Hn (c :: cs) 0 []
                Hwords (le_n _)) as (more & Hrun & Hlen & Hclips).
    simpl app in Hrun. exists more. split; [rewrite Hrun; reflexivity |].
    split; [exact Hlen |].
    intros j txt start len Hj.
    destruct (Hclips j txt start len Hj) as (H1 & H2 & H3).
    split; [exact H1 |].
    assert (Hjn : (j + 1 <= n)%nat).
    { assert (j < List.length more)%nat by (apply nth_error_Some; congruence).
      unfold n. lia. }
    simpl in H2, H3.
    pose proof (Qmult_le_0_compat _ _ (Qnat_nonneg j) Hcd) as A1.
    pose proof (Qmult_le_compat_r _ _ cd (Qnat_le (j + 1) n Hjn) Hcd) as A2.
    assert (A3 : Qnat (j + 1) * cd == Qnat j * cd + cd)
      by (rewrite Qnat_succ; ring).
    assert (E1 : Qnat j * duration / Qnat n == Qnat j * cd)
      by (unfold cd; field; lra).
    assert (E2 : Qnat (j + 1) * duration / Qnat n == Qnat (j + 1) * cd)
      by (unfold cd; field; lra).
    unfold about, millisecond, Qlen. rewrite Hlen. fold n. fold (Qnat n).
    rewrite E1, E2.
    split; [lra |]. split; [lra |]. split; [lra |]. split; split; lra.
Qed.

Lemma subtitles_tile_the_clip_witness :
  exists clips,
    subtitle_clips_of "this is amazing and you will never believe what happens next"
                      (3002 # 100)
    = Ok clips
    /\ List.length clips = 2%nat
    /\ forall j txt start len,
         nth_error clips j = Some (txt, start, len) ->
         0 <= start
         /\ 0 <= len
         /\ start + len <= (3002 # 100) + millisecond
         /\ about start (Qnat j * (3002 # 100) / Qlen clips)
         /\ about (start + len) (Qnat (j + 1) * (3002 # 100) / Qlen clips).
Proof.
  destruct (subtitles_tile_the_clip
              "this is amazing and you will never believe what happens next"
              (3002 # 100) ltac:(discriminate)) as (clips & Hrun & Hlen & Hall).
  exists clips. split; [exact Hrun |]. split; [exact Hlen |].
  intros j txt start len Hj. destruct (Hall j txt start len Hj) as (_ & H).
  exact H.
Defined.

(** ** Seconds to SubRip time *)

Lemma floor_unique (z : Z) (x : Q) :
  inject_Z z <= x -> x < inject_Z (z + 1) -> Qfloor x = z.
Proof.
  intros Hlo Hhi.
  pose proof (Qfloor_le x) as H1. pose proof (Qlt_floor x) as H2.
  assert (A : (Qfloor x < z + 1)%Z) by (rewrite Zlt_Qlt; lra).
  assert (B : (z < Qfloor x + 1)%Z) by (rewrite Zlt_Qlt; lra).
  lia.
Qed.

Lemma py_int_Z (z : Z) : py_int (inject_Z z) = z.
Proof. unfold py_int. simpl. apply Z.quot_1_r. Qed.

Lemma py_int_floor (q : Q) : 0 <= q -> py_int q = Qfloor q.
Proof.
  destruct q as [n d]. unfold Qle, py_int, Qfloor. simpl. intro H.
  apply Z.quot_div_nonneg; lia.
Qed.

Lemma floor_div (x : Q) (c : Z) :
  (0 < c)%Z -> Qfloor (x / inject_Z c) = (Qfloor x / c)%Z.
Proof.
  intro Hc.
  assert (Hcq : 0 < inject_Z c) by (change 0 with (inject_Z 0); rewrite <- Zlt_Qlt; lia).
  pose proof (Qfloor_le x) as H1. pose proof (Qlt_floor x) as H2.
  set (n := Qfloor x) in *.
  assert (Hlo : (c * (n / c) <= n)%Z) by (apply Z.mul_div_le; lia).
  assert (Hhi : (n + 1 <= c * (n / c + 1))%Z).
  { pose proof (Z.mod_pos_bound n c Hc). pose proof (Z.div_mod n c ltac:(lia)). lia. }
  rewrite Zle_Qle, inject_Z_mult in Hlo.
  rewrite Zle_Qle, inject_Z_mult in Hhi.
  apply floor_unique.
  - apply Qle_shift_div_l; [exact Hcq |]. lra.
  - apply Qlt_shift_div_r; [exact Hcq |]. lra.
Qed.

Lemma floor_mod (x : Q) (c : Z) :
  (0 < c)%Z ->
  py_mod x (inject_Z c) == inject_Z (Qfloor x mod c) + (x - inject_Z (Qfloor x)).
Proof.
  intro Hc. unfold py_mod. rewrite floor_div by exact Hc.
  rewrite (Z.mod_eq (Qfloor x) c) by lia.
  unfold Zminus. rewrite inject_Z_plus, inject_Z_opp, inject_Z_mult. ring.
Qed.

Lemma floor_shift (z : Z) (f : Q) :
  0 <= f -> f < 1 -> Qfloor (inject_Z z + f) = z.
Proof.
  intros H0 H1. apply floor_unique; [lra |].
  rewrite inject_Z_plus. change (inject_Z 1) with 1. lra.
Qed.

(** X19: for a number of seconds that is not negative, the hours handed
    to [SubRipTime] are not negative, the minutes and the seconds lie in
    0..59 and the milliseconds in 0..999, and hours, minutes and seconds
    together are the whole seconds of the given time. *)
Theorem seconds_to_srt_time_floor (seconds : Q) :
  0 <= seconds ->
  let '(hours, minutes, secs, milliseconds) := _seconds_to_srt_time seconds in
  (0 <= hours)%Z
  /\ (0 <= minutes < 60)%Z
  /\ (0 <= secs < 60)%Z
  /\ (0 <= milliseconds < 1000)%Z
  /\ ((hours * 60 + minutes) * 60 + secs)%Z = Qfloor seconds.
Proof.
  intro Hpos.
  assert (Hn0 : (0 <= Qfloor seconds)%Z)
    by (change 0%Z with (Qfloor 0); apply Qfloor_resp_le; exact Hpos).
  unfold _seconds_to_srt_time, py_floordiv.
  pose proof (Qfloor_le seconds) as Hlo. pose proof (Qlt_floor seconds) as Hhi.
  set (n := Qfloor seconds) in *.
  rewrite inject_Z_plus in Hhi. change (inject_Z 1) with 1 in Hhi.
  assert (Hf0 : 0 <= seconds - inject_Z n) by lra.
  assert (Hf1 : seconds - inject_Z n < 1) by lra.
  rewrite !py_int_Z.
  (* hours *)
  assert (Eh : Qfloor (seconds / 3600) = (n / 3600)%Z)
    by (apply (floor_div seconds 3600); lia).
  (* minutes *)
  assert (Em : py_mod seconds 3600
               == inject_Z (n mod 3600) + (seconds - inject_Z n))
    by (apply (floor_mod seconds 3600); lia).
  assert (Efm : Qfloor (py_mod seconds 3600) = (n mod 3600)%Z).
  { rewrite (Qfloor_comp _ _ Em). apply floor_shift; assumption. }
  assert (Emin : Qfloor (py_mod seconds 3600 / 60) = ((n mod 3600) / 60)%Z).
  { transitivity (Qfloor (py_mod seconds 3600) / 60)%Z;
      [apply (floor_div (py_mod seconds 3600) 60); lia | rewrite Efm; reflexivity]. }
  (* seconds *)
  assert (Es : py_mod seconds 60 == inject_Z (n mod 60) + (seconds - inject_Z n))
    by (apply (floor_mod seconds 60); lia).
  pose proof (Z.mod_pos_bound n 60 ltac:(lia)) as Hs60.
  assert (Hs0 : 0 <= py_mod seconds 60).
  { rewrite Es. assert (0 <= inject_Z (n mod 60))
      by (change 0 with (inject_Z 0); rewrite <- Zle_Qle; lia). lra. }
  assert (Esec : py_int (py_mod seconds 60) = (n mod 60)%Z).
  { rewrite py_int_floor by exact Hs0.
    rewrite (Qfloor_comp _ _ Es). apply floor_shift; assumption. }
  (* milliseconds *)
  assert (Ef : py_mod seconds 1 == inject_Z (n mod 1) + (seconds - inject_Z n))
    by (apply (floor_mod seconds 1); lia).
  rewrite Z.mod_1_r in Ef.
  assert (Efrac : py_mod seconds 1 * 1000 == seconds * 1000 - inject_Z (1000 * n)).
  { rewrite Ef, inject_Z_mult. change (inject_Z 0) with 0.
    change (inject_Z 1000) with 1000. ring. }
  assert (Hms0 : 0 <= py_mod seconds 1 * 1000).
  { rewrite Efrac, inject_Z_mult. change (inject_Z 1000) with 1000. lra. }
  pose proof (Qfloor_le (seconds * 1000)) as Mlo.
  pose proof (Qlt_floor (seconds * 1000)) as Mhi.
  set (M := Qfloor (seconds * 1000)) in *.
  rewrite inject_Z_plus in Mhi. change (inject_Z 1) with 1 in Mhi.
  assert (Ems : py_int (py_mod seconds 1 * 1000) = (M - 1000 * n)%Z).
  { rewrite py_int_floor by exact Hms0.
    rewrite (Qfloor_comp _ _ Efrac). apply floor_unique.
    - unfold Zminus. rewrite inject_Z_plus, inject_Z_opp. lra.
    - unfold Zminus. rewrite !inject_Z_plus, inject_Z_opp.
      change (inject_Z 1) with 1. lra. }
  assert (HM : (1000 * n <= M < 1000 * n + 1000)%Z).
  { split.
    - assert (A : (1000 * n < M + 1)%Z);
        [rewrite Zlt_Qlt, inject_Z_mult, inject_Z_plus;
         change (inject_Z 1000) with 1000; change (inject_Z 1) with 1; lra | lia].
    - rewrite Zlt_Qlt, inject_Z_plus, inject_Z_mult.
      change (inject_Z 1000) with 1000. lra. }
  rewrite Eh, Emin, Esec, Ems.
  pose proof (Z.mod_pos_bound n 3600 ltac:(lia)) as H3600.
  pose proof (Z.div_mod n 3600 ltac:(lia)) as D3600.
  pose proof (Z.div_mod (n mod 3600) 60 ltac:(lia)) as D60.
  pose proof (Z.mod_pos_bound (n mod 3600) 60 ltac:(lia)) as B60.
  pose proof (Z.div_mod n 60 ltac:(lia)) as Dn60.
  pose proof (Z.div_pos n 3600 Hn0 ltac:(lia)) as Hh0.
  repeat split; try lia.
Qed.

Example seconds_to_srt_time_example :
  _seconds_to_srt_time 3725.5 = (1, 2, 5, 500)%Z.
Proof. reflexivity. Qed.

Lemma seconds_to_srt_time_floor_witness :
  let '(hours, minutes, secs, milliseconds) := _seconds_to_srt_time 3725.5 in
  (0 <= hours)%Z
  /\ (0 <= minutes < 60)%Z
  /\ (0 <= secs < 60)%Z
  /\ (0 <= milliseconds < 1000)%Z
  /\ ((hours * 60 + minutes) * 60 + secs)%Z = Qfloor 3725.5.
Proof.
  apply (seconds_to_srt_time_floor 3725.5). discriminate.
Defined.

(** ** Cropping to the vertical format *)

Lemma py_int_nine_sixteenths (h : Z) :
  (0 <= h)%Z -> py_int (inject_Z h * (9 / 16)) = (9 * h / 16)%Z.
Proof.
  intro Hh. change (py_int (inject_Z h * (9 / 16))) with (Z.quot (h * 9) 16).
  rewrite Z.quot_div_nonneg by lia. f_equal. lia.
Qed.

Lemma py_int_sixteen_ninths (w : Z) :
  (0 <= w)%Z -> py_int (inject_Z w / (9 / 16)) = (16 * w / 9)%Z.
Proof.
  intro Hw. change (py_int (inject_Z w / (9 / 16))) with (Z.quot (w * 16) 9).
  rewrite Z.quot_div_nonneg by lia. f_equal. lia.
Qed.

Lemma aspect_test (width height : Z) :
  (0 < height)%Z ->
  Qltb (9 / 16) (inject_Z width / inject_Z height) = (9 * height <? 16 * width)%Z.
Proof.
  intro Hh.
  assert (Hhq : 0 < inject_Z height)
    by (change 0 with (inject_Z 0); rewrite <- Zlt_Qlt; lia).
  destruct (9 * height <? 16 * width)%Z eqn:E.
  - apply Z.ltb_lt in E. apply Qltb_true.
    apply Qlt_shift_div_l; [exact Hhq |].
    rewrite Zlt_Qlt, !inject_Z_mult in E.
    change (inject_Z 9) with 9 in E. change (inject_Z 16) with 16 in E.
    assert (H916 : 9 / 16 == 9 * (1 # 16)) by reflexivity.
    rewrite H916. lra.
  - apply Z.ltb_ge in E. apply Qltb_false.
    apply Qle_shift_div_r; [exact Hhq |].
    rewrite Zle_Qle, !inject_Z_mult in E.
    change (inject_Z 9) with 9 in E. change (inject_Z 16) with 16 in E.
    assert (H916 : 9 / 16 == 9 * (1 # 16)) by reflexivity.
    rewrite H916. lra.
Qed.

Lemma center_crop_ok (width height : Z) :
  (0 < width)%Z -> (0 < height)%Z ->
  exists c,
    _center_crop_to_vertical width height = Ok c
    /\ crop_inside width height c
    /\ centred_vertical width height c.
Proof.
  intros Hw Hh. unfold _center_crop_to_vertical, py_div.
  destruct (Qeq_bool (inject_Z height) 0) eqn:Ez.
  - apply Qeq_bool_eq in Ez. unfold Qeq in Ez. simpl in Ez. lia.
  - cbn [bind]. rewrite aspect_test by exact Hh.
    destruct (9 * height <? 16 * width)%Z eqn:E.
    + apply Z.ltb_lt in E.
      rewrite py_int_nine_sixteenths by lia.
      eexists. split; [reflexivity |].
      unfold crop_inside, centred_vertical.
      pose proof (Z.div_mod (9 * height) 16 ltac:(lia)).
      pose proof (Z.mod_pos_bound (9 * height) 16 ltac:(lia)).
      pose proof (Z.div_mod (width - 9 * height / 16) 2 ltac:(lia)).
      pose proof (Z.mod_pos_bound (width - 9 * height / 16) 2 ltac:(lia)).
      repeat split; lia.
    + apply Z.ltb_ge in E.
      rewrite py_int_sixteen_ninths by lia.
      eexists. split; [reflexivity |].
      unfold crop_inside, centred_vertical.
      pose proof (Z.div_mod (16 * width) 9 ltac:(lia)).
      pose proof (Z.mod_pos_bound (16 * width) 9 ltac:(lia)).
      pose proof (Z.div_mod (height - 16 * width / 9) 2 ltac:(lia)).
      pose proof (Z.mod_pos_bound (height - 16 * width / 9) 2 ltac:(lia)).
      repeat split; lia.
Qed.

(** X20: on a frame of positive width and height the centre crop returns a
    crop that lies inside the frame: when the frame is wider than 9:16 it
    keeps the full height and the [9 * height / 16] columns in the middle,
    otherwise the full width and the [16 * width / 9] rows in the middle
    (the two margins differ by one pixel at most).  On a frame of height 0
    it raises ZeroDivisionError. *)
Theorem center_crop_inside_frame (width height : Z) :
  (0 < width)%Z -> (0 <= height)%Z ->
  match _center_crop_to_vertical width height with
  | Ok c => (0 < height)%Z /\ crop_inside width height c
            /\ centred_vertical width height c
  | Raise e => height = 0%Z /\ e = ZeroDivisionError
  end.
Proof.
  intros Hw Hh.
  destruct (Z.eq_dec height 0) as [-> | Hne].
  - vm_compute. split; reflexivity.
  - destruct (center_crop_ok width height Hw ltac:(lia)) as (c & -> & Hin & Hc).
    split; [lia |]. split; assumption.
Qed.

Lemma center_crop_inside_frame_witness :
  _center_crop_to_vertical 1920 1080 = Ok (crop_width 656 1263)
  /\ crop_inside 1920 1080 (crop_width 656 1263)
  /\ centred_vertical 1920 1080 (crop_width 656 1263).
Proof.
  pose proof (center_crop_inside_frame 1920 1080 ltac:(lia) ltac:(lia)) as H.
  change (_center_crop_to_vertical 1920 1080) with (@Ok crop (crop_width 656 1263)) in H.
  split; [reflexivity |]. exact (proj2 H).
Defined.

(** ** Cropping around the faces *)

Lemma py_int_nonneg (x : Q) :
  0 <= x -> (0 <= py_int x)%Z /\ inject_Z (py_int x) <= x /\ x < inject_Z (py_int x) + 1.
Proof.
  intro Hx. rewrite (py_int_floor x Hx).
  pose proof (Qfloor_le x) as H1. pose proof (Qlt_floor x) as H2.
  rewrite inject_Z_plus in H2. change (inject_Z 1) with 1 in H2.
  split; [| split; assumption].
  change 0%Z with (Qfloor 0). apply Qfloor_resp_le. exact Hx.
Qed.

Lemma py_int_nonpos (x : Q) : x <= 0 -> (py_int x <= 0)%Z.
Proof.
  destruct x as [n d]. unfold Qle, py_int. simpl. intro H.
  assert (Hn : (n <= 0)%Z) by lia.
  replace n with (- (- n))%Z by lia.
  rewrite Z.quot_opp_l by lia.
  pose proof (Z.quot_pos (- n) (Z.pos d) ltac:(lia) ltac:(lia)). lia.
Qed.

Lemma sum_face_x_bounds (W : Z) (face_positions : list face_position) :
  Forall (fun p => (0 <= face_x p <= W)%Z) face_positions ->
  forall total,
    (total
     <= fold_left (fun t p => (t + face_x p)%Z) face_positions total
     <= total + Z.of_nat (List.length face_positions) * W)%Z.
Proof.
  induction 1 as [| p ps Hp Hps IH]; intro total.
  - simpl. lia.
  - cbn [fold_left List.length]. rewrite Nat2Z.inj_succ.
    specialize (IH (total + face_x p)%Z). nia.
Qed.

Lemma crop_position_ok (face_positions : list face_position)
      (video_width target_width : Z) :
  (0 <= target_width <= video_width)%Z ->
  exists crop_x,
    _calculate_crop_position face_positions video_width target_width = Ok crop_x
    /\ (0 <= crop_x <= video_width - target_width)%Z.
Proof.
  intros Htw. unfold _calculate_crop_position.
  destruct face_positions as [| p ps] eqn:Efaces.
  - eexists. split; [reflexivity |].
    pose proof (Z.div_mod (video_width - target_width) 2 ltac:(lia)).
    pose proof (Z.mod_pos_bound (video_width - target_width) 2 ltac:(lia)).
    lia.
  - rewrite <- Efaces.
    assert (Hn : 0 < Qlen face_positions).
    { unfold Qlen. change 0 with (inject_Z 0). rewrite <- Zlt_Qlt.
      rewrite Efaces. simpl. lia. }
    unfold py_div. destruct (Qeq_bool (Qlen face_positions) 0) eqn:Ez;
      [apply Qeq_bool_eq in Ez; lra |].
    cbn [bind]. eexists. split; [reflexivity | lia].
Qed.

(** X21: for a target width between 0 and the video width, the crop
    position lies between 0 and [video_width - target_width], so the crop
    stays inside the frame, whatever the faces are; without a face it is the
    centre position.  When the target is at least one pixel wide and every
    face centre lies inside the frame, the mean of the face centres lies
    inside the crop. *)
Theorem crop_position_in_frame (face_positions : list face_position)
        (video_width target_width : Z) :
  (0 <= target_width <= video_width)%Z ->
  exists crop_x,
    _calculate_crop_position face_positions video_width target_width = Ok crop_x
    /\ (0 <= crop_x <= video_width - target_width)%Z
    /\ (face_positions = [] -> crop_x = ((video_width - target_width) / 2)%Z)
    /\ (face_positions <> [] ->
        (1 <= target_width)%Z ->
        Forall (fun p => (0 <= face_x p <= video_width)%Z) face_positions ->
        inject_Z crop_x <= inject_Z (sum_face_x face_positions) / Qlen face_positions
        /\ inject_Z (sum_face_x face_positions) / Qlen face_positions
           <= inject_Z (crop_x + target_width)).
Proof.
  intros Htw. unfold _calculate_crop_position.
  destruct face_positions as [| p ps] eqn:Efaces.
  - eexists. split; [reflexivity |].
    pose proof (Z.div_mod (video_width - target_width) 2 ltac:(lia)).
    pose proof (Z.mod_pos_bound (video_width - target_width) 2 ltac:(lia)).
    split; [lia |]. split; [reflexivity | congruence].
  - rewrite <- Efaces.
    set (n := Qlen face_positions).
    assert (Hn : 0 < n).
    { unfold n, Qlen. change 0 with (inject_Z 0). rewrite <- Zlt_Qlt.
      rewrite Efaces. simpl. lia. }
    unfold py_div. destruct (Qeq_bool n 0) eqn:Ez;
      [apply Qeq_bool_eq in Ez; lra |].
    cbn [bind].
    set (avg := inject_Z (sum_face_x face_positions) / n).
    set (x := avg - inject_Z (target_width / 2)).
    eexists. split; [reflexivity |].
    split; [lia |]. split; [rewrite Efaces; discriminate |].
    intros _ Hone Hfaces.
    pose proof (sum_face_x_bounds video_width face_positions Hfaces 0) as Hsum.
    fold (sum_face_x face_positions) in Hsum.
    assert (Havg0 : 0 <= avg).
    { unfold avg. apply Qle_shift_div_l; [exact Hn |].
      assert (H0 : 0 <= inject_Z (sum_face_x face_positions))
        by (change 0 with (inject_Z 0); rewrite <- Zle_Qle; lia).
      lra. }
    assert (HavgW : avg <= inject_Z video_width).
    { unfold avg. apply Qle_shift_div_r; [exact Hn |].
      unfold n, Qlen. rewrite <- inject_Z_mult, <- Zle_Qle. lia. }
    pose proof (Z.div_mod target_width 2 ltac:(lia)) as Hdm.
    pose proof (Z.mod_pos_bound target_width 2 ltac:(lia)) as Hmb.
    assert (Hhalf0 : 0 <= inject_Z (target_width / 2))
      by (change 0 with (inject_Z 0); rewrite <- Zle_Qle; lia).
    assert (Hhalf1 : inject_Z (target_width / 2) + 1 <= inject_Z target_width).
    { change 1 with (inject_Z 1). rewrite <- inject_Z_plus, <- Zle_Qle. lia. }
    rewrite inject_Z_plus.
    assert (Hx : x == avg - inject_Z (target_width / 2)) by reflexivity.
    clearbody x. clearbody avg.
    destruct (Qlt_le_dec x 0) as [Hneg | Hpos].
    + pose proof (py_int_nonpos x ltac:(lra)) as Hc0.
      replace (Z.max 0 (Z.min (py_int x) (video_width - target_width))) with 0%Z
        by lia.
      change (inject_Z 0) with 0. split; lra.
    + destruct (py_int_nonneg x Hpos) as (Hc0 & Hlo & Hhi).
      destruct (Z_le_gt_dec (py_int x) (video_width - target_width)) as [Hfit | Hcut].
      * replace (Z.max 0 (Z.min (py_int x) (video_width - target_width)))
          with (py_int x) by lia.
        split; lra.
      * replace (Z.max 0 (Z.min (py_int x) (video_width - target_width)))
          with (video_width - target_width)%Z by lia.
        assert (Hq : inject_Z (video_width - target_width) <= inject_Z (py_int x))
          by (rewrite <- Zle_Qle; lia).
        unfold Zminus in *. rewrite inject_Z_plus, inject_Z_opp in *.
        split; lra.
Qed.

Lemma crop_position_in_frame_witness :
  exists crop_x,
    _calculate_crop_position two_faces 1920 607 = Ok crop_x
    /\ (0 <= crop_x <= 1920 - 607)%Z
    /\ inject_Z crop_x
       <= inject_Z (sum_face_x two_faces)
          / Qlen two_faces
    /\ inject_Z (sum_face_x two_faces)
       / Qlen two_faces
       <= inject_Z (crop_x + 607).
Proof.
  destruct (crop_position_in_frame two_faces 1920 607
              ltac:(lia)) as (crop_x & Hrun & Hin & _ & Hmean).
  exists crop_x. split; [exact Hrun |]. split; [exact Hin |].
  apply Hmean; [discriminate | lia |].
  unfold two_faces, face_x.
  repeat (apply Forall_cons; [simpl; lia |]). apply Forall_nil.
Defined.

Lemma py_int_target_width (h : Z) :
  (0 <= h)%Z -> py_int (inject_Z h * 9 / 16) = (9 * h / 16)%Z.
Proof.
  intro Hh. change (py_int (inject_Z h * 9 / 16)) with (Z.quot (h * 9 * 1) 16).
  rewrite Z.quot_div_nonneg by lia. f_equal. lia.
Qed.

(** X22: on a frame of positive width and height the automatic framing
    returns a crop that lies inside the frame, whatever faces were
    detected (even with centres outside the frame): a frame wider than
    [9 * height / 16] pixels is cut to exactly that width and keeps its
    height; a narrower one is cut in height by the centre crop. *)
Theorem auto_frame_inside_frame (width height : Z)
        (face_positions : list face_position) :
  (0 < width)%Z -> (0 < height)%Z ->
  exists c,
    _auto_frame_to_vertical width height face_positions = Ok c
    /\ crop_inside width height c
    /\ match c with
       | crop_width x1 x2 =>
           (9 * height / 16 < width)%Z /\ (x2 - x1 = 9 * height / 16)%Z
       | crop_height y1 y2 =>
           (width <= 9 * height / 16)%Z /\ (y2 - y1 = 16 * width / 9)%Z
       end.
Proof.
  intros Hw Hh. unfold _auto_frame_to_vertical.
  rewrite py_int_target_width by lia.
  pose proof (Z.div_mod (9 * height) 16 ltac:(lia)) as Hdm.
  pose proof (Z.mod_pos_bound (9 * height) 16 ltac:(lia)) as Hmb.
  destruct (width <=? 9 * height / 16)%Z eqn:E.
  - apply Z.leb_le in E.
    destruct (center_crop_ok width height Hw Hh) as (c & Hrun & Hin & Hc).
    rewrite Hrun. simpl. exists c. split; [reflexivity |]. split; [exact Hin |].
    destruct c as [x1 x2 | y1 y2]; unfold centred_vertical in Hc; [lia |].
    destruct Hc as (_ & Hheight & _). split; [exact E | exact Hheight].
  - apply Z.leb_gt in E.
    destruct (crop_position_ok face_positions width (9 * height / 16)
                ltac:(lia)) as (crop_x & Hrun & Hin).
    assert (Hpos : match face_positions with
                   | [] => Ok ((width - 9 * height / 16) / 2)%Z
                   | _ :: _ =>
                       _calculate_crop_position face_positions width
                                                (9 * height / 16)
                   end = Ok crop_x).
    { destruct face_positions; exact Hrun. }
    rewrite Hpos. cbn [bind try_except]. eexists. split; [reflexivity |].
    unfold crop_inside. split; lia.
Qed.

Lemma auto_frame_inside_frame_witness :
  exists c,
    _auto_frame_to_vertical 1920 1080 two_faces = Ok c
    /\ crop_inside 1920 1080 c.
Proof.
  destruct (auto_frame_inside_frame 1920 1080 two_faces
              ltac:(lia) ltac:(lia)) as (c & Hrun & Hin & _).
  exists c. split; assumption.
Defined.

(** ** The background task *)

Lemma and_then_lift {A B : Type} (r : result A) (k : A -> task B) (j : job) :
  and_then (lift r) k j
  = match r with
    | Ok a => k a j
    | Raise e => ([], Raise e)
    end.
Proof.
  unfold and_then, lift. destruct r as [a | e]; [| reflexivity].
  unfold current. simpl. destruct (k a j). reflexivity.
Qed.

Lemma and_then_update {B : Type} (f : job -> job) (k : unit -> task B) (j : job) :
  and_then (update f) k j
  = (f j :: fst (k tt (f j)), snd (k tt (f j))).
Proof.
  unfold and_then, update, current. simpl. destruct (k tt (f j)). reflexivity.
Qed.

Lemma create_clip_cases (moviepy : Q -> Q -> result unit) (s e : Q)
      (output_path : string) (target_duration : option Z) :
  match create_clip moviepy s e output_path target_duration with
  | Ok clip_path =>
      clip_path = output_path
      /\ exists range,
           clip_range s e target_duration = Ok range
           /\ moviepy (fst range) (snd range) = Ok tt
  | Raise err =>
      exists cause,
        err = ServiceError ("Failed to create clip: " ++ str_of_exn cause)%string
  end.
Proof.
  unfold create_clip, _create_clip_sync.
  destruct (clip_range s e target_duration) as [range | cause] eqn:Hrange;
    cbn [bind try_except].
  - destruct (moviepy (fst range) (snd range)) as [[] | cause] eqn:Hm;
      cbn [bind try_except].
    + split; [reflexivity |]. exists range. split; [reflexivity | exact Hm].
    + exists cause. reflexivity.
  - exists cause. reflexivity.
Qed.

Lemma clip_range_facts (s e : Q) (target_duration : option Z) (range : Q * Q) :
  clip_range s e target_duration = Ok range ->
  exists target,
    target_duration = Some target
    /\ fst range = s
    /\ snd range <= e
    /\ (e - s <= inject_Z target -> snd range = e)
    /\ (inject_Z target < e - s -> about (snd range - s) (inject_Z target)).
Proof.
  unfold clip_range. cbv zeta.
  destruct target_duration as [target |]; [| discriminate].
  intro H. exists target. split; [reflexivity |].
  destruct (Qltb (inject_Z target) (e - s)) eqn:E; inversion H; subst;
    cbn [fst snd].
  - apply Qltb_true in E.
    split; [reflexivity |]. split; [lra |]. split; [intro Hle; lra |].
    intros _. unfold about, millisecond. split; lra.
  - apply Qltb_false in E.
    split; [reflexivity |]. split; [lra |]. split; [reflexivity |].
    intro Hlt. lra.
Qed.

Lemma add_subtitles_path (moviepy : result unit) (video_path : string) :
  add_subtitles moviepy video_path = video_path.
Proof. destruct moviepy; reflexivity. Qed.

Lemma progress_value (k total : nat) :
  (0 < total)%nat ->
  py_div (30 * Qnat k) (Qnat total) = Ok (30 * Qnat k / Qnat total)
  /\ py_int (60 + 30 * Qnat k / Qnat total)
     = (60 + 30 * Z.of_nat k / Z.of_nat total)%Z.
Proof.
  intro Ht.
  assert (Htq : 0 < Qnat total).
  { unfold Qnat. change 0 with (inject_Z 0). rewrite <- Zlt_Qlt. lia. }
  assert (Hkq : 0 <= Qnat k).
  { unfold Qnat. change 0 with (inject_Z 0). rewrite <- Zle_Qle. lia. }
  split.
  - unfold py_div. destruct (Qeq_bool (Qnat total) 0) eqn:Ez; [| reflexivity].
    apply Qeq_bool_eq in Ez. lra.
  - assert (Hq : 0 <= 30 * Qnat k / Qnat total).
    { apply Qle_shift_div_l; [exact Htq | lra]. }
    rewrite py_int_floor by lra.
    assert (Heq : 60 + 30 * Qnat k / Qnat total
                  == inject_Z (60 * Z.of_nat total + 30 * Z.of_nat k)
                     / inject_Z (Z.of_nat total)).
    { unfold Qnat in *. rewrite inject_Z_plus, !inject_Z_mult.
      change (inject_Z 60) with 60. change (inject_Z 30) with 30.
      field. lra. }
    rewrite (Qfloor_comp _ _ Heq), floor_div by lia.
    rewrite Qfloor_Z, Z.div_add_l by lia. reflexivity.
Qed.

Lemma clips_loop_step (w : services) (job_id : string) (request : VideoRequest)
      (video_path : string) (total : nat) (h : highlight)
      (rest : list highlight) (i : nat) (clips : list clip_info) (j : job) :
  (0 < total)%nat ->
  clips_loop w job_id request video_path total (h :: rest) i clips j
  = match create_clip (clip_outcome w video_path (clip_output_path job_id i)
                                    (auto_frame request))
                      (start_time h) (end_time h) (clip_output_path job_id i)
                      (clip_duration request) with
    | Raise e => ([], Raise e)
    | Ok _ =>
        let j' := set_progress
                    (60 + 30 * Z.of_nat (i + 1) / Z.of_nat total)%Z
                    ("Generated clip " ++ str_of_nat (i + 1) ++ "/"
                       ++ str_of_nat total)%string j in
        let next := clips_loop w job_id request video_path total rest (S i)
                               (clips ++ [clip_entry job_id i h])%list j' in
        (j' :: fst next, snd next)
    end.
Proof.
  intro Ht. cbn [clips_loop]. rewrite and_then_lift.
  pose proof (create_clip_cases
                (clip_outcome w video_path (clip_output_path job_id i)
                              (auto_frame request))
                (start_time h) (end_time h) (clip_output_path job_id i)
                (clip_duration request)) as Hc.
  destruct (create_clip _ _ _ _ _) as [clip_path | e]; [| reflexivity].
  destruct Hc as [-> _].
  destruct (progress_value (i + 1) total Ht) as [Hdiv Hint].
  rewrite and_then_lift, Hdiv, and_then_update, Hint.
  assert (Hpath : (if flag (include_subtitles request)
                   then add_subtitles
                          (subtitle_outcome w (clip_output_path job_id i) (text h))
                          (clip_output_path job_id i)
                   else clip_output_path job_id i) = clip_output_path job_id i).
  { destruct (flag (include_subtitles request));
      [apply add_subtitles_path | reflexivity]. }
  rewrite Hpath. reflexivity.
Qed.

Lemma clips_loop_result (w : services) (job_id : string) (request : VideoRequest)
      (video_path : string) (total : nat) (highlights : list highlight) :
  (0 < total)%nat ->
  forall i clips j,
    match snd (clips_loop w job_id request video_path total highlights i clips j) with
    | Ok out =>
        out = (clips ++ clip_entries job_id i highlights)%list
        /\ forall k h, nth_error highlights k = Some h ->
                       rendered w request job_id video_path (i + k) h
    | Raise e =>
        exists cause,
          e = ServiceError ("Failed to create clip: " ++ str_of_exn cause)%string
    end.
Proof.
  intro Ht. induction highlights as [| h rest IH]; intros i clips j.
  - simpl. split; [rewrite app_nil_r; reflexivity |].
    intros [| k] h' Hk; discriminate.
  - rewrite clips_loop_step by exact Ht.
    pose proof (create_clip_cases
                  (clip_outcome w video_path (clip_output_path job_id i)
                                (auto_frame request))
                  (start_time h) (end_time h) (clip_output_path job_id i)
                  (clip_duration request)) as Hc.
    destruct (create_clip _ _ _ _ _) as [clip_path | e]; [| exact Hc].
    destruct Hc as [_ (range & Hrange & Hm)].
    assert (Hrendered : rendered w request job_id video_path i h).
    { destruct (clip_range_facts _ _ _ _ Hrange)
        as (target & Htarget & Hfst & Hle & Hwhole & Hcut).
      rewrite Hfst in Hm. exists target, (snd range).
      split; [exact Htarget |]. split; [exact Hm |].
      split; [exact Hle |]. split; [exact Hwhole | exact Hcut]. }
    cbn [snd].
    specialize (IH (S i) (clips ++ [clip_entry job_id i h])%list
                   (set_progress
                      (60 + 30 * Z.of_nat (i + 1) / Z.of_nat total)%Z
                      ("Generated clip " ++ str_of_nat (i + 1) ++ "/"
                         ++ str_of_nat total)%string j)).
    destruct (snd (clips_loop _ _ _ _ _ rest _ _ _)) as [out | e]; [| exact IH].
    destruct IH as [Hout Hrest]. split.
    + rewrite Hout, <- app_assoc. reflexivity.
    + intros [| k] h' Hk.
      * inversion Hk; subst. rewrite Nat.add_0_r. exact Hrendered.
      * replace (i + S k)%nat with (S i + k)%nat by lia. apply Hrest. exact Hk.
Qed.

Lemma clips_loop_log (w : services) (job_id : string) (request : VideoRequest)
      (video_path : string) (total : nat) (highlights : list highlight) :
  (0 < total)%nat ->
  forall i clips j,
    (i + List.length highlights <= total)%nat ->
    let log := fst (clips_loop w job_id request video_path total highlights i
                               clips j) in
    climbs (60 + 30 * Z.of_nat i / Z.of_nat total) (map job_progress log) 90
    /\ Forall (fun s => job_status s = job_status j
                        /\ job_clips s = job_clips j) log.
Proof.
  intro Ht. induction highlights as [| h rest IH]; intros i clips j Hi.
  - cbn [List.length] in Hi. cbn [clips_loop lift fst map climbs].
    split; [| constructor].
    assert (30 * Z.of_nat i / Z.of_nat total <= 30)%Z; [| lia].
    apply Z.div_le_upper_bound; lia.
  - rewrite clips_loop_step by exact Ht. cbn [List.length] in Hi.
    assert (Hbound : (30 * Z.of_nat i / Z.of_nat total <= 30)%Z)
      by (apply Z.div_le_upper_bound; lia).
    destruct (create_clip _ _ _ _ _) as [clip_path | e].
    + cbn [fst map].
      set (j' := set_progress _ _ j).
      specialize (IH (S i) (clips ++ [clip_entry job_id i h])%list j'
                     ltac:(lia)).
      destruct IH as [Hclimb Hkeep].
      split.
      * cbn [climbs].
        change (job_progress j')
          with (60 + 30 * Z.of_nat (i + 1) / Z.of_nat total)%Z.
        replace (i + 1)%nat with (S i) by lia.
        split; [| exact Hclimb].
        assert (30 * Z.of_nat i / Z.of_nat total
                <= 30 * Z.of_nat (S i) / Z.of_nat total)%Z; [| lia].
        apply Z.div_le_mono; lia.
      * constructor; [split; reflexivity |].
        eapply Forall_impl; [| exact Hkeep]. intros s Hs. exact Hs.
    + cbn [fst map climbs]. split; [lia | constructor].
Qed.

Lemma and_then_run {A B : Type} (m : task A) (k : A -> task B) (j : job) :
  and_then m k j
  = match snd (m j) with
    | Ok a =>
        ((fst (m j) ++ fst (k a (current j (fst (m j)))))%list,
         snd (k a (current j (fst (m j)))))
    | Raise e => (fst (m j), Raise e)
    end.
Proof.
  unfold and_then. destruct (m j) as [log [a | e]]; simpl; [| reflexivity].
  destruct (k a (current j log)). reflexivity.
Qed.

Lemma last_cons {A : Type} (a : A) (l : list A) (d : A) :
  last (a :: l) d = last l a.
Proof.
  revert a d. induction l as [| b l IH]; intros a d; [reflexivity |].
  change (last (a :: b :: l) d) with (last (b :: l) d).
  rewrite !IH. reflexivity.
Qed.

Lemma last_Forall {A : Type} (P : A -> Prop) (l : list A) (d : A) :
  Forall P l -> P d -> P (last l d).
Proof.
  intros Hl. revert d. induction Hl as [| a l Ha Hl IH]; intros d Hd; [exact Hd |].
  rewrite last_cons. apply IH. exact Ha.
Qed.

Lemma climbs_app (lo mid hi : Z) (ps qs : list Z) :
  climbs lo ps mid -> climbs mid qs hi -> climbs lo (ps ++ qs) hi.
Proof.
  revert lo. induction ps as [| p ps IH]; intros lo Hps Hqs; simpl in *.
  - destruct qs as [| q qs]; simpl in *; [lia |].
    destruct Hqs as [Hq Hrest]. split; [lia | exact Hrest].
  - destruct Hps as [Hp Hrest]. split; [exact Hp | apply IH; assumption].
Qed.

Lemma climbs_weaken (lo hi hi' : Z) (ps : list Z) :
  climbs lo ps hi -> (hi <= hi')%Z -> climbs lo ps hi'.
Proof.
  revert lo. induction ps as [| p ps IH]; intros lo Hps Hhi; simpl in *; [lia |].
  destruct Hps as [Hp Hrest]. split; [exact Hp | apply IH; assumption].
Qed.

Lemma climbs_bounds (lo hi : Z) (ps : list Z) :
  climbs lo ps hi -> (lo <= hi)%Z /\ Forall (fun p => (lo <= p <= hi)%Z) ps.
Proof.
  revert lo. induction ps as [| p ps IH]; intros lo Hps; simpl in *.
  - split; [exact Hps | constructor].
  - destruct Hps as [Hp Hrest]. destruct (IH p Hrest) as [Hle Hall].
    split; [lia |]. constructor; [lia |].
    eapply Forall_impl; [| exact Hall]. intros q Hq. simpl in Hq. lia.
Qed.

Lemma climbs_sorted (lo hi : Z) (ps : list Z) :
  climbs lo ps hi -> StronglySorted Z.le ps.
Proof.
  revert lo. induction ps as [| p ps IH]; intros lo Hps; simpl in *.
  - constructor.
  - destruct Hps as [Hp Hrest]. constructor; [apply (IH p); exact Hrest |].
    destruct (climbs_bounds p hi ps Hrest) as [_ Hall].
    eapply Forall_impl; [| exact Hall]. intros q Hq. simpl in Hq. lia.
Qed.

Lemma download_raises (ydl : result string) (e : exn) :
  download ydl = Raise e ->
  exists cause,
    e = ServiceError ("Failed to download video: " ++ str_of_exn cause)%string.
Proof.
  unfold download. destruct ydl as [p | cause]; simpl; [discriminate |].
  intro H. inversion H. exists cause. reflexivity.
Qed.

Lemma transcribe_cases (whisper : result (list whisper_segment)) :
  match transcribe whisper with
  | Ok transcription => forallb has_keys transcription = true
  | Raise e =>
      exists cause,
        e = ServiceError ("Failed to transcribe video: " ++ str_of_exn cause)%string
  end.
Proof.
  unfold transcribe.
  destruct whisper as [raw | cause]; simpl; [| exists cause; reflexivity].
  destruct (transcribe_loop raw []) as [tr | cause] eqn:Hrun; simpl;
    [| exists cause; reflexivity].
  apply (transcribe_loop_keys raw [] tr Hrun eq_refl).
Qed.

Lemma string_length_app (a b : string) :
  String.length (a ++ b) = (String.length a + String.length b)%nat.
Proof. induction a as [| c a IH]; simpl; [reflexivity | rewrite IH; reflexivity]. Qed.

Lemma substring_length (n : nat) (s : string) :
  String.length (substring 0 n s) = Nat.min n (String.length s).
Proof.
  revert s. induction n as [| n IH]; intros [| c s]; simpl; try reflexivity.
  rewrite IH. reflexivity.
Qed.

Lemma substring_of_prefix (n : nat) (s t : string) :
  (n <= String.length s)%nat ->
  substring 0 n (substring 0 n s ++ t) = substring 0 n s.
Proof.
  revert s. induction n as [| n IH]; intros s H.
  - destruct s; simpl; destruct t; reflexivity.
  - destruct s as [| c s]; simpl in *; [lia |].
    rewrite IH by lia. reflexivity.
Qed.

Lemma clip_text_of_facts (raw : string) :
  (String.length (clip_text_of raw) <= 103)%nat
  /\ substring 0 100 (clip_text_of raw) = substring 0 100 raw
  /\ ((String.length raw <= 100)%nat -> clip_text_of raw = raw).
Proof.
  unfold clip_text_of. destruct (100 <? String.length raw)%nat eqn:E.
  - apply Nat.ltb_lt in E. split; [| split].
    + rewrite string_length_app, substring_length.
      change (String.length "...") with 3%nat. lia.
    + apply substring_of_prefix. lia.
    + intro H. lia.
  - apply Nat.ltb_ge in E. split; [lia |]. split; reflexivity.
Qed.

Lemma about_refl (x : Q) : about x x.
Proof. unfold about, millisecond. split; lra. Qed.

Lemma clip_entry_reports (job_id : string) (i : nat) (h : highlight) :
  reports job_id i h (clip_entry job_id i h).
Proof.
  destruct (clip_text_of_facts (text h)) as (Hlen & Hprefix & Hshort).
  unfold reports, clip_entry. cbn [clip_index clip_title clip_seconds
    clip_file_path clip_thumbnail clip_text].
  split; [reflexivity |]. split; [reflexivity |]. split; [apply about_refl |].
  split; [reflexivity |]. split; [reflexivity |].
  split; [exact Hlen |]. split; [exact Hprefix | exact Hshort].
Qed.

Lemma clip_entries_nth (job_id : string) (highlights : list highlight) :
  forall i,
    List.length (clip_entries job_id i highlights) = List.length highlights
    /\ forall k h, nth_error highlights k = Some h ->
                   nth_error (clip_entries job_id i highlights) k
                   = Some (clip_entry job_id (i + k) h).
Proof.
  induction highlights as [| h0 rest IH]; intro i; simpl.
  - split; [reflexivity |]. intros [| k] h Hk; discriminate.
  - destruct (IH (S i)) as [Hlen Hnth]. split; [rewrite Hlen; reflexivity |].
    intros [| k] h Hk; simpl in *.
    + inversion Hk; subst. rewrite Nat.add_0_r. reflexivity.
    + rewrite (Hnth k h Hk). f_equal. f_equal. lia.
Qed.

Lemma clip_entries_listed (job_id : string) (highlights : list highlight) :
  listed job_id highlights (clip_entries job_id 0 highlights).
Proof.
  destruct (clip_entries_nth job_id highlights 0) as [Hlen Hnth].
  split; [exact Hlen |].
  intros i h Hi. exists (clip_entry job_id i h).
  split; [apply (Hnth i h Hi) | apply clip_entry_reports].
Qed.

Lemma score_segments_length (np_sqrt : Q -> Q) (transcription : list segment)
      (features : text_features) (audio : audio_features)
      (scored_segments : list scored_segment) :
  _score_segments np_sqrt transcription features audio = Ok scored_segments ->
  List.length scored_segments = List.length transcription.
Proof.
  unfold _score_segments. intro H.
  destruct (1 <? _)%nat; apply score_loop_data in H;
    destruct H as (more & Hout & Hall); simpl in Hout; subst;
    symmetry; eapply Forall2_length; exact Hall.
Qed.

(** The detection call of [process_video] on a transcript whose segments
    have their keys: it returns, unless [max_clips] is [None] and the
    transcript has a segment; then the selector raises TypeError and the
    fallback raises it again. *)
Lemma detect_highlights_for_cases (np_sqrt : Q -> Q)
      (service : result audio_features) (transcription : list segment)
      (max_clips : option Z) (min_duration max_duration : Z) :
  forallb has_keys transcription = true ->
  (exists highlights,
      detect_highlights_for np_sqrt service transcription max_clips min_duration
                            max_duration = Ok highlights)
  \/ (max_clips = None
      /\ transcription <> []
      /\ detect_highlights_for np_sqrt service transcription max_clips
                               min_duration max_duration
         = Raise (TypeError
                    "unsupported operand type(s) for /: 'float' and 'NoneType'")).
Proof.
  intro Hkeys. destruct max_clips as [k |]; unfold detect_highlights_for.
  - left.
    destruct (detect_highlights_returns np_sqrt service transcription k
                min_duration max_duration Hkeys) as [scored H].
    eexists. exact H.
  - destruct (extract_text_features_returns transcription Hkeys) as [features Hf].
    rewrite Hf. cbn [bind].
    assert (Haudio : exists audio, _extract_audio_features service = Ok audio)
      by (destruct service; eexists; reflexivity).
    destruct Haudio as [audio ->]. cbn [bind].
    destruct (score_segments_returns np_sqrt transcription features audio Hf)
      as [scored Hs].
    rewrite Hs. cbn [bind].
    pose proof (score_segments_length _ _ _ _ _ Hs) as Hlen.
    destruct transcription as [| first rest].
    + left. destruct scored; [| discriminate Hlen]. eexists. reflexivity.
    + right. split; [reflexivity |]. split; [discriminate |].
      destruct (sorted_by_score scored) as [| x xs] eqn:Es.
      * destruct scored as [| y ys]; [discriminate Hlen |].
        assert (Hy : In y (sorted_by_score (y :: ys)))
          by (apply sorted_by_score_In; left; reflexivity).
        rewrite Es in Hy. destruct Hy.
      * cbn [try_except].
        destruct (has_keys_ends first rest Hkeys) as (s0 & L & Hs0 & HL).
        rewrite HL, Hs0. reflexivity.
Qed.

(** The runs of the body of [process_video]. *)
Lemma process_video_body_cases (np_sqrt : Q -> Q) (w : services)
      (job_id : string) (request : VideoRequest) (j : job) :
  let run := process_video_body np_sqrt w job_id request j in
  let final := current j (fst run) in
  climbs 10 (map job_progress (fst run)) 100
  /\ (exists rest,
        fst run = set_stage "downloading" 10 "Downloading video from YouTube..." j
                  :: rest)
  /\ match snd run with
     | Ok _ =>
         job_status final = "completed"%string
         /\ job_progress final = 100%Z
         /\ delivered np_sqrt w job_id request final
         /\ exists video_path,
              download (ydl_outcome w (youtube_url request)) = Ok video_path
              /\ remove_outcome w video_path = Ok tt
     | Raise e =>
         (job_clips final = job_clips j
          /\ exists cause,
               e = ServiceError
                     ("Failed to download video: " ++ str_of_exn cause)%string)
         \/ (job_clips final = job_clips j
             /\ exists cause,
                  e = ServiceError
                        ("Failed to transcribe video: " ++ str_of_exn cause)%string)
         \/ (job_clips final = job_clips j
             /\ request_max_clips request = None
             /\ e = TypeError
                      "unsupported operand type(s) for /: 'float' and 'NoneType'")
         \/ (job_clips final = job_clips j
             /\ exists cause,
                  e = ServiceError
                        ("Failed to create clip: " ++ str_of_exn cause)%string)
         \/ (delivered np_sqrt w job_id request final
             /\ exists video_path,
                  download (ydl_outcome w (youtube_url request)) = Ok video_path
                  /\ remove_outcome w video_path = Raise e)
     end.
Proof.
  cbv zeta. unfold process_video_body.
  rewrite and_then_update. cbv beta.
  set (j10 := set_stage "downloading" 10 "Downloading video from YouTube..." j).
  rewrite and_then_lift.
  destruct (download (ydl_outcome w (youtube_url request)))
    as [video_path | e] eqn:Hdownload.
  2:{ cbn [fst snd map climbs current last].
      change (job_progress j10) with 10%Z.
      split; [lia |]. split; [eexists; reflexivity |]. left.
      split; [reflexivity | apply (download_raises _ _ Hdownload)]. }
  rewrite and_then_update. cbv beta.
  set (j25 := set_stage "transcribing" 25 "Transcribing audio..." j10).
  rewrite and_then_lift.
  pose proof (transcribe_cases (whisper_outcome w video_path)) as Htr.
  destruct (transcribe (whisper_outcome w video_path))
    as [transcription | e] eqn:Htranscribe.
  2:{ cbn [fst snd map climbs current last].
      change (job_progress j10) with 10%Z. change (job_progress j25) with 25%Z.
      split; [lia |]. split; [eexists; reflexivity |]. right. left.
      split; [reflexivity | exact Htr]. }
  rewrite and_then_update. cbv beta.
  set (j40 := set_stage "analyzing" 40 "Detecting engaging segments..." j25).
  rewrite and_then_lift.
  destruct (detect_highlights_for_cases np_sqrt (audio_outcome w video_path)
              transcription (request_max_clips request) 30 60 Htr)
    as [[highlights Hdetect] | (Hnone & _ & Hdetect)]; rewrite Hdetect.
  2:{ cbn [fst snd map climbs current last].
      change (job_progress j10) with 10%Z. change (job_progress j25) with 25%Z.
      change (job_progress j40) with 40%Z.
      split; [lia |]. split; [eexists; reflexivity |]. right. right. left.
      split; [reflexivity |]. split; [exact Hnone | reflexivity]. }
  rewrite and_then_update. cbv beta.
  set (j60 := set_stage "generating" 60 "Generating short clips..." j40).
  rewrite and_then_run.
  set (loop := clips_loop w job_id request video_path (List.length highlights)
                          highlights 0 [] j60).
  assert (Hloop : climbs 60 (map job_progress (fst loop)) 90
                  /\ Forall (fun s => job_clips s = job_clips j) (fst loop)
                  /\ match snd loop with
                     | Ok out =>
                         out = clip_entries job_id 0 highlights
                         /\ forall k h, nth_error highlights k = Some h ->
                                        rendered w request job_id video_path k h
                     | Raise e =>
                         exists cause,
                           e = ServiceError
                                 ("Failed to create clip: " ++ str_of_exn cause)%string
                     end).
  { destruct highlights as [| h rest] eqn:Ehs.
    - unfold loop. cbn [clips_loop lift fst snd map climbs].
      split; [lia |]. split; [constructor |]. split; [reflexivity |].
      intros [| k] h Hk; discriminate.
    - assert (Ht : (0 < List.length (h :: rest))%nat) by (simpl; lia).
      pose proof (clips_loop_log w job_id request video_path
                    (List.length (h :: rest)) (h :: rest) Ht 0%nat [] j60
                    ltac:(simpl; lia)) as [Hclimb Hkeep].
      pose proof (clips_loop_result w job_id request video_path
                    (List.length (h :: rest)) (h :: rest) Ht 0%nat [] j60) as Hres.
      fold loop in Hclimb, Hkeep, Hres.
      split.
      { replace (60 + 30 * Z.of_nat 0 / Z.of_nat (List.length (h :: rest)))%Z
          with 60%Z in Hclimb; [exact Hclimb |].
        change (Z.of_nat 0) with 0%Z. rewrite Z.mul_0_r, Z.div_0_l; lia. }
      split.
      { eapply Forall_impl; [| exact Hkeep]. intros s [_ Hs]. exact Hs. }
      destruct (snd loop) as [out | e]; [| exact Hres].
      destruct Hres as [Hout Hrendered]. split; [exact Hout |].
      intros k h' Hk. apply (Hrendered k h' Hk). }
  destruct Hloop as (Hclimb & Hkeep & Hres).
  destruct (snd loop) as [clips | e].
  - destruct Hres as [Hout Hrendered].
    rewrite and_then_update. cbv beta. unfold lift. cbn [fst snd].
    set (done := set_completed _ clips _).
    split.
    { cbn [map climbs].
      change (job_progress j10) with 10%Z. change (job_progress j25) with 25%Z.
      change (job_progress j40) with 40%Z. change (job_progress j60) with 60%Z.
      repeat (split; [lia |]).
      rewrite map_app. apply (climbs_app 60 90 100); [exact Hclimb |].
      cbn [map climbs]. change (job_progress done) with 100%Z. lia. }
    split; [eexists; reflexivity |].
    assert (Hfinal : current j (j10 :: j25 :: j40 :: j60 :: (fst loop ++ [done])%list)
                     = done).
    { unfold current. rewrite !app_comm_cons. apply last_last. }
    assert (Hdelivered : delivered np_sqrt w job_id request done).
    { exists video_path, transcription, highlights.
      split; [exact Hdownload |]. split; [exact Htranscribe |].
      split; [exact Hdetect |]. split; [exact Hrendered |].
      change (job_clips done) with clips. rewrite Hout.
      apply clip_entries_listed. }
    rewrite Hfinal.
    destruct (remove_outcome w video_path) as [[] | e] eqn:Hremove.
    + split; [reflexivity |]. split; [reflexivity |].
      split; [exact Hdelivered |]. exists video_path.
      split; [reflexivity | exact Hremove].
    + right. right. right. right. split; [exact Hdelivered |].
      exists video_path. split; [reflexivity | exact Hremove].
  - cbn [fst snd].
    split.
    { cbn [map climbs].
      change (job_progress j10) with 10%Z. change (job_progress j25) with 25%Z.
      change (job_progress j40) with 40%Z. change (job_progress j60) with 60%Z.
      repeat (split; [lia |]).
      apply (climbs_weaken 60 90 100); [exact Hclimb | lia]. }
    split; [eexists; reflexivity |].
    right. right. right. left. split; [| exact Hres].
    unfold current. rewrite !last_cons.
    apply (last_Forall (fun s => job_clips s = job_clips j));
      [exact Hkeep | reflexivity].
Qed.

(** X23: whatever the services do, [process_video] leaves the job in one of
    two states.  Either the status is "completed" with progress 100, and
    then the download, the transcription, the detection, every rendering
    and the removal of the video returned and the job lists one clip for
    each highlight, in order, with its index, its title, the duration of the
    highlight (to within a millisecond), the output path as file path (also
    when subtitles were asked for), the thumbnail path and its text, cut to
    100 characters and "..." when longer.  Or the status is "error" with
    progress 0: the message names the download, the transcription or the
    clip creation, or it is the TypeError of the detection, which only a
    request whose [max_clips] is [None] meets, and the job lists the clips
    it listed before (none of the clips rendered so far); or only the
    removal of the video failed and the job lists all the clips beside the
    error. *)
Theorem process_video_outcome (np_sqrt : Q -> Q) (w : services)
        (job_id : string) (request : VideoRequest) (j : job) :
  let final := current j (process_video np_sqrt w job_id request j) in
  (job_status final = "completed"%string
   /\ job_progress final = 100%Z
   /\ delivered np_sqrt w job_id request final
   /\ exists video_path,
        download (ydl_outcome w (youtube_url request)) = Ok video_path
        /\ remove_outcome w video_path = Ok tt)
  \/ (job_status final = "error"%string
      /\ job_progress final = 0%Z
      /\ (failed_at "Failed to download video: " j final
          \/ failed_at "Failed to transcribe video: " j final
          \/ (request_max_clips request = None
              /\ job_clips final = job_clips j
              /\ job_message final
                 = "Error: unsupported operand type(s) for /: 'float' and 'NoneType'"%string)
          \/ failed_at "Failed to create clip: " j final
          \/ (delivered np_sqrt w job_id request final
              /\ exists video_path cause,
                   download (ydl_outcome w (youtube_url request)) = Ok video_path
                   /\ remove_outcome w video_path = Raise cause
                   /\ job_message final = ("Error: " ++ str_of_exn cause)%string))).
Proof.
  cbv zeta. unfold process_video.
  pose proof (process_video_body_cases np_sqrt w job_id request j) as Hbody.
  cbv zeta in Hbody.
  destruct (process_video_body np_sqrt w job_id request j) as [log r].
  cbn [fst snd] in Hbody. destruct Hbody as (_ & _ & Hcases).
  destruct r as [[] | e].
  - left. exact Hcases.
  - right.
    assert (Hfinal : forall s, current j (log ++ [s])%list = s)
      by (intro s; unfold current; apply last_last).
    rewrite !Hfinal.
    split; [reflexivity |]. split; [reflexivity |].
    unfold failed_at. cbn [job_clips job_message set_stage].
    destruct Hcases as [[Hclips [cause ->]] | [[Hclips [cause ->]]
                       | [(Hclips & Hnone & ->)
                       | [[Hclips [cause ->]] | [Hdelivered Hremove]]]]].
    + left. split; [exact Hclips | exists cause; reflexivity].
    + right. left. split; [exact Hclips | exists cause; reflexivity].
    + right. right. left. split; [exact Hnone |]. split; [exact Hclips | reflexivity].
    + right. right. right. left.
      split; [exact Hclips | exists cause; reflexivity].
    + right. right. right. right. split.
      * destruct Hdelivered as (vp & tr & hs & H1 & H2 & H3 & H4 & H5).
        exists vp, tr, hs. repeat (split; [assumption |]). exact H5.
      * destruct Hremove as (vp & Hvp & Hrm). exists vp, e.
        split; [exact Hvp |]. split; [exact Hrm | reflexivity].
Qed.

(** X24: the progress values that [process_video] stores never go back
    before the job ends: the first one is 10 with the status "downloading",
    each later one is at least the one before, all lie between 10 and 100;
    the state stored by the handler, when there is one, comes last, with the
    status "error" and the progress 0. *)
Theorem progress_never_goes_back (np_sqrt : Q -> Q) (w : services)
        (job_id : string) (request : VideoRequest) (j : job) :
  exists first steps tail,
    process_video np_sqrt w job_id request j = (first :: steps ++ tail)%list
    /\ job_status first = "downloading"%string
    /\ job_progress first = 10%Z
    /\ StronglySorted Z.le (map job_progress (first :: steps))
    /\ Forall (fun s => (10 <= job_progress s <= 100)%Z) (first :: steps)
    /\ (tail = []
        \/ exists s, tail = [s] /\ job_status s = "error"%string
                     /\ job_progress s = 0%Z).
Proof.
  unfold process_video.
  pose proof (process_video_body_cases np_sqrt w job_id request j) as Hbody.
  cbv zeta in Hbody.
  destruct (process_video_body np_sqrt w job_id request j) as [log r].
  cbn [fst snd] in Hbody. destruct Hbody as (Hclimb & [rest Hlog] & _).
  subst log.
  exists (set_stage "downloading" 10 "Downloading video from YouTube..." j), rest.
  exists (match r with
          | Ok _ => []
          | Raise e =>
              [set_stage "error" 0 ("Error: " ++ str_of_exn e)%string
                 (current j (set_stage "downloading" 10
                               "Downloading video from YouTube..." j :: rest))]
          end).
  split; [destruct r; [rewrite app_nil_r |]; reflexivity |].
  split; [reflexivity |]. split; [reflexivity |].
  split; [apply (climbs_sorted 10 100); exact Hclimb |].
  split.
  - destruct (climbs_bounds 10 100 _ Hclimb) as [_ Hall].
    rewrite Forall_map in Hall. exact Hall.
  - destruct r as [u | e]; [left; reflexivity |].
    right. eexists. split; [reflexivity |]. split; reflexivity.
Qed.

(** X25: in a completed job every listed clip was rendered from the start
    of its highlight to an end that is not after the end of the highlight:
    the end of the highlight when the highlight is no longer than the clip
    duration of the request, and else an end that makes the clip as long as
    that duration, to within a millisecond.  The "duration" listed for the
    clip is that of the highlight, to within a millisecond, also when the
    rendered clip is shorter: for a highlight more than two milliseconds
    longer than the clip duration the listed duration is larger than the
    length of the rendered clip. *)
Theorem listed_duration_is_the_highlights (np_sqrt : Q -> Q) (w : services)
        (job_id : string) (request : VideoRequest) (j : job) :
  let final := current j (process_video np_sqrt w job_id request j) in
  job_status final = "completed"%string ->
  exists video_path transcription highlights,
    detect_highlights_for np_sqrt (audio_outcome w video_path) transcription
                          (request_max_clips request) 30 60 = Ok highlights
    /\ List.length (job_clips final) = List.length highlights
    /\ forall i h,
         nth_error highlights i = Some h ->
         exists c target_duration rendered_end,
           nth_error (job_clips final) i = Some c
           /\ clip_duration request = Some target_duration
           /\ clip_outcome w video_path (clip_file_path c) (auto_frame request)
                           (start_time h) rendered_end = Ok tt
           /\ rendered_end <= end_time h
           /\ (end_time h - start_time h <= inject_Z target_duration ->
               rendered_end = end_time h)
           /\ (inject_Z target_duration < end_time h - start_time h ->
               about (rendered_end - start_time h) (inject_Z target_duration))
           /\ about (clip_seconds c) (end_time h - start_time h)
           /\ (inject_Z target_duration + 2 * millisecond
               < end_time h - start_time h ->
               rendered_end - start_time h < clip_seconds c).
Proof.
  cbv zeta. unfold process_video.
  pose proof (process_video_body_cases np_sqrt w job_id request j) as Hbody.
  cbv zeta in Hbody.
  destruct (process_video_body np_sqrt w job_id request j) as [log r].
  cbn [fst snd] in Hbody. destruct Hbody as (_ & _ & Hcases).
  destruct r as [[] | e].
  2:{ unfold current. rewrite last_last. cbn [job_status set_stage].
      intro H. discriminate H. }
  intros _.
  destruct Hcases as (_ & _ & Hdelivered & _).
  destruct Hdelivered as (vp & tr & hs & _ & _ & Hdetect & Hrendered & Hlen & Hlisted).
  exists vp, tr, hs. split; [exact Hdetect |]. split; [exact Hlen |].
  intros i h Hi.
  destruct (Hlisted i h Hi) as (c & Hc & Hreports).
  destruct Hreports as (_ & _ & Hseconds & Hpath & _).
  destruct (Hrendered i h Hi)
    as (target & rendered_end & Htarget & Hout & Hle & Hwhole & Hcut).
  exists c, target, rendered_end.
  split; [exact Hc |]. split; [exact Htarget |]. rewrite Hpath.
  split; [exact Hout |]. split; [exact Hle |]. split; [exact Hwhole |].
  split; [exact Hcut |]. split; [exact Hseconds |].
  intro Hlong.
  assert (Hlt : inject_Z target < end_time h - start_time h)
    by (unfold millisecond in Hlong; lra).
  specialize (Hcut Hlt). unfold about, millisecond in *. lra.
Qed.

Lemma listed_duration_is_the_highlights_witness :
  exists video_path transcription highlights,
    detect_highlights_for (fun x => x) (audio_outcome sample_services video_path)
                          transcription (request_max_clips sample_request) 30 60
    = Ok highlights
    /\ List.length
         (job_clips (current started_job
                       (process_video (fun x => x) sample_services "job"
                                      sample_request started_job)))
       = List.length highlights
    /\ forall i h,
         nth_error highlights i = Some h ->
         exists c target_duration rendered_end,
           nth_error
             (job_clips (current started_job
                           (process_video (fun x => x) sample_services "job"
                                          sample_request started_job))) i
           = Some c
           /\ clip_duration sample_request = Some target_duration
           /\ clip_outcome sample_services video_path (clip_file_path c)
                           (auto_frame sample_request) (start_time h) rendered_end
              = Ok tt
           /\ rendered_end <= end_time h
           /\ (end_time h - start_time h <= inject_Z target_duration ->
               rendered_end = end_time h)
           /\ (inject_Z target_duration < end_time h - start_time h ->
               about (rendered_end - start_time h) (inject_Z target_duration))
           /\ about (clip_seconds c) (end_time h - start_time h)
           /\ (inject_Z target_duration + 2 * millisecond
               < end_time h - start_time h ->
               rendered_end - start_time h < clip_seconds c).
Proof.
  apply (listed_duration_is_the_highlights (fun x => x) sample_services "job"
           sample_request started_job).
  vm_compute. reflexivity.
Defined.

(** ** Serving a clip *)

Lemma list_index_cases {A : Type} (xs : list A) (i : Z) :
  let n := Z.of_nat (List.length xs) in
  ((0 <= i < n)%Z ->
   exists a, nth_error xs (Z.to_nat i) = Some a /\ list_index xs i = Ok a)
  /\ ((- n <= i < 0)%Z ->
      exists a, nth_error xs (Z.to_nat (i + n)) = Some a /\ list_index xs i = Ok a)
  /\ ((i < - n)%Z -> list_index xs i = Raise IndexError).
Proof.
  cbv zeta. unfold list_index.
  assert (Hnth : forall k, (0 <= k < Z.of_nat (List.length xs))%Z ->
                           exists a, nth_error xs (Z.to_nat k) = Some a).
  { intros k Hk. destruct (nth_error xs (Z.to_nat k)) as [a |] eqn:E;
      [exists a; reflexivity |].
    apply nth_error_None in E. lia. }
  split; [| split].
  - intro Hi. destruct (i <? 0)%Z eqn:E; [apply Z.ltb_lt in E; lia |].
    rewrite E. destruct (Hnth i Hi) as [a Ha]. exists a. rewrite Ha.
    split; reflexivity.
  - intro Hi. destruct (i <? 0)%Z eqn:E; [| apply Z.ltb_ge in E; lia].
    destruct (i + Z.of_nat (List.length xs) <? 0)%Z eqn:E';
      [apply Z.ltb_lt in E'; lia |].
    destruct (Hnth (i + Z.of_nat (List.length xs))%Z ltac:(lia)) as [a Ha].
    exists a. rewrite Ha. split; reflexivity.
  - intro Hi. destruct (i <? 0)%Z eqn:E; [| apply Z.ltb_ge in E; lia].
    destruct (i + Z.of_nat (List.length xs) <? 0)%Z eqn:E';
      [reflexivity | apply Z.ltb_ge in E'; lia].
Qed.

(** X26: for a known job with [n] clips, [download_clip] answers "Clip not
    found" for an index of [n] or more and serves clip [i] for an index [i]
    from 0 to [n - 1]; a negative index from [-n] to -1 is not refused: it
    serves the clip counted from the end, under a file name with the
    negative index; an index below [-n] raises IndexError instead of the
    404 answer.  A clip whose file does not exist gives "Clip file not
    found". *)
Theorem download_clip_index (jobs : string -> option job)
        (exists_ : string -> bool) (job_id : string) (clip_index : Z) (j : job) :
  jobs job_id = Some j ->
  let n := Z.of_nat (List.length (job_clips j)) in
  let serve (c : clip_info) :=
    if exists_ (clip_file_path c)
    then Ok (FileResponse (clip_file_path c)
               ("short_" ++ job_id ++ "_" ++ str_of_int clip_index ++ ".mp4")%string)
    else Ok (NotFound "Clip file not found") in
  ((n <= clip_index)%Z ->
   download_clip jobs exists_ job_id clip_index = Ok (NotFound "Clip not found"))
  /\ ((0 <= clip_index < n)%Z ->
      exists c, nth_error (job_clips j) (Z.to_nat clip_index) = Some c
                /\ download_clip jobs exists_ job_id clip_index = serve c)
  /\ ((- n <= clip_index < 0)%Z ->
      exists c, nth_error (job_clips j) (Z.to_nat (clip_index + n)) = Some c
                /\ download_clip jobs exists_ job_id clip_index = serve c)
  /\ ((clip_index < - n)%Z ->
      download_clip jobs exists_ job_id clip_index = Raise IndexError).
Proof.
  intros Hjob. cbv zeta. unfold download_clip. rewrite Hjob.
  destruct (list_index_cases (job_clips j) clip_index) as (Hin & Hneg & Hlow).
  split; [| split; [| split]].
  - intro Hi. destruct (_ <=? _)%Z eqn:E; [reflexivity | apply Z.leb_gt in E; lia].
  - intro Hi. destruct (_ <=? _)%Z eqn:E; [apply Z.leb_le in E; lia |].
    destruct (Hin Hi) as (c & Hc & ->). exists c. split; [exact Hc |].
    cbn [bind]. destruct (exists_ (clip_file_path c)); reflexivity.
  - intro Hi. destruct (_ <=? _)%Z eqn:E; [apply Z.leb_le in E; lia |].
    destruct (Hneg Hi) as (c & Hc & ->). exists c. split; [exact Hc |].
    cbn [bind]. destruct (exists_ (clip_file_path c)); reflexivity.
  - intro Hi. destruct (_ <=? _)%Z eqn:E; [apply Z.leb_le in E; lia |].
    rewrite (Hlow Hi). reflexivity.
Qed.

Lemma download_clip_index_witness :
  download_clip (fun _ => Some two_clip_job) (fun _ => true) "job" (-1)
  = Ok (FileResponse "outputs/job_clip_1.mp4" "short_job_-1.mp4")
  /\ download_clip (fun _ => Some two_clip_job) (fun _ => true) "job" (-3)
     = Raise IndexError.
Proof.
  destruct (download_clip_index (fun _ => Some two_clip_job) (fun _ => true)
              "job" (-1) two_clip_job eq_refl) as (_ & _ & Hneg & _).
  destruct (download_clip_index (fun _ => Some two_clip_job) (fun _ => true)
              "job" (-3) two_clip_job eq_refl) as (_ & _ & _ & Hlow).
  split.
  - destruct (Hneg ltac:(simpl; lia)) as (c & Hc & Hrun).
    simpl in Hc. inversion Hc; subst c. exact Hrun.
  - apply Hlow. simpl. lia.
Defined.

(** ** The score against the aligner of the specification *)


Example energy_term_example : energy_term coarse_audio 0 0.05 == 0.2.
Proof. vm_compute. reflexivity. Qed.



(** C8, the defect: on a transcript of one segment the arrays are not
    normalized, the score is made of the raw counts and the raw speaking
    rate, whose divisor [max(duration, 1)] is at least 1, and neither the
    scorer nor the detection call raises.  But the audio block takes the
    mean of the samples in the range of the segment whenever its guards
    pass: when the range holds no sample the mean divides 0 by 0 and the
    score is NaN.  The segment of 20 ms between two frames of
    [coarse_audio] is such a case. *)
Theorem single_segment_mean_of_no_sample (np_sqrt : Q -> Q) :
  (forall (service : result audio_features) (raw : string) (s e : Q)
          (confidence : option Q) (max_clips min_duration max_duration : Z),
     let segment := {| seg_text := Some raw; seg_start := Some s;
                       seg_end := Some e; seg_confidence := confidence |} in
     let audio := match service with Ok a => a | Raise _ => empty_audio end in
     let raw_sum :=
       weighted_sum (Qnat (keyword_score engagement_keywords (lower raw)))
                    (Qnat (keyword_score emotion_keywords (lower raw)))
                    (Qnat (count_char "?" (lower raw)))
                    (Qnat (count_char "!" (lower raw)))
                    (Qnat (List.length (split (lower raw))) / Qmax (e - s) 1) in
     exists features sc,
       _extract_text_features [segment] = Ok features
       /\ _score_segments np_sqrt [segment] features audio = Ok [sc]
       /\ detect_highlights np_sqrt service [segment] max_clips min_duration
                            max_duration
          = Ok (_select_highlights [sc] max_clips min_duration max_duration)
       /\ 1 <= py_max (e - s) 1
       /\ (audio_guards audio s e = false ->
           exists v, sc_score sc = Fin v /\ v == raw_sum)
       /\ (audio_guards audio s e = true ->
           samples_in_range audio s e <> [] ->
           exists v,
             sc_score sc = Fin v
             /\ v == raw_sum
                     + 0.2 * Qmin (Qmean (samples_in_range audio s e) * 10) 1)
       /\ (audio_guards audio s e = true ->
           samples_in_range audio s e = [] ->
           sc_score sc = NaN))
  /\ audio_guards coarse_audio 0.04 0.06 = true
  /\ samples_in_range coarse_audio 0.04 0.06 = []
  /\ exists features sc,
       _extract_text_features between_frames = Ok features
       /\ _score_segments np_sqrt between_frames features coarse_audio = Ok [sc]
       /\ sc_score sc = NaN.
Proof.
  assert (Hgeneral :
    forall (service : result audio_features) (raw : string) (s e : Q)
           (confidence : option Q) (max_clips min_duration max_duration : Z),
     let segment := {| seg_text := Some raw; seg_start := Some s;
                       seg_end := Some e; seg_confidence := confidence |} in
     let audio := match service with Ok a => a | Raise _ => empty_audio end in
     let raw_sum :=
       weighted_sum (Qnat (keyword_score engagement_keywords (lower raw)))
                    (Qnat (keyword_score emotion_keywords (lower raw)))
                    (Qnat (count_char "?" (lower raw)))
                    (Qnat (count_char "!" (lower raw)))
                    (Qnat (List.length (split (lower raw))) / Qmax (e - s) 1) in
     exists features sc,
       _extract_text_features [segment] = Ok features
       /\ _score_segments np_sqrt [segment] features audio = Ok [sc]
       /\ detect_highlights np_sqrt service [segment] max_clips min_duration
                            max_duration
          = Ok (_select_highlights [sc] max_clips min_duration max_duration)
       /\ 1 <= py_max (e - s) 1
       /\ (audio_guards audio s e = false ->
           exists v, sc_score sc = Fin v /\ v == raw_sum)
       /\ (audio_guards audio s e = true ->
           samples_in_range audio s e <> [] ->
           exists v,
             sc_score sc = Fin v
             /\ v == raw_sum
                     + 0.2 * Qmin (Qmean (samples_in_range audio s e) * 10) 1)
       /\ (audio_guards audio s e = true ->
           samples_in_range audio s e = [] ->
           sc_score sc = NaN)).
  { intros service raw s e confidence max_clips min_duration max_duration
           segment audio raw_sum.
    destruct (single_segment_score np_sqrt service raw s e confidence max_clips
                min_duration max_duration)
      as (features & sc & Hrun & Hscore & Hfeq & Hdiv & _ & Hdetect).
    fold segment in Hrun, Hscore, Hdetect. fold audio in Hscore, Hfeq.
    fold raw_sum in Hfeq.
    exists features, sc. split; [exact Hrun |]. split; [exact Hscore |].
    split; [exact Hdetect |]. split; [exact Hdiv |].
    unfold audio_block_term, np_mean_in_range in Hfeq.
    split; [| split].
    - intro Hg. rewrite Hg in Hfeq.
      destruct (sc_score sc) as [v |]; cbn [feq fadd] in Hfeq; [| contradiction].
      exists v. split; [reflexivity |]. rewrite Hfeq. ring.
    - intros Hg Hne. rewrite Hg in Hfeq.
      destruct (samples_in_range audio s e) as [| x xs]; [congruence |].
      cbn [np_mean] in Hfeq.
      destruct (sc_score sc) as [v |]; cbn [feq fadd] in Hfeq; [| contradiction].
      exists v. split; [reflexivity | exact Hfeq].
    - intros Hg Hempty. rewrite Hg, Hempty in Hfeq. cbn [np_mean] in Hfeq.
      destruct (sc_score sc) as [v |]; cbn [feq fadd] in Hfeq;
        [contradiction | reflexivity]. }
  split; [exact Hgeneral |].
  split; [reflexivity |]. split; [reflexivity |].
  destruct (Hgeneral (Ok coarse_audio) "wow"%string 0.04 0.06 None 3%Z 30%Z 60%Z)
    as (features & sc & Hrun & Hscore & _ & _ & _ & _ & Hnan).
  exists features, sc. split; [exact Hrun |]. split; [exact Hscore |].
  apply Hnan; reflexivity.
Qed.
